(** * create-square-invoice: the request orchestrator, embedded in Rocq

    A shallow embedding of [supabase/functions/create-square-invoice/index.ts]
    together with the tables and SQL helpers of migration 238 that the
    handler reads and writes.

    - JavaScript strings are [string]; one character of the model is one
      code unit below 256.
    - A JavaScript number is a [jsnum]: a rational, NaN or an infinity.
    - The handler is a computation in a state-and-exception monad [M]: the
      state holds the two tables, the handler's mutable locals and the
      sequence of effects it issued; an exception is a JavaScript [throw].
    - Everything the handler obtains from outside (the identity provider,
      the invoicing platform, the clock, the generated identifiers, the
      runtime's date parser) is a field of the environment [Env]. *)

From Stdlib Require Import String Ascii List ZArith QArith Bool Lia.
From Stdlib Require Import DecimalString.
Import ListNotations.
Local Open Scope string_scope.
Local Open Scope Z_scope.

(* ====================================================================== *)
(** ** JavaScript values and string primitives *)
(* ====================================================================== *)

Module Js.

(** A JavaScript number. *)
Inductive jsnum : Type :=
| JNaN
| JInf (negative : bool)
| JFin (q : Q).

Definition of_Z (z : Z) : jsnum := JFin (inject_Z z).

(** [Number.isInteger]. *)
Definition isInteger (n : jsnum) : bool :=
  match n with
  | JFin q => Z.rem (Qnum q) (Zpos (Qden q)) =? 0
  | _ => false
  end.

Definition Qlt_bool (a b : Q) : bool := negb (Qle_bool b a).

(** [a <= b], [a > b], [a < b] on numbers; every comparison with NaN is
    false. *)
Definition le (a b : jsnum) : bool :=
  match a, b with
  | JNaN, _ | _, JNaN => false
  | JInf true, _ => true
  | _, JInf false => true
  | JInf false, _ => false
  | _, JInf true => false
  | JFin x, JFin y => Qle_bool x y
  end.

Definition lt (a b : jsnum) : bool :=
  match a, b with
  | JNaN, _ | _, JNaN => false
  | JInf true, JInf true => false
  | JInf true, _ => true
  | JInf false, _ => false
  | JFin _, JInf false => true
  | JFin _, JInf true => false
  | JFin x, JFin y => Qlt_bool x y
  end.

Definition gt (a b : jsnum) : bool := lt b a.

(** Truthiness of an optional string: [undefined] and [''] are falsy. *)
Definition truthy (s : option string) : bool :=
  match s with
  | Some s => negb (s =? EmptyString)%string
  | None => false
  end.

(** The characters matched by [\s] among the code units below 256. *)
Definition is_space (c : ascii) : bool :=
  let n := N_of_ascii c in
  ((9 <=? n) && (n <=? 13) || (n =? 32) || (n =? 160))%N.

Definition in_range (lo hi c : ascii) : bool :=
  ((N_of_ascii lo <=? N_of_ascii c) && (N_of_ascii c <=? N_of_ascii hi))%N.

(** [String.prototype.startsWith]. *)
Definition startsWith (s p : string) : bool := String.prefix p s.

(** [String.prototype.includes]. *)
Fixpoint includes (s p : string) : bool :=
  String.prefix p s ||
  match s with
  | EmptyString => false
  | String _ s' => includes s' p
  end.

Fixpoint drop (n : nat) (s : string) : string :=
  match n, s with
  | O, _ => s
  | S n', String _ s' => drop n' s'
  | S _, EmptyString => EmptyString
  end.

(** [s.replace(p, '')]: the first occurrence of [p] is removed. *)
Fixpoint remove_first (s p : string) : string :=
  if String.prefix p s then drop (String.length p) s
  else match s with
       | EmptyString => EmptyString
       | String c s' => String c (remove_first s' p)
       end.

(** [Array.prototype.join]. *)
Definition join (sep : string) (l : list string) : string :=
  String.concat sep l.

(** [s.trim().split(/\s+/)]: the maximal runs of non-space characters;
    a string without any is split into the single part ['']. *)
Fixpoint words_aux (cur : string) (s : string) : list string :=
  match s with
  | EmptyString => if (cur =? EmptyString)%string then [] else [cur]
  | String c s' =>
      if is_space c
      then (if (cur =? EmptyString)%string then words_aux EmptyString s' else cur :: words_aux EmptyString s')
      else words_aux (cur ++ String c EmptyString) s'
  end.

Definition trim_split (s : string) : list string :=
  match words_aux EmptyString s with
  | [] => [EmptyString]
  | l => l
  end.

(** Decimal rendering of an integer, as template literals print it. *)
Definition show_Z (z : Z) : string :=
  NilZero.string_of_int (Z.to_int z).

(** *** Regular expressions

    The two patterns of the source are anchored matches built from
    character classes, concatenation and [+]; they are decided by
    derivatives. *)
Inductive regex : Type :=
| Fail
| Eps
| Class (p : ascii -> bool)
| Seq (r1 r2 : regex)
| Alt (r1 r2 : regex)
| Star (r : regex).

Definition Plus (r : regex) : regex := Seq r (Star r).

Fixpoint nullable (r : regex) : bool :=
  match r with
  | Fail => false
  | Eps => true
  | Class _ => false
  | Seq r1 r2 => nullable r1 && nullable r2
  | Alt r1 r2 => nullable r1 || nullable r2
  | Star _ => true
  end.

Fixpoint deriv (c : ascii) (r : regex) : regex :=
  match r with
  | Fail => Fail
  | Eps => Fail
  | Class p => if p c then Eps else Fail
  | Seq r1 r2 =>
      if nullable r1
      then Alt (Seq (deriv c r1) r2) (deriv c r2)
      else Seq (deriv c r1) r2
  | Alt r1 r2 => Alt (deriv c r1) (deriv c r2)
  | Star r1 => Seq (deriv c r1) (Star r1)
  end.

(** [/^r$/.test(s)]. *)
Fixpoint test (r : regex) (s : string) : bool :=
  match s with
  | EmptyString => nullable r
  | String c s' => test (deriv c r) s'
  end.

End Js.

Import Js.

(* ====================================================================== *)
(** ** Types and constants of the edge function *)
(* ====================================================================== *)

Inductive ErrorCode : Type :=
| AUTH_MISSING
| AUTH_INVALID
| AUTH_EXPIRED
| UNAUTHORIZED
| VALIDATION_MISSING_FIELD
| VALIDATION_INVALID_EMAIL
| VALIDATION_INVALID_AMOUNT
| VALIDATION_INVALID_ORDER
| DUPLICATE_ORDER
| RATE_LIMITED_USER
| RATE_LIMITED_GLOBAL
| REPLAY_REJECTED
| SQUARE_API_ERROR
| SQUARE_CUSTOMER_ERROR
| SQUARE_ORDER_ERROR
| SQUARE_INVOICE_ERROR
| SQUARE_PUBLISH_ERROR
| INTERNAL_ERROR.

(** [CreateInvoiceRequest]; a field that the JSON body lacks is [None].
    The members have the types that the interface declares (four strings
    and a number): the handler assigns the parsed body to this type and
    checks no member's type, so what it does with a member of another
    JSON type lies outside this development. *)
Record CreateInvoiceRequest : Type := mkBody {
  order_number : option string;
  customer_name : option string;
  customer_email : option string;
  amount_cents : option jsnum;
  request_timestamp : option string
}.

Record SquareCustomer : Type := mkSquareCustomer {
  sc_id : string;
  sc_email_address : option string;
  sc_given_name : option string;
  sc_family_name : option string
}.

Record SquareError : Type := mkSquareError {
  se_category : string;
  se_code : string;
  se_detail : string
}.

Definition REPLAY_WINDOW_SECONDS : Z := 120.
Definition MAX_AMOUNT_CENTS : Z := 5000000.
Definition USER_RATE_LIMIT : Z := 10.
Definition GLOBAL_RATE_LIMIT : Z := 50.

(** The body and status of a [Response]. *)
Inductive Payload : Type :=
| NoBody
| ErrorBody (correlation_id : string) (code : ErrorCode) (message : string)
            (retry_after : option Z)
| SuccessBody (correlation_id : string)
              (square_customer_id square_order_id square_invoice_id
               invoice_number : option string).

Record Response : Type := mkResponse {
  status : Z;
  x_correlation_id : option string;
  payload : Payload
}.

Definition jsonResponse (data : Payload) (status : Z)
    (correlationId : option string) : Response :=
  mkResponse status
    (match correlationId with
     | Some c => if (c =? EmptyString)%string then None else Some c
     | None => None
     end)
    data.

Definition errorResponse (code : ErrorCode) (message : string) (status : Z)
    (correlationId : string) (retryAfter : option Z) : Response :=
  jsonResponse
    (ErrorBody correlationId code message
       (match retryAfter with
        | Some r => if r =? 0 then None else Some r
        | None => None
        end))
    status (Some correlationId).

Definition not_space_or_at (c : ascii) : bool :=
  negb (is_space c) && negb (Ascii.eqb c "@").

Definition emailRegex : regex :=
  Seq (Plus (Class not_space_or_at))
   (Seq (Class (Ascii.eqb "@"))
     (Seq (Plus (Class not_space_or_at))
       (Seq (Class (Ascii.eqb "."))
            (Plus (Class not_space_or_at))))).

Definition isValidEmail (email : string) : bool := test emailRegex email.

Definition order_char (c : ascii) : bool :=
  in_range "A" "Z" c || in_range "a" "z" c || in_range "0" "9" c
  || Ascii.eqb c "-".

Definition orderRegex : regex := Plus (Class order_char).

Definition isValidOrderNumber (orderNumber : string) : bool :=
  test orderRegex orderNumber
  && (0 <? Z.of_nat (String.length orderNumber))
  && (Z.of_nat (String.length orderNumber) <=? 50).

(* ====================================================================== *)
(** ** Storage: the tables of migration 238 *)
(* ====================================================================== *)

(** [processed_orders.status]; the column's CHECK admits these four. *)
Inductive OrderStatus : Type := pending | processing | completed | failed.

(** [invoice_audit_log.result]; the column's CHECK admits these eight. *)
Inductive AuditResult : Type :=
| SUCCESS
| FAILURE
| DUPLICATE_BLOCKED
| VALIDATION_FAILED
| R_UNAUTHORIZED
| R_AUTH_MISSING
| RATE_LIMITED
| R_REPLAY_REJECTED.

(** A row of [processed_orders]. Instants are milliseconds. *)
Record OrderRecord : Type := mkOrder {
  po_id : string;
  po_order_number : string;
  po_user_id : string;
  po_status : OrderStatus;
  po_square_customer_id : option string;
  po_square_order_id : option string;
  po_square_invoice_id : option string;
  po_steps_completed : list string;
  po_amount_cents : jsnum;
  po_customer_name : string;
  po_customer_email : string;
  po_idempotency_key : string;
  po_error_message : option string;
  po_updated_at : Z;
  po_completed_at : option Z
}.

(** The object given to [.update(...)]: a column that the object does not
    mention, or mentions as [undefined], is [None] and keeps its value. *)
Record OrderUpdate : Type := mkUpdate {
  u_status : option OrderStatus;
  u_updated_at : option Z;
  u_square_customer_id : option string;
  u_square_order_id : option string;
  u_square_invoice_id : option string;
  u_steps_completed : option (list string);
  u_completed_at : option Z;
  u_error_message : option string
}.

(** The object given to [.insert(...)] on [processed_orders]. *)
Record OrderInsert : Type := mkInsert {
  i_order_number : string;
  i_user_id : string;
  i_status : OrderStatus;
  i_amount_cents : jsnum;
  i_customer_name : string;
  i_customer_email : string;
  i_idempotency_key : string
}.

(** The [data] argument of [logAudit]. *)
Record AuditData : Type := mkAudit {
  a_user_id : option string;
  a_user_email : option string;
  a_cultivera_order_number : option string;
  a_customer_name : option string;
  a_customer_email : option string;
  a_amount_cents : option jsnum;
  a_idempotency_key : option string;
  a_square_customer_id : option string;
  a_square_order_id : option string;
  a_square_invoice_id : option string;
  a_result : AuditResult;
  a_error_code : option ErrorCode;
  a_error_message : option string;
  a_request_timestamp : option string;
  a_steps_completed : option (list string)
}.

(** A row of [invoice_audit_log]. *)
Record AuditRow : Type := mkAuditRow {
  al_correlation_id : string;
  al_timestamp : Z;
  al_data : AuditData
}.

Record Db : Type := mkDb {
  processed_orders : list OrderRecord;
  invoice_audit_log : list AuditRow
}.

Definition or_keep {A} (new : option A) (old : A) : A :=
  match new with Some v => v | None => old end.

Definition or_keep_opt {A} (new : option A) (old : option A) : option A :=
  match new with Some v => Some v | None => old end.

(** One row after [UPDATE]; the trigger [update_processed_orders_updated_at]
    then stamps [updated_at] with the database's clock. *)
Definition apply_update (db_now : Z) (u : OrderUpdate) (r : OrderRecord)
    : OrderRecord :=
  mkOrder (po_id r) (po_order_number r) (po_user_id r)
    (or_keep (u_status u) (po_status r))
    (or_keep_opt (u_square_customer_id u) (po_square_customer_id r))
    (or_keep_opt (u_square_order_id u) (po_square_order_id r))
    (or_keep_opt (u_square_invoice_id u) (po_square_invoice_id r))
    (or_keep (u_steps_completed u) (po_steps_completed r))
    (po_amount_cents r) (po_customer_name r) (po_customer_email r)
    (po_idempotency_key r)
    (or_keep_opt (u_error_message u) (po_error_message r))
    db_now
    (or_keep_opt (u_completed_at u) (po_completed_at r)).

Definition update_by_id (db_now : Z) (id : string) (u : OrderUpdate)
    (rows : list OrderRecord) : list OrderRecord :=
  map (fun r => if (po_id r =? id)%string then apply_update db_now u r else r)
      rows.

(** [.eq('order_number', n).single()]: the row, or [null]. *)
Definition find_order (n : string) (rows : list OrderRecord)
    : option OrderRecord :=
  find (fun r => (po_order_number r =? n)%string) rows.

(** The row an [INSERT] creates: the defaults of the table for the
    columns the insert does not give. *)
Definition new_row (id : string) (db_now : Z) (i : OrderInsert)
    : OrderRecord :=
  mkOrder id (i_order_number i) (i_user_id i) (i_status i) None None None []
    (i_amount_cents i) (i_customer_name i) (i_customer_email i)
    (i_idempotency_key i) None db_now None.

Definition counted (r : AuditResult) : bool :=
  match r with SUCCESS | FAILURE => true | _ => false end.

Definition one_hour_ms : Z := 3600000.

(** SQL [get_user_rate_limit_count(check_user_id)]. *)
Definition get_user_rate_limit_count (db_now : Z) (check_user_id : string)
    (log : list AuditRow) : Z :=
  Z.of_nat (List.length (filter (fun row =>
    match a_user_id (al_data row) with
    | Some u => (u =? check_user_id)%string
    | None => false
    end
    && (db_now - one_hour_ms <? al_timestamp row)
    && counted (a_result (al_data row))) log)).

(** SQL [get_global_rate_limit_count()]. *)
Definition get_global_rate_limit_count (db_now : Z) (log : list AuditRow)
    : Z :=
  Z.of_nat (List.length (filter (fun row =>
    (db_now - one_hour_ms <? al_timestamp row)
    && counted (a_result (al_data row))) log)).

(* ====================================================================== *)
(** ** The invoicing platform's protocol *)
(* ====================================================================== *)

Record InvoiceFields : Type := mkInvoiceFields {
  if_order_id : string;
  if_location_id : string;
  if_customer_id : string;
  if_request_type : string;
  if_due_date : string;
  if_automatic_payment_source : string;
  if_card : bool;
  if_square_gift_card : bool;
  if_bank_account : bool;
  if_buy_now_pay_later : bool;
  if_cash_app_pay : bool;
  if_delivery_method : string;
  if_title : string
}.

(** The JSON bodies the client sends. *)
Inductive SquareBody : Type :=
| NullBody
| SearchBody (exact_email : string)
| CustomerBody (idempotency_key given_name family_name email_address : string)
| OrderBody (idempotency_key location_id customer_id reference_id
             line_item_name quantity : string) (amount : jsnum)
            (currency : string)
| InvoiceBody (idempotency_key : string) (invoice : InvoiceFields)
| PublishBody (idempotency_key : string) (version : Z).

Record SquareRequest : Type := mkSquareRequest {
  sq_endpoint : string;
  sq_method : string;
  sq_body : SquareBody;
  sq_access_token : string;
  sq_idempotency_header : option string
}.

Record SquareInvoice : Type := mkSquareInvoice {
  inv_id : string;
  inv_invoice_number : string;
  inv_version : Z
}.

(** The parsed JSON of a reply; a member the reply lacks is [None]. *)
Record SquareJson : Type := mkSquareJson {
  j_errors : option (list SquareError);
  j_data_customers : option (list SquareCustomer);
  j_customer : option SquareCustomer;
  j_order_id : option string;
  j_invoice : option SquareInvoice
}.

(** [fetch] followed by [response.json()]: either of them may throw. *)
Inductive FetchOutcome : Type :=
| FetchThrows (message : string)
| FetchJson (j : SquareJson).

(* ====================================================================== *)
(** ** The request, the environment and the handler's state *)
(* ====================================================================== *)

Record User : Type := mkUser {
  user_id : string;
  user_email : option string
}.

Record AuthError : Type := mkAuthError {
  auth_message : option string
}.

(** What [req.json()] does: it throws, or yields [null], or yields a value
    whose five members the handler reads. *)
Inductive ParsedBody : Type :=
| InvalidJson
| JsonNull
| JsonObject (b : CreateInvoiceRequest).

Record Request : Type := mkRequest {
  req_method : string;
  req_authorization : option string;
  req_json : ParsedBody
}.

Record Env : Type := mkEnv {
  (** [Deno.env.get] *)
  SUPABASE_URL : option string;
  SUPABASE_SERVICE_ROLE_KEY : option string;
  SQUARE_ACCESS_TOKEN : option string;
  SQUARE_LOCATION_ID : option string;
  (** [crypto.randomUUID()] *)
  randomUUID : string;
  (** [Date.now()] and [new Date()], in milliseconds *)
  date_now : Z;
  (** [new Date(s).getTime()]; [None] is NaN *)
  date_parse : string -> option Z;
  (** [(ms / 1000).toFixed(1)]; [None] is NaN *)
  age_toFixed1 : option Z -> string;
  (** how a stored instant (or [null]) prints in a template literal *)
  show_instant : option Z -> string;
  (** [calculateDueDate()] *)
  due_date : string;
  (** [supabase.auth.getUser(jwt)] *)
  auth_getUser : string -> option User * option AuthError;
  (** [data] of [rpc('is_authorized_invoicer', {p_user_id})], taken as the
      database answers it: [null] on an error, else the boolean *)
  is_authorized_invoicer : string -> option bool;
  (** whether the two counting rpcs fail, leaving [data] null *)
  user_count_fails : bool;
  global_count_fails : bool;
  (** the database's [NOW()] *)
  db_now : Z;
  (** the insert into [processed_orders]: an error code reported by the
      database although the table held no such row when it was read (a
      concurrent insert gives 23505), and the id of the created row *)
  insert_error : option string;
  insert_id : string;
  (** whether inserts into [invoice_audit_log] fail *)
  audit_insert_fails : bool;
  (** the platform's answer to a request *)
  square_fetch : SquareRequest -> FetchOutcome
}.

Inductive Effect : Type :=
| AuditInsert (correlation_id : string) (data : AuditData)
| OrdersInsert (row : OrderInsert)
| OrdersUpdate (id : string) (u : OrderUpdate)
| SquareCall (rq : SquareRequest).

(** The locals the [try] block assigns and the [catch] block reads. *)
Record Locals : Type := mkLocals {
  stepsCompleted : list string;
  squareCustomerId : option string;
  squareOrderId : option string;
  squareInvoiceId : option string;
  invoiceNumber : option string
}.

Record St : Type := mkSt {
  db : Db;
  effects : list Effect;
  locals : Locals
}.

Definition init_locals : Locals := mkLocals [] None None None None.

Definition init_st (d : Db) : St := mkSt d [] init_locals.

(** What a [throw] carries. *)
Inductive Thrown : Type :=
| ErrorObject (message : string)
| PostgrestError (code : string).

Inductive Result (A : Type) : Type :=
| Val (a : A)
| Throw (e : Thrown).
Arguments Val {A} a.
Arguments Throw {A} e.

Definition M (A : Type) : Type := St -> Result A * St.

Definition ret {A} (a : A) : M A := fun st => (Val a, st).

Definition bind {A B} (m : M A) (k : A -> M B) : M B :=
  fun st =>
    match m st with
    | (Val a, st') => k a st'
    | (Throw e, st') => (Throw e, st')
    end.

Definition throw {A} (e : Thrown) : M A := fun st => (Throw e, st).

Definition try_catch {A} (m : M A) (h : Thrown -> M A) : M A :=
  fun st =>
    match m st with
    | (Val a, st') => (Val a, st')
    | (Throw e, st') => h e st'
    end.

Definition get_locals : M Locals := fun st => (Val (locals st), st).

Definition set_locals (f : Locals -> Locals) : M unit :=
  fun st => (Val tt, mkSt (db st) (effects st) (f (locals st))).

Definition emit (e : Effect) : M unit :=
  fun st => (Val tt, mkSt (db st) (effects st ++ [e]) (locals st)).

Definition get_db : M Db := fun st => (Val (db st), st).

Definition set_db (f : Db -> Db) : M unit :=
  fun st => (Val tt, mkSt (f (db st)) (effects st) (locals st)).

Declare Scope handler_scope.
Delimit Scope handler_scope with handler.
Notation "x <- m ;; k" := (bind m (fun x => k))
  (at level 61, m at next level, right associativity) : handler_scope.
Notation "m ;; k" := (bind m (fun _ => k))
  (at level 61, right associativity) : handler_scope.
Local Open Scope handler_scope.

(* ====================================================================== *)
(** ** Storage operations *)
(* ====================================================================== *)

(** [supabase.from('processed_orders').select('*').eq('order_number', n)
    .single()], its [data]. *)
Definition select_order (n : string) : M (option OrderRecord) :=
  d <- get_db ;;
  ret (find_order n (processed_orders d)).

(** [supabase.from('processed_orders').update(u).eq('id', id)]. *)
Definition update_order (env : Env) (id : string) (u : OrderUpdate)
    : M unit :=
  emit (OrdersUpdate id u) ;;
  set_db (fun d =>
    mkDb (update_by_id (db_now env) id u (processed_orders d))
         (invoice_audit_log d)).

(** [supabase.from('processed_orders').insert(i).select('id').single()]:
    the new row's id, or the error's code. The constraint
    [unique_order_number] refuses a second row for an order number. *)
Definition insert_order (env : Env) (i : OrderInsert)
    : M (string + string) :=
  emit (OrdersInsert i) ;;
  d <- get_db ;;
  match find_order (i_order_number i) (processed_orders d) with
  | Some _ => ret (inr "23505")
  | None =>
      match insert_error env with
      | Some c => ret (inr c)
      | None =>
          set_db (fun d =>
            mkDb (processed_orders d
                  ++ [new_row (insert_id env) (db_now env) i])
                 (invoice_audit_log d)) ;;
          ret (inl (insert_id env))
      end
  end.

(** [data] of [rpc('get_user_rate_limit_count', {check_user_id})]. *)
Definition rpc_user_rate_count (env : Env) (uid : string) : M (option Z) :=
  d <- get_db ;;
  ret (if user_count_fails env then None
       else Some (get_user_rate_limit_count (db_now env) uid
                    (invoice_audit_log d))).

(** [data] of [rpc('get_global_rate_limit_count')]. *)
Definition rpc_global_rate_count (env : Env) : M (option Z) :=
  d <- get_db ;;
  ret (if global_count_fails env then None
       else Some (get_global_rate_limit_count (db_now env)
                    (invoice_audit_log d))).

(** [count >= limit] where [count] may be [null], which compares as 0. *)
Definition count_ge (count : option Z) (limit : Z) : bool :=
  match count with
  | Some n => limit <=? n
  | None => limit <=? 0
  end.

(** A count inside a template literal. *)
Definition show_count (count : option Z) : string :=
  match count with
  | Some n => show_Z n
  | None => "null"
  end.

(* ====================================================================== *)
(** ** Audit logging *)
(* ====================================================================== *)

(** The insert is attempted; when it fails the failure is only printed. *)
Definition logAudit (env : Env) (correlationId : string) (data : AuditData)
    : M unit :=
  try_catch
    (emit (AuditInsert correlationId data) ;;
     if audit_insert_fails env
     then throw (ErrorObject "audit insert failed")
     else
       set_db (fun d =>
         mkDb (processed_orders d)
              (invoice_audit_log d
               ++ [mkAuditRow correlationId (db_now env) data])))
    (fun _ => ret tt).

(* ====================================================================== *)
(** ** Square API functions *)
(* ====================================================================== *)

Definition squareRequest (env : Env) (endpoint method : string)
    (body : SquareBody) (accessToken : string)
    (idempotencyKey : option string) : M SquareJson :=
  let rq := mkSquareRequest endpoint method body accessToken
              (if truthy idempotencyKey then idempotencyKey else None) in
  emit (SquareCall rq) ;;
  match square_fetch env rq with
  | FetchThrows msg => throw (ErrorObject msg)
  | FetchJson j => ret j
  end.

(** [result.errors[0]?.detail] inside a template literal. *)
Definition first_detail (errors : list SquareError) : string :=
  match errors with
  | e :: _ => se_detail e
  | [] => "undefined"
  end.

(** The message of the TypeError for reading [prop] of [undefined]. *)
Definition undefined_read (prop : string) : string :=
  "Cannot read properties of undefined (reading '" ++ prop ++ "')".

Definition searchCustomerByEmail (env : Env) (email accessToken : string)
    : M (option SquareCustomer) :=
  result <- squareRequest env "/customers/search" "POST" (SearchBody email)
              accessToken None ;;
  match j_errors result with
  | Some errs =>
      throw (ErrorObject ("Customer search failed: " ++ first_detail errs))
  | None =>
      ret (match j_data_customers result with
           | Some (c :: _) => Some c
           | _ => None
           end)
  end.

Definition createCustomer (env : Env)
    (name email orderNumber accessToken : string)
    : M (option SquareCustomer) :=
  let nameParts := trim_split name in
  let givenName := hd EmptyString nameParts in
  let familyName := join " " (tl nameParts) in
  result <- squareRequest env "/customers" "POST"
              (CustomerBody ("cust-" ++ orderNumber) givenName familyName
                 email)
              accessToken (Some ("cust-" ++ orderNumber)) ;;
  match j_errors result with
  | Some errs =>
      throw (ErrorObject ("Customer creation failed: " ++ first_detail errs))
  | None => ret (j_customer result)
  end.

Definition createOrder (env : Env) (customerId : string)
    (amountCents : jsnum) (orderNumber locationId accessToken : string)
    : M string :=
  result <- squareRequest env "/orders" "POST"
              (OrderBody ("ord-" ++ orderNumber) locationId customerId
                 orderNumber ("Wholesale Order #" ++ orderNumber) "1"
                 amountCents "USD")
              accessToken (Some ("ord-" ++ orderNumber)) ;;
  match j_errors result with
  | Some errs =>
      throw (ErrorObject ("Order creation failed: " ++ first_detail errs))
  | None =>
      match j_order_id result with
      | Some id => ret id
      | None => throw (ErrorObject (undefined_read "id"))
      end
  end.

Definition createInvoice (env : Env)
    (orderId customerId orderNumber locationId accessToken : string)
    : M (string * string) :=
  let dueDate := due_date env in
  result <- squareRequest env "/invoices" "POST"
              (InvoiceBody ("inv-" ++ orderNumber)
                 (mkInvoiceFields orderId locationId customerId "BALANCE"
                    dueDate "NONE" true false true false false "EMAIL"
                    ("Invoice for Order #" ++ orderNumber)))
              accessToken (Some ("inv-" ++ orderNumber)) ;;
  match j_errors result with
  | Some errs =>
      throw (ErrorObject ("Invoice creation failed: " ++ first_detail errs))
  | None =>
      match j_invoice result with
      | Some invoice => ret (inv_id invoice, inv_invoice_number invoice)
      | None => throw (ErrorObject (undefined_read "id"))
      end
  end.

Definition publishInvoice (env : Env)
    (invoiceId orderNumber accessToken : string) : M unit :=
  getResult <- squareRequest env ("/invoices/" ++ invoiceId) "GET" NullBody
                 accessToken None ;;
  match j_errors getResult with
  | Some errs =>
      throw (ErrorObject ("Failed to get invoice: " ++ first_detail errs))
  | None =>
      match j_invoice getResult with
      | None => throw (ErrorObject (undefined_read "version"))
      | Some invoice =>
          let version := inv_version invoice in
          result <- squareRequest env
                      ("/invoices/" ++ invoiceId ++ "/publish") "POST"
                      (PublishBody ("pub-" ++ orderNumber) version)
                      accessToken (Some ("pub-" ++ orderNumber)) ;;
          match j_errors result with
          | Some errs =>
              throw (ErrorObject
                       ("Invoice publish failed: " ++ first_detail errs))
          | None => ret tt
          end
      end
  end.

(* ====================================================================== *)
(** ** Main handler *)
(* ====================================================================== *)

Definition push_step (s : string) : M unit :=
  set_locals (fun l =>
    mkLocals (stepsCompleted l ++ [s]) (squareCustomerId l)
      (squareOrderId l) (squareInvoiceId l) (invoiceNumber l)).

Definition set_squareCustomerId (v : string) : M unit :=
  set_locals (fun l =>
    mkLocals (stepsCompleted l) (Some v) (squareOrderId l)
      (squareInvoiceId l) (invoiceNumber l)).

Definition set_squareOrderId (v : string) : M unit :=
  set_locals (fun l =>
    mkLocals (stepsCompleted l) (squareCustomerId l) (Some v)
      (squareInvoiceId l) (invoiceNumber l)).

Definition set_invoice (id number : string) : M unit :=
  set_locals (fun l =>
    mkLocals (stepsCompleted l) (squareCustomerId l) (squareOrderId l)
      (Some id) (Some number)).

Definition str (s : option string) : string :=
  match s with Some v => v | None => EmptyString end.

Definition num (n : option jsnum) : jsnum :=
  match n with Some v => v | None => JNaN end.

(** The condition of the required-fields check. *)
Definition missing_required (b : CreateInvoiceRequest) : bool :=
  negb (truthy (order_number b)) || negb (truthy (customer_name b))
  || negb (truthy (customer_email b))
  || match amount_cents b with None => true | Some _ => false end
  || negb (truthy (request_timestamp b)).

Definition missingFields (b : CreateInvoiceRequest) : list string :=
  (if truthy (order_number b) then [] else ["order_number"])
  ++ (if truthy (customer_name b) then [] else ["customer_name"])
  ++ (if truthy (customer_email b) then [] else ["customer_email"])
  ++ (match amount_cents b with None => ["amount_cents"] | Some _ => [] end)
  ++ (if truthy (request_timestamp b) then [] else ["request_timestamp"]).

(** The condition of the amount check. *)
Definition invalid_amount (amount : jsnum) : bool :=
  negb (isInteger amount) || le amount (of_Z 0)
  || gt amount (of_Z MAX_AMOUNT_CENTS).

(** [ageSeconds]: the quotient is kept exact. Both operands are integers
    of milliseconds, and rounding the quotient to a double moves it across
    neither 120 nor -30. *)
Definition ageSeconds (now : Z) (requestTime : option Z) : jsnum :=
  match requestTime with
  | Some t => JFin (Qmake (now - t) 1000)
  | None => JNaN
  end.

(** The condition of the replay check. *)
Definition replay_rejected (now : Z) (requestTime : option Z) : bool :=
  match requestTime with None => true | Some _ => false end
  || gt (ageSeconds now requestTime) (of_Z REPLAY_WINDOW_SECONDS)
  || lt (ageSeconds now requestTime) (of_Z (-30)).

(** The error code the [catch] block derives from [stepsCompleted]. *)
Definition classify (steps : list string) : ErrorCode :=
  if (Z.of_nat (List.length steps) =? 0) then SQUARE_CUSTOMER_ERROR
  else if negb (existsb (String.eqb "order_created") steps)
  then SQUARE_ORDER_ERROR
  else if negb (existsb (String.eqb "invoice_created") steps)
  then SQUARE_INVOICE_ERROR
  else if negb (existsb (String.eqb "invoice_published") steps)
  then SQUARE_PUBLISH_ERROR
  else SQUARE_API_ERROR.

Definition errorMessage_of (error : Thrown) : string :=
  match error with
  | ErrorObject m => m
  | PostgrestError _ => "Unknown error"
  end.

Section Handler.

Variable env : Env.

(** The [try] block of section 9. *)
Definition saga_try (user : User) (correlationId idempotencyKey : string)
    (order_number customer_name customer_email : string)
    (amount_cents : jsnum) (request_timestamp : string)
    (processedOrderId squareAccessToken squareLocationId : string)
    : M Response :=
  existingCustomer <- searchCustomerByEmail env customer_email
                        squareAccessToken ;;
  push_step "customer_search" ;;
  customerId <-
    match existingCustomer with
    | Some c =>
        set_squareCustomerId (sc_id c) ;;
        push_step "customer_found" ;;
        ret (sc_id c)
    | None =>
        newCustomer <- createCustomer env customer_name customer_email
                         order_number squareAccessToken ;;
        match newCustomer with
        | None => throw (ErrorObject (undefined_read "id"))
        | Some c =>
            set_squareCustomerId (sc_id c) ;;
            push_step "customer_created" ;;
            ret (sc_id c)
        end
    end ;;
  l <- get_locals ;;
  update_order env processedOrderId
    (mkUpdate None None (squareCustomerId l) None None
       (Some (stepsCompleted l)) None None) ;;
  orderId <- createOrder env customerId amount_cents order_number
               squareLocationId squareAccessToken ;;
  set_squareOrderId orderId ;;
  push_step "order_created" ;;
  l <- get_locals ;;
  update_order env processedOrderId
    (mkUpdate None None None (squareOrderId l) None
       (Some (stepsCompleted l)) None None) ;;
  invoiceResult <- createInvoice env orderId customerId order_number
                     squareLocationId squareAccessToken ;;
  set_invoice (fst invoiceResult) (snd invoiceResult) ;;
  push_step "invoice_created" ;;
  l <- get_locals ;;
  update_order env processedOrderId
    (mkUpdate None None None None (squareInvoiceId l)
       (Some (stepsCompleted l)) None None) ;;
  publishInvoice env (fst invoiceResult) order_number squareAccessToken ;;
  push_step "invoice_published" ;;
  l <- get_locals ;;
  update_order env processedOrderId
    (mkUpdate (Some completed) None None None None
       (Some (stepsCompleted l)) (Some (date_now env)) None) ;;
  logAudit env correlationId
    (mkAudit (Some (user_id user)) (user_email user) (Some order_number)
       (Some customer_name) (Some customer_email) (Some amount_cents)
       (Some idempotencyKey) (squareCustomerId l) (squareOrderId l)
       (squareInvoiceId l) SUCCESS None None (Some request_timestamp)
       (Some (stepsCompleted l))) ;;
  ret (jsonResponse
         (SuccessBody correlationId (squareCustomerId l) (squareOrderId l)
            (squareInvoiceId l) (invoiceNumber l))
         200 (Some correlationId)).

(** The [catch] block of section 9. *)
Definition saga_catch (user : User) (correlationId idempotencyKey : string)
    (order_number customer_name customer_email : string)
    (amount_cents : jsnum) (request_timestamp : string)
    (processedOrderId : string) (error : Thrown) : M Response :=
  l <- get_locals ;;
  let errorCode := classify (stepsCompleted l) in
  let errorMessage := errorMessage_of error in
  update_order env processedOrderId
    (mkUpdate (Some failed) None (squareCustomerId l) (squareOrderId l)
       (squareInvoiceId l) (Some (stepsCompleted l)) None
       (Some errorMessage)) ;;
  logAudit env correlationId
    (mkAudit (Some (user_id user)) (user_email user) (Some order_number)
       (Some customer_name) (Some customer_email) (Some amount_cents)
       (Some idempotencyKey) (squareCustomerId l) (squareOrderId l)
       (squareInvoiceId l) FAILURE (Some errorCode) (Some errorMessage)
       (Some request_timestamp) (Some (stepsCompleted l))) ;;
  ret (errorResponse errorCode
         ("Invoice creation did not complete. Click 'Try Again' to retry safely. Error: "
          ++ errorMessage)
         500 correlationId None).

(** Sections 7 to 9: the duplicate check, the ledger record and the
    orchestration. *)
Definition process_order (user : User) (correlationId : string)
    (order_number customer_name customer_email : string)
    (amount_cents : jsnum) (request_timestamp : string)
    (squareAccessToken squareLocationId : string) : M Response :=
  existingOrder <- select_order order_number ;;
  match existingOrder with
  | Some (mkOrder _ _ _ completed _ _ existing_invoice_id _ _ _ _ _ _ _
            existing_completed_at) =>
      logAudit env correlationId
        (mkAudit (Some (user_id user)) (user_email user)
           (Some order_number) None None None None None None
           existing_invoice_id DUPLICATE_BLOCKED (Some DUPLICATE_ORDER)
           (Some ("Order already processed on "
                  ++ show_instant env existing_completed_at))
           None None) ;;
      ret (errorResponse DUPLICATE_ORDER
             ("Invoice already sent for order #" ++ order_number
              ++ ". View in Square Dashboard.")
             409 correlationId None)
  | _ =>
      let idempotencyKey := "cultivera-" ++ order_number in
      set_locals (fun _ => init_locals) ;;
      record <-
        match existingOrder with
        | Some existing =>
            update_order env (po_id existing)
              (mkUpdate (Some processing) (Some (date_now env)) None None
                 None None None None) ;;
            ret (inr (po_id existing))
        | None =>
            inserted <- insert_order env
                          (mkInsert order_number (user_id user) processing
                             amount_cents customer_name customer_email
                             idempotencyKey) ;;
            match inserted with
            | inr code =>
                if (code =? "23505")%string
                then
                  logAudit env correlationId
                    (mkAudit (Some (user_id user)) (user_email user)
                       (Some order_number) None None None None None None
                       None DUPLICATE_BLOCKED (Some DUPLICATE_ORDER)
                       (Some "Order being processed by another request")
                       None None) ;;
                  ret (inl (errorResponse DUPLICATE_ORDER
                              "This order is already being processed. Please wait a moment."
                              409 correlationId None))
                else throw (PostgrestError code)
            | inl newId => ret (inr newId)
            end
        end ;;
      match record with
      | inl response => ret response
      | inr processedOrderId =>
          try_catch
            (saga_try user correlationId idempotencyKey order_number
               customer_name customer_email amount_cents
               request_timestamp processedOrderId squareAccessToken
               squareLocationId)
            (saga_catch user correlationId idempotencyKey order_number
               customer_name customer_email amount_cents
               request_timestamp processedOrderId)
      end
  end.

(** Sections 3 to 6: the body, validation, replay protection and rate
    limiting. *)
Definition validate_and_process (user : User) (correlationId : string)
    (req : Request) (squareAccessToken squareLocationId : string)
    : M Response :=
  let uid := Some (user_id user) in
  let uemail := user_email user in
  match req_json req with
  | InvalidJson =>
      logAudit env correlationId
        (mkAudit uid uemail None None None None None None None None
           VALIDATION_FAILED (Some VALIDATION_MISSING_FIELD)
           (Some "Invalid JSON body") None None) ;;
      ret (errorResponse VALIDATION_MISSING_FIELD "Invalid request body"
             400 correlationId None)
  | JsonNull =>
      throw (ErrorObject
               "Cannot destructure property 'order_number' of 'body' as it is null.")
  | JsonObject body =>
      if missing_required body
      then
        logAudit env correlationId
          (mkAudit uid uemail (order_number body) None None None None None
             None None VALIDATION_FAILED (Some VALIDATION_MISSING_FIELD)
             (Some ("Missing required fields: "
                    ++ join ", " (missingFields body)))
             None None) ;;
        ret (errorResponse VALIDATION_MISSING_FIELD
               ("Missing required fields: "
                ++ join ", " (missingFields body))
               400 correlationId None)
      else
      let order_number := str (order_number body) in
      let customer_name := str (customer_name body) in
      let customer_email := str (customer_email body) in
      let amount_cents := num (amount_cents body) in
      let request_timestamp := str (request_timestamp body) in
      if negb (isValidOrderNumber order_number)
      then
        logAudit env correlationId
          (mkAudit uid uemail (Some order_number) None None None None None
             None None VALIDATION_FAILED (Some VALIDATION_INVALID_ORDER)
             (Some "Invalid order number format") None None) ;;
        ret (errorResponse VALIDATION_INVALID_ORDER
               "Invalid order number format" 400 correlationId None)
      else
      if negb (isValidEmail customer_email)
      then
        logAudit env correlationId
          (mkAudit uid uemail (Some order_number) None
             (Some customer_email) None None None None None
             VALIDATION_FAILED (Some VALIDATION_INVALID_EMAIL)
             (Some "Invalid email format") None None) ;;
        ret (errorResponse VALIDATION_INVALID_EMAIL
               "Invalid customer email format" 400 correlationId None)
      else
      if invalid_amount amount_cents
      then
        logAudit env correlationId
          (mkAudit uid uemail (Some order_number) None None
             (Some amount_cents) None None None None VALIDATION_FAILED
             (Some VALIDATION_INVALID_AMOUNT)
             (Some ("Amount must be a positive integer not exceeding "
                    ++ show_Z MAX_AMOUNT_CENTS ++ " cents"))
             None None) ;;
        ret (errorResponse VALIDATION_INVALID_AMOUNT
               "Amount appears invalid (must be positive and not exceed $50,000)"
               400 correlationId None)
      else
      let requestTime := date_parse env request_timestamp in
      let now := date_now env in
      if replay_rejected now requestTime
      then
        logAudit env correlationId
          (mkAudit uid uemail (Some order_number) None None None None None
             None None R_REPLAY_REJECTED (Some REPLAY_REJECTED)
             (Some ("Request timestamp outside acceptable window ("
                    ++ age_toFixed1 env
                         (option_map (fun t => now - t) requestTime)
                    ++ "s old)"))
             (Some request_timestamp) None) ;;
        ret (errorResponse REPLAY_REJECTED
               "Request expired. Please try again." 400 correlationId None)
      else
      userRateCount <- rpc_user_rate_count env (user_id user) ;;
      if count_ge userRateCount USER_RATE_LIMIT
      then
        logAudit env correlationId
          (mkAudit uid uemail (Some order_number) None None None None None
             None None RATE_LIMITED (Some RATE_LIMITED_USER)
             (Some ("User rate limit exceeded: "
                    ++ show_count userRateCount
                    ++ "/" ++ show_Z USER_RATE_LIMIT ++ " per hour"))
             None None) ;;
        ret (errorResponse RATE_LIMITED_USER
               "Too many requests. Please wait before trying again."
               429 correlationId (Some 3600))
      else
      globalRateCount <- rpc_global_rate_count env ;;
      if count_ge globalRateCount GLOBAL_RATE_LIMIT
      then
        logAudit env correlationId
          (mkAudit uid uemail (Some order_number) None None None None None
             None None RATE_LIMITED (Some RATE_LIMITED_GLOBAL)
             (Some ("Global rate limit exceeded: "
                    ++ show_count globalRateCount
                    ++ "/" ++ show_Z GLOBAL_RATE_LIMIT ++ " per hour"))
             None None) ;;
        ret (errorResponse RATE_LIMITED_GLOBAL
               "System is busy. Please wait a few minutes before trying again."
               429 correlationId (Some 300))
      else
      process_order user correlationId order_number customer_name
        customer_email amount_cents request_timestamp squareAccessToken
        squareLocationId
  end.

Definition expired_code (authError : option AuthError) : ErrorCode :=
  match authError with
  | Some (mkAuthError (Some m)) =>
      if includes m "expired" then AUTH_EXPIRED else AUTH_INVALID
  | _ => AUTH_INVALID
  end.

(** The function given to [Deno.serve]. *)
Definition handler (req : Request) : M Response :=
  if (req_method req =? "OPTIONS")%string
  then ret (mkResponse 200 None NoBody)
  else
  let correlationId := randomUUID env in
  if negb (req_method req =? "POST")%string
  then ret (errorResponse INTERNAL_ERROR "Method not allowed" 405
              correlationId None)
  else
  if negb (truthy (SUPABASE_URL env))
     || negb (truthy (SUPABASE_SERVICE_ROLE_KEY env))
     || negb (truthy (SQUARE_ACCESS_TOKEN env))
     || negb (truthy (SQUARE_LOCATION_ID env))
  then ret (errorResponse INTERNAL_ERROR "Server configuration error" 500
              correlationId None)
  else
  let squareAccessToken := str (SQUARE_ACCESS_TOKEN env) in
  let squareLocationId := str (SQUARE_LOCATION_ID env) in
  let authHeader := req_authorization req in
  if negb (truthy authHeader) || negb (startsWith (str authHeader) "Bearer ")
  then
    logAudit env correlationId
      (mkAudit None None None None None None None None None None
         R_AUTH_MISSING (Some AUTH_MISSING)
         (Some "No authorization header provided") None None) ;;
    ret (errorResponse AUTH_MISSING "Authentication required" 401
           correlationId None)
  else
  let jwt := remove_first (str authHeader) "Bearer " in
  match auth_getUser env jwt with
  | (Some user, None) =>
      match is_authorized_invoicer env (user_id user) with
      | Some true =>
          validate_and_process user correlationId req squareAccessToken
            squareLocationId
      | _ =>
          logAudit env correlationId
            (mkAudit (Some (user_id user)) (user_email user) None None
               None None None None None None R_UNAUTHORIZED
               (Some UNAUTHORIZED)
               (Some "User is not authorized to create invoices")
               None None) ;;
          ret (errorResponse UNAUTHORIZED
                 "Your account is not authorized to create invoices. Contact your admin for access."
                 403 correlationId None)
      end
  | (_, authError) =>
      logAudit env correlationId
        (mkAudit None None None None None None None None None None
           R_AUTH_MISSING (Some (expired_code authError))
           (Some (match authError with
                  | Some (mkAuthError (Some m)) =>
                      if (m =? EmptyString)%string
                      then "Invalid authentication token" else m
                  | _ => "Invalid authentication token"
                  end))
           None None) ;;
      let code := expired_code authError in
      let message :=
        match code with
        | AUTH_EXPIRED => "Session expired. Please sign in again."
        | _ => "Invalid authentication"
        end in
      ret (errorResponse code message 401 correlationId None)
  end.

End Handler.

(** One invocation against the tables [d]: the response or the uncaught
    exception, and the final state. *)
Definition run (env : Env) (req : Request) (d : Db) : Result Response * St :=
  handler env req (init_st d).

(* ====================================================================== *)
(** ** Observations on a run *)
(* ====================================================================== *)

Definition is_audit (e : Effect) : bool :=
  match e with AuditInsert _ _ => true | _ => false end.

Definition is_square_call (e : Effect) : bool :=
  match e with SquareCall _ => true | _ => false end.

Definition is_ledger_write (e : Effect) : bool :=
  match e with OrdersInsert _ | OrdersUpdate _ _ => true | _ => false end.

Definition audit_count (es : list Effect) : nat :=
  List.length (filter is_audit es).

Definition square_calls (es : list Effect) : list Effect :=
  filter is_square_call es.

Definition ledger_writes (es : list Effect) : list Effect :=
  filter is_ledger_write es.

(** The values written to [steps_completed], in order. *)
Fixpoint steps_writes (es : list Effect) : list (list string) :=
  match es with
  | [] => []
  | OrdersUpdate _ u :: es' =>
      match u_steps_completed u with
      | Some s => s :: steps_writes es'
      | None => steps_writes es'
      end
  | _ :: es' => steps_writes es'
  end.

Definition response_code (r : Response) : option ErrorCode :=
  match payload r with
  | ErrorBody _ c _ _ => Some c
  | _ => None
  end.

Definition response_retry_after (r : Response) : option Z :=
  match payload r with
  | ErrorBody _ _ _ ra => ra
  | _ => None
  end.

(** The requests sent to the platform, in order. *)
Fixpoint square_requests (es : list Effect) : list SquareRequest :=
  match es with
  | [] => []
  | SquareCall rq :: es' => rq :: square_requests es'
  | _ :: es' => square_requests es'
  end.

(** The state after [logAudit]. *)
Definition audit_st (env : Env) (correlationId : string) (data : AuditData)
    (st : St) : St :=
  mkSt (if audit_insert_fails env then db st
        else mkDb (processed_orders (db st))
               (invoice_audit_log (db st)
                ++ [mkAuditRow correlationId (db_now env) data]))
       (effects st ++ [AuditInsert correlationId data])
       (locals st).

(** The [try] and [catch] blocks together. *)
Definition saga (env : Env) (user : User)
    (correlationId idempotencyKey : string)
    (order_number customer_name customer_email : string)
    (amount_cents : jsnum) (request_timestamp : string)
    (processedOrderId squareAccessToken squareLocationId : string)
    : M Response :=
  try_catch
    (saga_try env user correlationId idempotencyKey order_number
       customer_name customer_email amount_cents request_timestamp
       processedOrderId squareAccessToken squareLocationId)
    (saga_catch env user correlationId idempotencyKey order_number
       customer_name customer_email amount_cents request_timestamp
       processedOrderId).

(* ====================================================================== *)
(** ** The gates a request passes before the ledger is consulted *)
(* ====================================================================== *)

Definition config_missing (env : Env) : bool :=
  negb (truthy (SUPABASE_URL env))
  || negb (truthy (SUPABASE_SERVICE_ROLE_KEY env))
  || negb (truthy (SQUARE_ACCESS_TOKEN env))
  || negb (truthy (SQUARE_LOCATION_ID env)).

Definition bearer_missing (req : Request) : bool :=
  negb (truthy (req_authorization req))
  || negb (startsWith (str (req_authorization req)) "Bearer ").

Definition jwt_of (req : Request) : string :=
  remove_first (str (req_authorization req)) "Bearer ".

(** A POST that the server is configured for and that carries a bearer
    credential. *)
Definition presented (env : Env) (req : Request) : Prop :=
  req_method req = "POST"
  /\ config_missing env = false
  /\ bearer_missing req = false.

(** The caller is identified as [user] and holds the invoicer role. *)
Definition authorized (env : Env) (req : Request) (user : User) : Prop :=
  presented env req
  /\ auth_getUser env (jwt_of req) = (Some user, None)
  /\ is_authorized_invoicer env (user_id user) = Some true.

(** The checks that precede the amount check. *)
Definition well_formed (body : CreateInvoiceRequest) : Prop :=
  missing_required body = false
  /\ isValidOrderNumber (str (order_number body)) = true
  /\ isValidEmail (str (customer_email body)) = true.

Definition valid (body : CreateInvoiceRequest) : Prop :=
  well_formed body /\ invalid_amount (num (amount_cents body)) = false.

Definition fresh (env : Env) (body : CreateInvoiceRequest) : Prop :=
  replay_rejected (date_now env)
    (date_parse env (str (request_timestamp body))) = false.

Definition user_count (env : Env) (user : User) (d : Db) : option Z :=
  if user_count_fails env then None
  else Some (get_user_rate_limit_count (db_now env) (user_id user)
               (invoice_audit_log d)).

Definition global_count (env : Env) (d : Db) : option Z :=
  if global_count_fails env then None
  else Some (get_global_rate_limit_count (db_now env)
               (invoice_audit_log d)).

Definition under_limits (env : Env) (user : User) (d : Db) : Prop :=
  count_ge (user_count env user d) USER_RATE_LIMIT = false
  /\ count_ge (global_count env d) GLOBAL_RATE_LIMIT = false.

(** The request gets as far as the duplicate check. *)
Definition reaches_ledger (env : Env) (req : Request) (d : Db) (user : User)
    (body : CreateInvoiceRequest) : Prop :=
  authorized env req user
  /\ req_json req = JsonObject body
  /\ valid body
  /\ fresh env body
  /\ under_limits env user d.

(** The request gets as far as the orchestration, for the ledger row
    [processedOrderId]. *)
Definition reaches_saga (env : Env) (req : Request) (d : Db) (user : User)
    (body : CreateInvoiceRequest) (processedOrderId : string) : Prop :=
  reaches_ledger env req d user body
  /\ match find_order (str (order_number body)) (processed_orders d) with
     | Some existing =>
         po_status existing <> completed /\ processedOrderId = po_id existing
     | None =>
         insert_error env = None /\ processedOrderId = insert_id env
     end.

(* ====================================================================== *)
(** ** Notions used by the statements *)
(* ====================================================================== *)

(** The update that re-enters an existing row. *)
Definition reset_update (env : Env) : OrderUpdate :=
  mkUpdate (Some processing) (Some (date_now env)) None None None None None
    None.

(** The row inserted for a first request. *)
Definition fresh_insert (user : User) (on cn ce : string) (amt : jsnum)
    : OrderInsert :=
  mkInsert on (user_id user) processing amt cn ce ("cultivera-" ++ on).

(** The state in which the orchestration starts: one ledger write has
    been issued and the locals are fresh. *)
Definition emit_st (e : Effect) (d : Db) (st : St) : St :=
  mkSt d (effects st ++ [e]) init_locals.

(** A create or publish request carries, in its body and in its header,
    the key made of its prefix and the order number; the search and the
    fetch of an invoice carry none. *)
Definition keyed (order_number : string) (rq : SquareRequest) : Prop :=
  match sq_body rq with
  | CustomerBody k _ _ _ =>
      k = "cust-" ++ order_number /\ sq_idempotency_header rq = Some k
  | OrderBody k _ _ _ _ _ _ _ =>
      k = "ord-" ++ order_number /\ sq_idempotency_header rq = Some k
  | InvoiceBody k _ =>
      k = "inv-" ++ order_number /\ sq_idempotency_header rq = Some k
  | PublishBody k _ =>
      k = "pub-" ++ order_number /\ sq_idempotency_header rq = Some k
  | SearchBody _ | NullBody => sq_idempotency_header rq = None
  end.

(** Each written value extends the one written before it, starting from
    [prev]. *)
Fixpoint append_only (prev : list string) (ws : list (list string)) : Prop :=
  match ws with
  | [] => True
  | w :: ws' => (exists added, w = (prev ++ added)%list) /\ append_only w ws'
  end.

(** The endpoints of a complete orchestration. *)
Definition saga_endpoints (customer_existed : bool) (invoiceId : string)
    : list string :=
  ["/customers/search"]
  ++ (if customer_existed then [] else ["/customers"])
  ++ ["/orders"; "/invoices"; "/invoices/" ++ invoiceId;
      "/invoices/" ++ invoiceId ++ "/publish"].

(** The cascade of the [catch] block, read as the claim words it. *)
Definition furthest_missing (steps : list string) (code : ErrorCode) : Prop :=
  (steps = [] /\ code = SQUARE_CUSTOMER_ERROR)
  \/ (steps <> [] /\ ~ In "order_created" steps
      /\ code = SQUARE_ORDER_ERROR)
  \/ (In "order_created" steps /\ ~ In "invoice_created" steps
      /\ code = SQUARE_INVOICE_ERROR)
  \/ (In "order_created" steps /\ In "invoice_created" steps
      /\ ~ In "invoice_published" steps /\ code = SQUARE_PUBLISH_ERROR).

(** The label under which the platform function that sends [rq] reports
    the platform's errors. *)
Definition label_of (rq : SquareRequest) : string :=
  match sq_body rq with
  | SearchBody _ => "Customer search failed: "
  | CustomerBody _ _ _ _ => "Customer creation failed: "
  | OrderBody _ _ _ _ _ _ _ _ => "Order creation failed: "
  | InvoiceBody _ _ => "Invoice creation failed: "
  | NullBody => "Failed to get invoice: "
  | PublishBody _ _ => "Invoice publish failed: "
  end.

(** The member of the answer to [rq] from which the handler reads, and
    what it reads from it: the created customer, order or invoice and its
    id, or the invoice and its version; nothing for the search and the
    publication. *)
Definition member_of (rq : SquareRequest) (j : SquareJson)
    : option (bool * string) :=
  match sq_body rq with
  | CustomerBody _ _ _ _ =>
      Some (match j_customer j with Some _ => true | None => false end, "id")
  | OrderBody _ _ _ _ _ _ _ _ =>
      Some (match j_order_id j with Some _ => true | None => false end, "id")
  | InvoiceBody _ _ =>
      Some (match j_invoice j with Some _ => true | None => false end, "id")
  | NullBody =>
      Some (match j_invoice j with Some _ => true | None => false end,
            "version")
  | SearchBody _ | PublishBody _ _ => None
  end.

(** How the thrown error relates to the platform's answer to [rq]: when
    the transport failed the error is its own; when the answer reports
    errors the message is the label of the call followed by the first
    detail; when the answer lacks the member the handler reads from, the
    message is that of the failed read. *)
Definition failure_of (env : Env) (rq : SquareRequest) (error : Thrown)
    : Prop :=
  exists msg, error = ErrorObject msg /\
    match square_fetch env rq with
    | FetchThrows m => msg = m
    | FetchJson j =>
        match j_errors j with
        | Some errs => msg = label_of rq ++ first_detail errs
        | None =>
            forall prop,
              member_of rq j = Some (false, prop) ->
              msg = undefined_read prop
        end
    end.

(** The ledger holds a row for the order number, under the id [pid]. *)
Definition holds_row (order_number pid : string) (rows : list OrderRecord)
    : Prop :=
  exists r, find_order order_number rows = Some r /\ po_id r = pid.

(** The last request sent to the platform. *)
Definition last_request (es : list Effect) : option SquareRequest :=
  last (map Some (square_requests es)) None.

(** The last effect of a run. *)
Definition last_effect (es : list Effect) : option Effect :=
  last (map Some es) None.

(** The update and the audit entry of the [catch] block. *)
Definition failure_update (l : Locals) (errorMessage : string)
    : OrderUpdate :=
  mkUpdate (Some failed) None (squareCustomerId l) (squareOrderId l)
    (squareInvoiceId l) (Some (stepsCompleted l)) None (Some errorMessage).

Definition failure_audit (user : User) (idempotencyKey : string)
    (order_number customer_name customer_email : string)
    (amount_cents : jsnum) (request_timestamp : string) (l : Locals)
    (errorMessage : string) : AuditData :=
  mkAudit (Some (user_id user)) (user_email user) (Some order_number)
    (Some customer_name) (Some customer_email) (Some amount_cents)
    (Some idempotencyKey) (squareCustomerId l) (squareOrderId l)
    (squareInvoiceId l) FAILURE (Some (classify (stepsCompleted l)))
    (Some errorMessage) (Some request_timestamp) (Some (stepsCompleted l)).

Definition retry_message (errorMessage : string) : string :=
  "Invoice creation did not complete. Click 'Try Again' to retry safely. Error: "
  ++ errorMessage.

(** The platform answered [rq] with a body that reports no error. *)
Definition answered (env : Env) (rq : SquareRequest) : Prop :=
  exists j, square_fetch env rq = FetchJson j /\ j_errors j = None.

Definition saga_codes : list ErrorCode :=
  [SQUARE_CUSTOMER_ERROR; SQUARE_ORDER_ERROR; SQUARE_INVOICE_ERROR;
   SQUARE_PUBLISH_ERROR].

(** What every run of the orchestration leaves in the sequence of
    effects [es] it adds, and what it answers. *)
Definition saga_trace (env : Env) (on ce : string) (res : Result Response)
    (es : list Effect) : Prop :=
  audit_count es = 1%nat
  /\ (exists cid data, last_effect es = Some (AuditInsert cid data))
  /\ (exists rq rest, es = SquareCall rq :: rest
        /\ sq_endpoint rq = "/customers/search"
        /\ sq_body rq = SearchBody ce)
  /\ Forall (keyed on) (square_requests es)
  /\ append_only [] (steps_writes es)
  /\ exists resp, res = Val resp
       /\ ((status resp = 200 /\ response_code resp = None
            /\ Forall (answered env) (square_requests es)
            /\ exists existed invoiceId,
                 map sq_endpoint (square_requests es)
                 = saga_endpoints existed invoiceId)
           \/ (status resp = 500
               /\ exists c, response_code resp = Some c /\ In c saga_codes)).

(** The codes that the ledger and the orchestration can answer with. *)
Definition late_codes : list (option ErrorCode) :=
  [None; Some DUPLICATE_ORDER; Some SQUARE_CUSTOMER_ERROR;
   Some SQUARE_ORDER_ERROR; Some SQUARE_INVOICE_ERROR;
   Some SQUARE_PUBLISH_ERROR].

(** A rejection by one of the gates of sections 4 to 6: the response, and
    the audit entry that is the run's only effect. *)
Definition rejection (env : Env) (req : Request) (d : Db) (code : ErrorCode)
    (http : Z) (retry : option Z) (result : AuditResult) : Prop :=
  exists message data,
    run env req d
    = (Val (errorResponse code message http (randomUUID env) retry),
       audit_st env (randomUUID env) data (init_st d))
    /\ a_result data = result
    /\ a_error_code data = Some code.

(** The code of the first validation rule that the body breaks, in the
    order in which the handler checks them. *)
Definition validation_code (body : CreateInvoiceRequest) : option ErrorCode :=
  if missing_required body then Some VALIDATION_MISSING_FIELD
  else if negb (isValidOrderNumber (str (order_number body)))
  then Some VALIDATION_INVALID_ORDER
  else if negb (isValidEmail (str (customer_email body)))
  then Some VALIDATION_INVALID_EMAIL
  else if invalid_amount (num (amount_cents body))
  then Some VALIDATION_INVALID_AMOUNT
  else None.

(** The same deployment, with the audit table failing or not. *)
Definition with_audit_insert_fails (b : bool) (env : Env) : Env :=
  mkEnv (SUPABASE_URL env) (SUPABASE_SERVICE_ROLE_KEY env)
    (SQUARE_ACCESS_TOKEN env) (SQUARE_LOCATION_ID env) (randomUUID env)
    (date_now env) (date_parse env) (age_toFixed1 env) (show_instant env)
    (due_date env) (auth_getUser env) (is_authorized_invoicer env)
    (user_count_fails env) (global_count_fails env) (db_now env)
    (insert_error env) (insert_id env) b (square_fetch env).

(** The amount has the integer value [z]. *)
Definition integer_value (a : jsnum) (z : Z) : Prop :=
  exists q, a = JFin q /\ (q == inject_Z z)%Q.

(** The age of the request in seconds lies in the replay window. *)
Definition in_window (now : Z) (requestTime : option Z) : Prop :=
  exists t, requestTime = Some t
    /\ (inject_Z (-30) <= Qmake (now - t) 1000)%Q
    /\ (Qmake (now - t) 1000 <= inject_Z 120)%Q.

(* ====================================================================== *)
(** ** A sample deployment, for tests *)
(* ====================================================================== *)

Module Sample.

Definition user : User := mkUser "user-1" (Some "invoicer@example.org").

Definition stamp : string := "2023-11-14T22:13:20.000Z".

Definition parse (s : string) : option Z :=
  if (s =? stamp)%string then Some 1700000000000 else None.

Definition getUser (jwt : string) : option User * option AuthError :=
  if (jwt =? "jwt-1")%string then (Some user, None)
  else if (jwt =? "jwt-old")%string
  then (None, Some (mkAuthError (Some "token is expired")))
  else (None, Some (mkAuthError (Some "invalid JWT"))).

Definition reply (errors : option (list SquareError))
    (customers : option (list SquareCustomer))
    (customer : option SquareCustomer) (order : option string)
    (invoice : option SquareInvoice) : FetchOutcome :=
  FetchJson (mkSquareJson errors customers customer order invoice).

(** A platform on which every call succeeds and no customer exists. *)
Definition fetch_ok (rq : SquareRequest) : FetchOutcome :=
  match sq_body rq with
  | SearchBody _ => reply None (Some []) None None None
  | CustomerBody _ given family email =>
      reply None None
        (Some (mkSquareCustomer "CUST-1" (Some email) (Some given)
                 (Some family)))
        None None
  | OrderBody _ _ _ _ _ _ _ _ => reply None None None (Some "ORD-1") None
  | InvoiceBody _ _ =>
      reply None None None None (Some (mkSquareInvoice "INV-1" "000042" 0))
  | NullBody =>
      reply None None None None (Some (mkSquareInvoice "INV-1" "000042" 0))
  | PublishBody _ _ =>
      reply None None None None (Some (mkSquareInvoice "INV-1" "000042" 1))
  end.

(** A platform that refuses the order. *)
Definition fetch_order_refused (rq : SquareRequest) : FetchOutcome :=
  match sq_body rq with
  | OrderBody _ _ _ _ _ _ _ _ =>
      reply (Some [mkSquareError "INVALID_REQUEST_ERROR" "BAD_REQUEST"
                     "Location is not active"])
        None None None None
  | _ => fetch_ok rq
  end.

(** A platform that cannot be reached. *)
Definition fetch_down (rq : SquareRequest) : FetchOutcome :=
  FetchThrows "error sending request".

Definition env_with (now : Z) (insert_error : option string)
    (audit_fails : bool) (fetch : SquareRequest -> FetchOutcome) : Env :=
  mkEnv (Some "https://project.supabase.co") (Some "service-role-key")
    (Some "square-token") (Some "LOC-1") "corr-1" now parse
    (fun _ => "0.0") (fun _ => "2023-11-14T22:13:21+00:00") "2023-12-14"
    getUser (fun uid => Some (uid =? "user-1")%string) false false now
    insert_error "row-1" audit_fails fetch.

Definition env : Env := env_with 1700000000000 None false fetch_ok.

Definition body_with (order : string) (amount : jsnum)
    : CreateInvoiceRequest :=
  mkBody (Some order) (Some "Jane Doe") (Some "jane@example.org")
    (Some amount) (Some stamp).

Definition body : CreateInvoiceRequest := body_with "7600" (of_Z 3250).

Definition post (b : CreateInvoiceRequest) : Request :=
  mkRequest "POST" (Some "Bearer jwt-1") (JsonObject b).

Definition req : Request := post body.

Definition empty_db : Db := mkDb [] [].

(** A ledger whose only row has the given status and progress. *)
Definition row (st : OrderStatus) (steps : list string) : OrderRecord :=
  mkOrder "row-0" "7600" "user-1" st (Some "CUST-1") None None steps
    (of_Z 3250) "Jane Doe" "jane@example.org" "cultivera-7600" None
    1699999990000 None.

Definition db_with (st : OrderStatus) (steps : list string) : Db :=
  mkDb [row st steps] [].

(** An audit log with [n] counted entries of the sample user. *)
Definition busy_log (n : nat) : list AuditRow :=
  repeat (mkAuditRow "corr-0" 1699999999000
            (mkAudit (Some "user-1") None None None None None None None
               None None SUCCESS None None None None)) n.

End Sample.

(* ====================================================================== *)
(** ** Notions used by the further properties *)
(* ====================================================================== *)

(** What it means for a string to match a regular expression. *)
Inductive matches : regex -> string -> Prop :=
| m_eps : matches Eps EmptyString
| m_class p c : p c = true -> matches (Class p) (String c EmptyString)
| m_seq r1 r2 s1 s2 :
    matches r1 s1 -> matches r2 s2 -> matches (Seq r1 r2) (s1 ++ s2)
| m_alt_l r1 r2 s : matches r1 s -> matches (Alt r1 r2) s
| m_alt_r r1 r2 s : matches r2 s -> matches (Alt r1 r2) s
| m_star_nil r : matches (Star r) EmptyString
| m_star_cons r s1 s2 :
    matches r s1 -> matches (Star r) s2 -> matches (Star r) (s1 ++ s2).

(** Every character of the string satisfies [p]. *)
Fixpoint all_chars (p : ascii -> bool) (s : string) : bool :=
  match s with
  | EmptyString => true
  | String c s' => p c && all_chars p s'
  end.



(** The requests as the platform functions build them. *)
Definition search_request (email accessToken : string) : SquareRequest :=
  mkSquareRequest "/customers/search" "POST" (SearchBody email) accessToken
    None.

Definition customer_request (name email orderNumber accessToken : string)
    : SquareRequest :=
  mkSquareRequest "/customers" "POST"
    (CustomerBody ("cust-" ++ orderNumber) (hd EmptyString (trim_split name))
       (join " " (tl (trim_split name))) email)
    accessToken (Some ("cust-" ++ orderNumber)).

Definition order_request (customerId : string) (amountCents : jsnum)
    (orderNumber locationId accessToken : string) : SquareRequest :=
  mkSquareRequest "/orders" "POST"
    (OrderBody ("ord-" ++ orderNumber) locationId customerId orderNumber
       ("Wholesale Order #" ++ orderNumber) "1" amountCents "USD")
    accessToken (Some ("ord-" ++ orderNumber)).

Definition invoice_request (env : Env)
    (orderId customerId orderNumber locationId accessToken : string)
    : SquareRequest :=
  mkSquareRequest "/invoices" "POST"
    (InvoiceBody ("inv-" ++ orderNumber)
       (mkInvoiceFields orderId locationId customerId "BALANCE"
          (due_date env) "NONE" true false true false false "EMAIL"
          ("Invoice for Order #" ++ orderNumber)))
    accessToken (Some ("inv-" ++ orderNumber)).

Definition get_invoice_request (invoiceId accessToken : string)
    : SquareRequest :=
  mkSquareRequest ("/invoices/" ++ invoiceId) "GET" NullBody accessToken None.

Definition publish_request (invoiceId : string) (version : Z)
    (orderNumber accessToken : string) : SquareRequest :=
  mkSquareRequest ("/invoices/" ++ invoiceId ++ "/publish") "POST"
    (PublishBody ("pub-" ++ orderNumber) version)
    accessToken (Some ("pub-" ++ orderNumber)).

Section Chain.

Variable env : Env.
Variables cn ce on : string.
Variable amt : jsnum.
Variables loc tok : string.

(** The search was answered without an error and named no customer. *)
Definition none_found : Prop :=
  exists j,
    square_fetch env (search_request ce tok) = FetchJson j
    /\ j_errors j = None
    /\ (j_data_customers j = None \/ j_data_customers j = Some []).

(** [c] is the customer the orchestration settles on: the first one the
    search names, or the one the platform created when it named none. *)
Definition customer_resolved (c : SquareCustomer) : Prop :=
  (exists j rest,
     square_fetch env (search_request ce tok) = FetchJson j
     /\ j_errors j = None
     /\ j_data_customers j = Some (c :: rest))
  \/ (none_found
      /\ exists j,
           square_fetch env (customer_request cn ce on tok) = FetchJson j
           /\ j_errors j = None
           /\ j_customer j = Some c).

(** The platform answered the order for [c] with the id [o]. *)
Definition order_placed (c : SquareCustomer) (o : string) : Prop :=
  customer_resolved c
  /\ exists j,
       square_fetch env (order_request (sc_id c) amt on loc tok)
       = FetchJson j
       /\ j_errors j = None
       /\ j_order_id j = Some o.

(** The platform answered the invoice for [o] and [c] with [iv]. *)
Definition invoice_drawn (c : SquareCustomer) (o : string)
    (iv : SquareInvoice) : Prop :=
  order_placed c o
  /\ exists j,
       square_fetch env (invoice_request env o (sc_id c) on loc tok)
       = FetchJson j
       /\ j_errors j = None
       /\ j_invoice j = Some iv.

(** The platform answered the read of the invoice [iv] with [iv']. *)
Definition invoice_read (c : SquareCustomer) (o : string)
    (iv iv' : SquareInvoice) : Prop :=
  invoice_drawn c o iv
  /\ exists j,
       square_fetch env (get_invoice_request (inv_id iv) tok) = FetchJson j
       /\ j_errors j = None
       /\ j_invoice j = Some iv'.

(** The invoice [iv] was published at the version that was read. *)
Definition invoice_published (c : SquareCustomer) (o : string)
    (iv : SquareInvoice) : Prop :=
  exists iv',
    invoice_read c o iv iv'
    /\ answered env
         (publish_request (inv_id iv) (inv_version iv') on tok).

(** A request of the orchestration: each one is built from the request's
    own fields and from what the platform answered to the ones before. *)
Definition chained (rq : SquareRequest) : Prop :=
  rq = search_request ce tok
  \/ (rq = customer_request cn ce on tok /\ none_found)
  \/ (exists c,
        rq = order_request (sc_id c) amt on loc tok
        /\ customer_resolved c)
  \/ (exists c o,
        rq = invoice_request env o (sc_id c) on loc tok
        /\ order_placed c o)
  \/ (exists c o iv,
        rq = get_invoice_request (inv_id iv) tok
        /\ invoice_drawn c o iv)
  \/ (exists c o iv iv',
        rq = publish_request (inv_id iv) (inv_version iv') on tok
        /\ invoice_read c o iv iv').

End Chain.

(** The columns of a ledger row that identify the order. *)
Definition row_identity (r : OrderRecord)
    : string * string * string * jsnum * string * string * string :=
  (po_id r, po_order_number r, po_user_id r, po_amount_cents r,
   po_customer_name r, po_customer_email r, po_idempotency_key r).

(** The ledger after some progress updates of the row [pid]: updates that
    set neither the status nor the error message. *)
Inductive row_progress (now : Z) (pid : string)
    : list OrderRecord -> list OrderRecord -> Prop :=
| progress_none rows : row_progress now pid rows rows
| progress_more u rows rows' :
    row_progress now pid rows rows' ->
    u_status u = None -> u_error_message u = None ->
    u_completed_at u = None ->
    row_progress now pid rows (update_by_id now pid u rows').

(** The five steps of a complete orchestration. *)
Definition complete_steps (customer_step : string) : list string :=
  ["customer_search"; customer_step; "order_created"; "invoice_created";
   "invoice_published"].

(** The update and the audit entry of a complete orchestration. *)
Definition success_update (env : Env) (steps : list string) : OrderUpdate :=
  mkUpdate (Some completed) None None None None (Some steps)
    (Some (date_now env)) None.

Definition success_audit (user : User) (idempotencyKey : string)
    (order_number customer_name customer_email : string)
    (amount_cents : jsnum) (request_timestamp : string)
    (customerId orderId invoiceId : string) (steps : list string)
    : AuditData :=
  mkAudit (Some (user_id user)) (user_email user) (Some order_number)
    (Some customer_name) (Some customer_email) (Some amount_cents)
    (Some idempotencyKey) (Some customerId) (Some orderId) (Some invoiceId)
    SUCCESS None None (Some request_timestamp) (Some steps).

Definition success_response (correlationId : string)
    (customerId orderId invoiceId invoiceNumber : string) : Response :=
  jsonResponse
    (SuccessBody correlationId (Some customerId) (Some orderId)
       (Some invoiceId) (Some invoiceNumber))
    200 (Some correlationId).

(** The rows that the audit inserts of a run add when they are stored. *)
Fixpoint audit_rows (now : Z) (es : list Effect) : list AuditRow :=
  match es with
  | [] => []
  | AuditInsert cid data :: es' => mkAuditRow cid now data :: audit_rows now es'
  | _ :: es' => audit_rows now es'
  end.

(** The audit rows a run stores: those of its inserts, unless the audit
    table fails. *)
Definition stored (env : Env) (es : list Effect) : list AuditRow :=
  if audit_insert_fails env then [] else audit_rows (db_now env) es.

(** How the orchestration's row comes about: an existing row that is not
    completed is reset, or a row is inserted. [w] is the write and [rows0]
    the ledger after it. *)
Definition started (env : Env) (user : User) (body : CreateInvoiceRequest)
    (pid : string) (rows : list OrderRecord) (w : Effect)
    (rows0 : list OrderRecord) : Prop :=
  (exists r,
     find_order (str (order_number body)) rows = Some r
     /\ po_status r <> completed
     /\ po_id r = pid
     /\ w = OrdersUpdate pid (reset_update env)
     /\ rows0 = update_by_id (db_now env) pid (reset_update env) rows)
  \/ (find_order (str (order_number body)) rows = None
      /\ insert_error env = None
      /\ insert_id env = pid
      /\ w = OrdersInsert
               (fresh_insert user (str (order_number body))
                  (str (customer_name body)) (str (customer_email body))
                  (num (amount_cents body)))
      /\ rows0
         = (rows
            ++ [new_row pid (db_now env)
                  (fresh_insert user (str (order_number body))
                     (str (customer_name body)) (str (customer_email body))
                     (num (amount_cents body)))])%list).

(** The row of a complete orchestration, next to the row [r] it started
    from. *)
Definition completed_row (env : Env) (r r' : OrderRecord)
    (c : SquareCustomer) (o : string) (iv : SquareInvoice)
    (steps : list string) : Prop :=
  row_identity r' = row_identity r
  /\ po_status r' = completed
  /\ po_square_customer_id r' = Some (sc_id c)
  /\ po_square_order_id r' = Some o
  /\ po_square_invoice_id r' = Some (inv_id iv)
  /\ po_steps_completed r' = steps
  /\ po_completed_at r' = Some (date_now env)
  /\ po_error_message r' = po_error_message r.

(** A ledger write of the orchestration: an update of the row [pid]. *)
Definition updates_row (pid : string) (e : Effect) : Prop :=
  match e with
  | OrdersUpdate id _ => id = pid
  | OrdersInsert _ => False
  | _ => True
  end.

(** What a run of the orchestration, started on the ledger [rows0] and the
    audit log [log], answers, sends and stores. *)
Definition saga_outcome (env : Env) (user : User) (cid ik on cn ce : string)
    (amt : jsnum) (ts pid tok loc : string) (rows0 : list OrderRecord)
    (log : list AuditRow) (resp : Response) (st : St) (es : list Effect)
    : Prop :=
  (exists rq rest, es = SquareCall rq :: rest)
  /\ Forall (chained env cn ce on amt loc tok) (square_requests es)
  /\ Forall (updates_row pid) es
  /\ invoice_audit_log (db st) = (log ++ stored env es)%list
  /\ exists rows1 u data,
       processed_orders (db st) = update_by_id (db_now env) pid u rows1
       /\ row_progress (db_now env) pid rows0 rows1
       /\ audit_rows (db_now env) es = [mkAuditRow cid (db_now env) data]
       /\ ((exists c o iv customer_step,
              resp = success_response cid (sc_id c) o (inv_id iv)
                       (inv_invoice_number iv)
              /\ invoice_published env cn ce on amt loc tok c o iv
              /\ (customer_step = "customer_found"
                  \/ customer_step = "customer_created")
              /\ u = success_update env (complete_steps customer_step)
              /\ data = success_audit user ik on cn ce amt ts (sc_id c) o
                          (inv_id iv) (complete_steps customer_step)
              /\ forall r,
                   find_order on rows0 = Some r -> po_id r = pid ->
                   exists r',
                     find_order on (processed_orders (db st)) = Some r'
                     /\ completed_row env r r' c o iv
                          (complete_steps customer_step))
           \/ (exists e l,
                 resp = errorResponse (classify (stepsCompleted l))
                          (retry_message (errorMessage_of e)) 500 cid None
                 /\ u = failure_update l (errorMessage_of e)
                 /\ data = failure_audit user ik on cn ce amt ts l
                             (errorMessage_of e))).

(** The answers of the gates that precede the ledger: the code, the
    status, the retry hint and the result written to the audit log. *)
Definition gate_table : list (ErrorCode * Z * option Z * AuditResult) :=
  [(AUTH_MISSING, 401, None, R_AUTH_MISSING);
   (AUTH_INVALID, 401, None, R_AUTH_MISSING);
   (AUTH_EXPIRED, 401, None, R_AUTH_MISSING);
   (UNAUTHORIZED, 403, None, R_UNAUTHORIZED);
   (VALIDATION_MISSING_FIELD, 400, None, VALIDATION_FAILED);
   (VALIDATION_INVALID_ORDER, 400, None, VALIDATION_FAILED);
   (VALIDATION_INVALID_EMAIL, 400, None, VALIDATION_FAILED);
   (VALIDATION_INVALID_AMOUNT, 400, None, VALIDATION_FAILED);
   (REPLAY_REJECTED, 400, None, R_REPLAY_REJECTED);
   (RATE_LIMITED_USER, 429, Some 3600, RATE_LIMITED);
   (RATE_LIMITED_GLOBAL, 429, Some 300, RATE_LIMITED)].

(** The ways in which an invocation ends, with its result and its final
    state. *)
Inductive outcome (env : Env) (req : Request) (d : Db)
    : Result Response -> St -> Prop :=
| out_preflight :
    req_method req = "OPTIONS" ->
    outcome env req d (Val (mkResponse 200 None NoBody)) (init_st d)
| out_unserved msg s :
    req_method req <> "OPTIONS" ->
    (req_method req <> "POST" /\ s = 405)
    \/ (req_method req = "POST" /\ config_missing env = true /\ s = 500) ->
    outcome env req d
      (Val (errorResponse INTERNAL_ERROR msg s (randomUUID env) None))
      (init_st d)
| out_rejected code msg s retry data :
    req_method req = "POST" ->
    config_missing env = false ->
    In (code, s, retry, a_result data) gate_table ->
    a_error_code data = Some code ->
    (code = AUTH_MISSING <-> bearer_missing req = true) ->
    outcome env req d
      (Val (errorResponse code msg s (randomUUID env) retry))
      (audit_st env (randomUUID env) data (init_st d))
| out_null user e :
    authorized env req user ->
    req_json req = JsonNull ->
    outcome env req d (Throw e) (init_st d)
| out_duplicate user body r msg data :
    reaches_ledger env req d user body ->
    find_order (str (order_number body)) (processed_orders d) = Some r ->
    po_status r = completed ->
    a_result data = DUPLICATE_BLOCKED ->
    outcome env req d
      (Val (errorResponse DUPLICATE_ORDER msg 409 (randomUUID env) None))
      (audit_st env (randomUUID env) data (init_st d))
| out_conflict user body msg data :
    reaches_ledger env req d user body ->
    find_order (str (order_number body)) (processed_orders d) = None ->
    insert_error env = Some "23505" ->
    a_result data = DUPLICATE_BLOCKED ->
    outcome env req d
      (Val (errorResponse DUPLICATE_ORDER msg 409 (randomUUID env) None))
      (audit_st env (randomUUID env) data
         (emit_st
            (OrdersInsert
               (fresh_insert user (str (order_number body))
                  (str (customer_name body)) (str (customer_email body))
                  (num (amount_cents body))))
            d (init_st d)))
| out_insert_error user body c :
    reaches_ledger env req d user body ->
    find_order (str (order_number body)) (processed_orders d) = None ->
    insert_error env = Some c ->
    c <> "23505" ->
    outcome env req d (Throw (PostgrestError c))
      (emit_st
         (OrdersInsert
            (fresh_insert user (str (order_number body))
               (str (customer_name body)) (str (customer_email body))
               (num (amount_cents body))))
         d (init_st d))
| out_saga user body pid w rows0 resp st es :
    reaches_saga env req d user body pid ->
    started env user body pid (processed_orders d) w rows0 ->
    effects st = w :: es ->
    saga_outcome env user (randomUUID env)
      ("cultivera-" ++ str (order_number body)) (str (order_number body))
      (str (customer_name body)) (str (customer_email body))
      (num (amount_cents body)) (str (request_timestamp body)) pid
      (str (SQUARE_ACCESS_TOKEN env)) (str (SQUARE_LOCATION_ID env))
      rows0 (invoice_audit_log d) resp st es ->
    outcome env req d (Val resp) st.

(** The correlation id in the body of a response. *)
Definition body_correlation_id (r : Response) : option string :=
  match payload r with
  | NoBody => None
  | ErrorBody c _ _ _ => Some c
  | SuccessBody c _ _ _ _ => Some c
  end.

(** The status that goes with an error code, and the retry hint. *)
Definition status_of_code (c : ErrorCode) : Z :=
  match c with
  | AUTH_MISSING | AUTH_INVALID | AUTH_EXPIRED => 401
  | UNAUTHORIZED => 403
  | VALIDATION_MISSING_FIELD | VALIDATION_INVALID_EMAIL
  | VALIDATION_INVALID_AMOUNT | VALIDATION_INVALID_ORDER
  | REPLAY_REJECTED => 400
  | DUPLICATE_ORDER => 409
  | RATE_LIMITED_USER | RATE_LIMITED_GLOBAL => 429
  | SQUARE_API_ERROR | SQUARE_CUSTOMER_ERROR | SQUARE_ORDER_ERROR
  | SQUARE_INVOICE_ERROR | SQUARE_PUBLISH_ERROR | INTERNAL_ERROR => 500
  end.

Definition retry_of_code (c : ErrorCode) : option Z :=
  match c with
  | RATE_LIMITED_USER => Some 3600
  | RATE_LIMITED_GLOBAL => Some 300
  | _ => None
  end.

(** The user id that the identity provider gives for the credential. *)
Definition caller (env : Env) (req : Request) : option string :=
  option_map user_id (fst (auth_getUser env (jwt_of req))).

(** By how much a run raises the counts of the rate limiter: by one when
    it called the platform and its audit entry was stored. *)
Definition counted_run (env : Env) (st : St) : Z :=
  if audit_insert_fails env then 0
  else match square_requests (effects st) with
       | [] => 0
       | _ :: _ => 1
       end.

(** A ledger whose row for order 7600 failed at the order. *)
Definition failed_db : Db :=
  mkDb [mkOrder "row-0" "7600" "user-1" failed (Some "CUST-1") None None
          ["customer_search"; "customer_found"] (of_Z 3250) "Jane Doe"
          "jane@example.org" "cultivera-7600"
          (Some "Order creation failed: Location is not active")
          1699999990000 None]
       [].

(* ====================================================================== *)
(** ** The SQL functions for the status of an order *)
(* ====================================================================== *)

Definition status_eqb (a b : OrderStatus) : bool :=
  match a, b with
  | pending, pending | processing, processing | completed, completed
  | failed, failed => true
  | _, _ => false
  end.

(** SQL [was_order_processed(check_order_number)]. *)
Definition was_order_processed (check_order_number : string)
    (rows : list OrderRecord) : bool :=
  existsb (fun po =>
    (po_order_number po =? check_order_number)%string
    && status_eqb (po_status po) completed) rows.

(** A row of the table that [get_processed_order] returns. *)
Record ProcessedOrder : Type := mkProcessedOrder {
  gp_order_number : string;
  gp_status : OrderStatus;
  gp_square_invoice_id : option string;
  gp_completed_at : option Z;
  gp_customer_name : string;
  gp_amount_cents : jsnum
}.

(** SQL [get_processed_order(check_order_number)]. *)
Definition get_processed_order (check_order_number : string)
    (rows : list OrderRecord) : list ProcessedOrder :=
  map (fun po =>
         mkProcessedOrder (po_order_number po) (po_status po)
           (po_square_invoice_id po) (po_completed_at po)
           (po_customer_name po) (po_amount_cents po))
      (filter (fun po => (po_order_number po =? check_order_number)%string)
         rows).

(* ====================================================================== *)
(** ** The extension's client of the edge function *)
(* ====================================================================== *)

Module Client.

Record ParsedOrderData : Type := mkParsedOrderData {
  pd_order_number : string;
  pd_customer_name : string;
  pd_customer_email : string;
  pd_amount_cents : jsnum
}.

(** A number through [JSON.stringify] and [req.json()]: NaN and the
    infinities are written as null, which the handler, as it does NaN,
    finds present and not an integer. *)
Definition json_number (n : jsnum) : jsnum :=
  match n with
  | JFin q => JFin q
  | _ => JNaN
  end.

(** [createInvoice] up to its [fetch]: the answer it makes itself when
    there is no access token, or else the request it sends. [now_iso] is
    [new Date().toISOString()]. *)
Definition createInvoice (accessToken : option string) (now_iso : string)
    (orderData : ParsedOrderData) : Payload + Request :=
  if negb (truthy accessToken)
  then inl (ErrorBody EmptyString AUTH_MISSING
              "Please sign in to use the extension. Click the extension icon to log in."
              None)
  else inr (mkRequest "POST" (Some ("Bearer " ++ str accessToken))
              (JsonObject
                 (mkBody (Some (pd_order_number orderData))
                    (Some (pd_customer_name orderData))
                    (Some (pd_customer_email orderData))
                    (Some (json_number (pd_amount_cents orderData)))
                    (Some now_iso)))).

Record OrderStatusResponse : Type := mkOrderStatus {
  os_exists : bool;
  os_order_number : option string;
  os_status : option OrderStatus;
  os_square_invoice_id : option string;
  os_completed_at : option Z;
  os_customer_name : option string;
  os_amount_cents : option jsnum
}.

Definition no_order : OrderStatusResponse :=
  mkOrderStatus false None None None None None None.

(** [checkOrderStatus]; [rpc] is the call of [get_processed_order] and the
    reading of its answer, [None] when either fails or yields null. *)
Definition checkOrderStatus (accessToken : option string)
    (rpc : string -> option (list ProcessedOrder)) (orderNumber : string)
    : OrderStatusResponse :=
  if negb (truthy accessToken) then no_order
  else match rpc orderNumber with
       | None => no_order
       | Some [] => no_order
       | Some (order :: _) =>
           mkOrderStatus true (Some (gp_order_number order))
             (Some (gp_status order)) (gp_square_invoice_id order)
             (gp_completed_at order) (Some (gp_customer_name order))
             (Some (gp_amount_cents order))
       end.

(** The condition under which [handleSendToSquare] and
    [checkExistingOrder] take the invoice as already sent. *)
Definition already_sent (orderStatus : OrderStatusResponse) : bool :=
  os_exists orderStatus
  && match os_status orderStatus with
     | Some s => status_eqb s completed
     | None => false
     end.


End Client.

(** The requests of a complete orchestration, in their order: the
    customer is created when the search named none. *)
Definition saga_requests (env : Env) (cn ce on : string) (amt : jsnum)
    (loc tok : string) (created : bool) (c : SquareCustomer) (o : string)
    (iv iv' : SquareInvoice) : list SquareRequest :=
  ([search_request ce tok]
   ++ (if created then [customer_request cn ce on tok] else [])
   ++ [order_request (sc_id c) amt on loc tok;
       invoice_request env o (sc_id c) on loc tok;
       get_invoice_request (inv_id iv) tok;
       publish_request (inv_id iv) (inv_version iv') on tok])%list.

(** [w] is an initial segment of [l]. *)
Definition initial_segment (w l : list string) : Prop :=
  exists rest, l = (w ++ rest)%list.

(** The sample environment with both counting rpcs failing. *)
Definition env_without_counts : Env :=
  mkEnv (Some "https://project.supabase.co") (Some "service-role-key")
    (Some "square-token") (Some "LOC-1") "corr-1" 1700000000000 Sample.parse
    (fun _ => "0.0") (fun _ => "2023-11-14T22:13:21+00:00") "2023-12-14"
    Sample.getUser (fun uid => Some (uid =? "user-1")%string) true true
    1700000000000 None "row-1" false Sample.fetch_ok.

(* ====================================================================== *)
(** ** Tests of the primitives *)
(* ====================================================================== *)

Example isValidEmail_ex1 : isValidEmail "jane@example.org" = true.
Proof. reflexivity. Qed.
Example isValidEmail_ex2 : isValidEmail "jane@example" = false.
Proof. reflexivity. Qed.
Example isValidEmail_ex3 : isValidEmail "ja ne@example.org" = false.
Proof. reflexivity. Qed.
Example isValidOrderNumber_ex1 : isValidOrderNumber "7600" = true.
Proof. reflexivity. Qed.
Example isValidOrderNumber_ex2 : isValidOrderNumber "76 00" = false.
Proof. reflexivity. Qed.
Example trim_split_ex : trim_split "  Jane  van Doe " = ["Jane"; "van"; "Doe"].
Proof. reflexivity. Qed.
Example show_Z_ex : show_Z 5000000 = "5000000".
Proof. reflexivity. Qed.
Example remove_first_ex : remove_first "Bearer abc" "Bearer " = "abc".
Proof. reflexivity. Qed.

(** The end-to-end scenario: a first request for order 7600 succeeds. *)
Example end_to_end_success :
  let '(res, st) := run Sample.env Sample.req Sample.empty_db in
  res = Val (mkResponse 200 (Some "corr-1")
               (SuccessBody "corr-1" (Some "CUST-1") (Some "ORD-1")
                  (Some "INV-1") (Some "000042")))
  /\ map po_status (processed_orders (db st)) = [completed]
  /\ map po_steps_completed (processed_orders (db st))
     = [["customer_search"; "customer_created"; "order_created";
         "invoice_created"; "invoice_published"]].
Proof. vm_compute. repeat split. Qed.

(** The end-to-end scenario: the platform fails on the order. *)
Example end_to_end_order_failure :
  let '(res, st) :=
    run (Sample.env_with 1700000000000 None false Sample.fetch_order_refused)
        Sample.req Sample.empty_db in
  option_map status (match res with Val r => Some r | Throw _ => None end)
  = Some 500
  /\ option_map response_code
       (match res with Val r => Some r | Throw _ => None end)
     = Some (Some SQUARE_ORDER_ERROR)
  /\ map po_status (processed_orders (db st)) = [failed]
  /\ map po_steps_completed (processed_orders (db st))
     = [["customer_search"; "customer_created"]].
Proof. vm_compute. repeat split. Qed.

(* ====================================================================== *)
(** ** Running the monad: equations and tactics *)
(* ====================================================================== *)

Arguments startsWith : simpl never.
Arguments includes : simpl never.
Arguments remove_first : simpl never.
Arguments isValidEmail : simpl never.
Arguments isValidOrderNumber : simpl never.
Arguments invalid_amount : simpl never.
Arguments replay_rejected : simpl never.
Arguments missing_required : simpl never.
Arguments missingFields : simpl never.
Arguments count_ge : simpl never.
Arguments get_user_rate_limit_count : simpl never.
Arguments get_global_rate_limit_count : simpl never.
Arguments show_Z : simpl never.
Arguments show_count : simpl never.
Arguments join : simpl never.
Arguments trim_split : simpl never.
Arguments undefined_read : simpl never.
Arguments update_by_id : simpl never.
Arguments find_order : simpl never.
Arguments classify : simpl never.
Arguments expired_code : simpl never.

Lemma logAudit_run env cid data st :
  logAudit env cid data st = (Val tt, audit_st env cid data st).
Proof.
  unfold logAudit, try_catch, bind, emit, throw, set_db, ret, audit_st.
  cbn. destruct (audit_insert_fails env); reflexivity.
Qed.

Arguments logAudit : simpl never.
Arguments audit_st : simpl never.
Arguments process_order : simpl never.
Arguments validate_and_process : simpl never.
Arguments errorResponse : simpl never.

Ltac exec_step :=
  match goal with
  | |- context [logAudit ?e ?c ?d ?s] => rewrite (logAudit_run e c d s)
  | |- context [match ?x with _ => _ end] =>
      lazymatch x with
      | context [match _ with _ => _ end] => fail
      | _ => destruct x eqn:?
      end
  end.

Ltac norm :=
  cbv beta iota zeta delta
    [bind ret throw emit set_db get_db set_locals get_locals try_catch];
  cbn.

Ltac exec := norm; repeat (exec_step; norm).

(** Authentication and authorization. *)
Lemma handler_authorized env req user st :
  authorized env req user ->
  handler env req st
  = validate_and_process env user (randomUUID env) req
      (str (SQUARE_ACCESS_TOKEN env)) (str (SQUARE_LOCATION_ID env)) st.
Proof.
  intros [[Hm [Hc Hb]] [Hu Ha]].
  unfold handler. rewrite Hm. cbn.
  unfold config_missing in Hc. rewrite Hc.
  unfold bearer_missing in Hb. rewrite Hb.
  unfold jwt_of in Hu. rewrite Hu, Ha. reflexivity.
Qed.

Lemma validate_valid env user cid req tok loc body st :
  req_json req = JsonObject body ->
  valid body -> fresh env body -> under_limits env user (db st) ->
  validate_and_process env user cid req tok loc st
  = process_order env user cid (str (order_number body))
      (str (customer_name body)) (str (customer_email body))
      (num (amount_cents body)) (str (request_timestamp body)) tok loc st.
Proof.
  intros Hj [[Hmiss [Ho He]] Ha] Hf [Hu Hg].
  unfold validate_and_process. rewrite Hj, Hmiss, Ho, He, Ha. cbn.
  unfold fresh in Hf. rewrite Hf.
  unfold rpc_user_rate_count, rpc_global_rate_count. norm.
  unfold user_count in Hu. unfold global_count in Hg.
  rewrite Hu. rewrite Hg. reflexivity.
Qed.

Lemma run_reaches_ledger env req d user body :
  reaches_ledger env req d user body ->
  run env req d
  = process_order env user (randomUUID env) (str (order_number body))
      (str (customer_name body)) (str (customer_email body))
      (num (amount_cents body)) (str (request_timestamp body))
      (str (SQUARE_ACCESS_TOKEN env)) (str (SQUARE_LOCATION_ID env))
      (init_st d).
Proof.
  intros (Had & Hj & Hv & Hf & Hl).
  unfold run. rewrite (handler_authorized _ _ _ _ Had).
  apply validate_valid; assumption.
Qed.

Lemma process_completed env user cid on cn ce amt ts tok loc st r :
  find_order on (processed_orders (db st)) = Some r ->
  po_status r = completed ->
  process_order env user cid on cn ce amt ts tok loc st
  = (Val (errorResponse DUPLICATE_ORDER
            ("Invoice already sent for order #" ++ on
             ++ ". View in Square Dashboard.") 409 cid None),
     audit_st env cid
       (mkAudit (Some (user_id user)) (user_email user) (Some on) None None
          None None None None (po_square_invoice_id r) DUPLICATE_BLOCKED
          (Some DUPLICATE_ORDER)
          (Some ("Order already processed on "
                 ++ show_instant env (po_completed_at r))) None None) st).
Proof.
  intros Hf Hs. unfold process_order, select_order. norm. rewrite Hf.
  destruct r; cbn in Hs; subst. norm. rewrite logAudit_run. reflexivity.
Qed.

Lemma process_reuse env user cid on cn ce amt ts tok loc st r :
  find_order on (processed_orders (db st)) = Some r ->
  po_status r <> completed ->
  process_order env user cid on cn ce amt ts tok loc st
  = saga env user cid ("cultivera-" ++ on) on cn ce amt ts (po_id r) tok loc
      (emit_st (OrdersUpdate (po_id r) (reset_update env))
         (mkDb (update_by_id (db_now env) (po_id r) (reset_update env)
                  (processed_orders (db st)))
               (invoice_audit_log (db st)))
         st).
Proof.
  intros Hf Hs. unfold process_order, select_order, update_order. norm.
  rewrite Hf.
  destruct r as [? ? ? s ? ? ? ? ? ? ? ? ? ? ?]; cbn in Hs;
    destruct s; try congruence; reflexivity.
Qed.

Lemma process_insert env user cid on cn ce amt ts tok loc st :
  find_order on (processed_orders (db st)) = None ->
  insert_error env = None ->
  process_order env user cid on cn ce amt ts tok loc st
  = saga env user cid ("cultivera-" ++ on) on cn ce amt ts (insert_id env)
      tok loc
      (emit_st (OrdersInsert (fresh_insert user on cn ce amt))
         (mkDb (processed_orders (db st)
                ++ [new_row (insert_id env) (db_now env)
                      (fresh_insert user on cn ce amt)])
               (invoice_audit_log (db st)))
         st).
Proof.
  intros Hf Hi. unfold process_order, select_order, insert_order. norm.
  rewrite Hf. norm. rewrite Hf. rewrite Hi. reflexivity.
Qed.

Lemma process_conflict env user cid on cn ce amt ts tok loc st :
  find_order on (processed_orders (db st)) = None ->
  insert_error env = Some "23505" ->
  process_order env user cid on cn ce amt ts tok loc st
  = (Val (errorResponse DUPLICATE_ORDER
            "This order is already being processed. Please wait a moment."
            409 cid None),
     audit_st env cid
       (mkAudit (Some (user_id user)) (user_email user) (Some on) None None
          None None None None None DUPLICATE_BLOCKED (Some DUPLICATE_ORDER)
          (Some "Order being processed by another request") None None)
       (emit_st (OrdersInsert (fresh_insert user on cn ce amt)) (db st) st)).
Proof.
  intros Hf Hi. unfold process_order, select_order, insert_order. norm.
  rewrite Hf. norm. rewrite Hf. rewrite Hi. norm. rewrite logAudit_run.
  destruct st as [[? ?] ? ?]. reflexivity.
Qed.

Lemma process_insert_error env user cid on cn ce amt ts tok loc st c :
  find_order on (processed_orders (db st)) = None ->
  insert_error env = Some c ->
  (c =? "23505")%string = false ->
  process_order env user cid on cn ce amt ts tok loc st
  = (Throw (PostgrestError c),
     emit_st (OrdersInsert (fresh_insert user on cn ce amt)) (db st) st).
Proof.
  intros Hf Hi Hc. unfold process_order, select_order, insert_order. norm.
  rewrite Hf. norm. rewrite Hf. rewrite Hi. norm. rewrite Hc.
  destruct st as [[? ?] ? ?]. reflexivity.
Qed.

Lemma logAudit_ret {A} env cid data (r : A) st :
  (logAudit env cid data ;; ret r) st = (Val r, audit_st env cid data st).
Proof. unfold bind. rewrite logAudit_run. reflexivity. Qed.

Ltac reject :=
  do 2 eexists;
  split;
  [ first [ apply logAudit_ret
          | norm; rewrite logAudit_run; reflexivity ]
  | cbn; tauto ].

(** How far a request gets before the ledger: it is answered without an
    audit entry, or rejected by a gate with one, or the null body makes
    the handler throw, or it reaches the ledger. *)
Lemma run_front env req d :
  (exists resp, run env req d = (Val resp, init_st d)
     /\ ((req_method req =? "POST")%string = false
         \/ config_missing env = true))
  \/ (exists resp data,
        run env req d
        = (Val resp, audit_st env (randomUUID env) data (init_st d))
        /\ (req_method req =? "POST")%string = true
        /\ config_missing env = false
        /\ In (status resp) [400; 401; 403; 429])
  \/ (exists e, run env req d = (Throw e, init_st d)
        /\ req_json req = JsonNull)
  \/ (exists user body, reaches_ledger env req d user body).
Proof.
  unfold run, handler.
  destruct (req_method req =? "OPTIONS")%string eqn:Hopt.
  { left. eexists. split; [reflexivity|]. left.
    apply String.eqb_eq in Hopt. rewrite Hopt. reflexivity. }
  destruct (req_method req =? "POST")%string eqn:Hpost; cbn [negb].
  2:{ left. eexists. split; [reflexivity|]. left. reflexivity. }
  fold (config_missing env). destruct (config_missing env) eqn:Hcfg.
  { left. eexists. split; [reflexivity|]. right. reflexivity. }
  right.
  fold (bearer_missing req). destruct (bearer_missing req) eqn:Hb.
  { left. reject. }
  fold (jwt_of req).
  destruct (auth_getUser env (jwt_of req)) as [[user|] [err|]] eqn:Hu.
  1,3,4: left; reject.
  destruct (is_authorized_invoicer env (user_id user)) as [[|]|] eqn:Ha.
  2,3: left; reject.
  assert (Had : authorized env req user).
  { repeat split; try assumption. apply String.eqb_eq. exact Hpost. }
  unfold validate_and_process.
  destruct (req_json req) as [| |body] eqn:Hj.
  { left. reject. }
  { right. left. eexists. split; reflexivity. }
  destruct (missing_required body) eqn:Hmiss.
  { left. reject. }
  destruct (isValidOrderNumber (str (order_number body))) eqn:Ho; cbn [negb].
  2:{ left. reject. }
  destruct (isValidEmail (str (customer_email body))) eqn:He; cbn [negb].
  2:{ left. reject. }
  destruct (invalid_amount (num (amount_cents body))) eqn:Hamt.
  { left. reject. }
  destruct (replay_rejected (date_now env)
              (date_parse env (str (request_timestamp body)))) eqn:Hr.
  { left. reject. }
  unfold rpc_user_rate_count, rpc_global_rate_count. norm.
  fold (user_count env user d).
  destruct (count_ge (user_count env user d) USER_RATE_LIMIT) eqn:Hcu.
  { left. reject. }
  change (db (init_st d)) with d. fold (global_count env d).
  destruct (count_ge (global_count env d) GLOBAL_RATE_LIMIT) eqn:Hcg.
  { left. reject. }
  right. right. exists user, body.
  split; [exact Had|]. split; [exact Hj|]. repeat split; assumption.
Qed.

Ltac unfold_saga :=
  unfold saga, saga_try, saga_catch, searchCustomerByEmail, createCustomer,
    createOrder, createInvoice, publishInvoice, squareRequest, update_order,
    push_step, set_squareCustomerId, set_squareOrderId, set_invoice.

Ltac trace_witness :=
  unfold audit_st; cbn [effects];
  rewrite <- ?app_assoc; cbn [app];
  eexists; split; [reflexivity|].

Ltac solve_keyed :=
  repeat (apply Forall_cons; [cbn; try split; reflexivity|]); apply Forall_nil.

Ltac solve_append_only :=
  cbn; repeat (split; [eexists; cbn; reflexivity|]); exact I.

Ltac solve_answered :=
  repeat (apply Forall_cons; [eexists; split; eassumption|]);
  apply Forall_nil.

Ltac solve_saga_response :=
  first
    [ left; split; [reflexivity|]; split; [reflexivity|];
      split; [cbn [square_requests]; solve_answered|];
      first [ exists true; eexists; reflexivity
            | exists false; eexists; reflexivity ]
    | right; split; [reflexivity|]; eexists; split; [reflexivity|];
      unfold classify; cbn; tauto ].

(** Every run of the orchestration answers, and leaves a trace of the
    expected shape. *)
Lemma saga_trace_ok env user cid ik on cn ce amt ts pid tok loc d es0 :
  let '(res, st') :=
    saga env user cid ik on cn ce amt ts pid tok loc
      (mkSt d es0 init_locals) in
  exists es, effects st' = (es0 ++ es)%list /\ saga_trace env on ce res es.
Proof.
  unfold_saga. exec.
  all: trace_witness.
  all: unfold saga_trace.
  all: split; [reflexivity|].
  all: split; [do 2 eexists; reflexivity|].
  all: split; [do 2 eexists; split; [reflexivity | split; reflexivity]|].
  all: split; [cbn [square_requests]; solve_keyed|].
  all: split; [solve_append_only|].
  all: eexists; split; [reflexivity|].
  all: solve_saga_response.
Qed.

Lemma saga_of_throw env user cid ik on cn ce amt ts pid tok loc st e st1 :
  saga_try env user cid ik on cn ce amt ts pid tok loc st = (Throw e, st1) ->
  saga env user cid ik on cn ce amt ts pid tok loc st
  = (Val (errorResponse (classify (stepsCompleted (locals st1)))
            (retry_message (errorMessage_of e)) 500 cid None),
     audit_st env cid
       (failure_audit user ik on cn ce amt ts (locals st1)
          (errorMessage_of e))
       (mkSt (mkDb (update_by_id (db_now env) pid
                      (failure_update (locals st1) (errorMessage_of e))
                      (processed_orders (db st1)))
                   (invoice_audit_log (db st1)))
             (effects st1
              ++ [OrdersUpdate pid
                    (failure_update (locals st1) (errorMessage_of e))])
             (locals st1))).
Proof.
  intros H. unfold saga, try_catch. rewrite H.
  unfold saga_catch, update_order. norm. rewrite logAudit_run. reflexivity.
Qed.

Lemma saga_of_val env user cid ik on cn ce amt ts pid tok loc st r st1 :
  saga_try env user cid ik on cn ce amt ts pid tok loc st = (Val r, st1) ->
  saga env user cid ik on cn ce amt ts pid tok loc st = (Val r, st1).
Proof. intros H. unfold saga, try_catch. rewrite H. reflexivity. Qed.

Lemma find_order_update now on id u rows :
  find_order on (update_by_id now id u rows)
  = option_map
      (fun r => if (po_id r =? id)%string then apply_update now u r else r)
      (find_order on rows).
Proof.
  unfold find_order, update_by_id.
  induction rows as [|r rows IH]; [reflexivity|].
  cbn [map find].
  destruct (po_id r =? id)%string eqn:E; cbn [po_order_number apply_update];
    destruct (po_order_number r =? on)%string; cbn; rewrite ?E; auto.
Qed.

Lemma holds_row_update now on pid id u rows :
  holds_row on pid rows -> holds_row on pid (update_by_id now id u rows).
Proof.
  intros (r & Hf & Hp). unfold holds_row.
  rewrite find_order_update, Hf. cbn.
  eexists; split; [reflexivity|].
  destruct (po_id r =? id)%string; assumption.
Qed.

Ltac solve_cascade :=
  unfold furthest_missing; unfold classify; cbn;
  first
    [ left; split; reflexivity
    | right; left; split; [discriminate|]; split; [|reflexivity];
      cbn; intuition discriminate
    | right; right; left; split; [cbn; tauto|]; split; [|reflexivity];
      cbn; intuition discriminate
    | right; right; right; split; [cbn; tauto|]; split; [cbn; tauto|];
      split; [|reflexivity]; cbn; intuition discriminate ].

Ltac solve_failure_of :=
  unfold failure_of; eexists; split; [reflexivity|];
  repeat match goal with
         | H : square_fetch _ _ = _ |- _ => rewrite H
         | H : j_errors _ = _ |- _ => rewrite H
         end;
  first
    [ reflexivity
    | let prop := fresh "prop" in
      let Hm := fresh "Hm" in
      intros prop Hm; unfold member_of in Hm; cbn [sq_body] in Hm;
      repeat match goal with
             | H : j_customer _ = _ |- _ => rewrite H in Hm
             | H : j_order_id _ = _ |- _ => rewrite H in Hm
             | H : j_invoice _ = _ |- _ => rewrite H in Hm
             end;
      inversion Hm; reflexivity ].

(** What a throw inside the [try] block leaves behind. *)
Lemma saga_try_failure env user cid ik on cn ce amt ts pid tok loc d es0 :
  let '(res, st1) :=
    saga_try env user cid ik on cn ce amt ts pid tok loc
      (mkSt d es0 init_locals) in
  match res with
  | Val resp => status resp = 200
  | Throw e =>
      let steps := stepsCompleted (locals st1) in
      furthest_missing steps (classify steps)
      /\ (holds_row on pid (processed_orders d) ->
          holds_row on pid (processed_orders (db st1)))
      /\ exists es rq,
           effects st1 = (es0 ++ es)%list
           /\ last_request es = Some rq
           /\ failure_of env rq e
  end.
Proof.
  unfold_saga. exec.
  all: try reflexivity.
  all: split; [solve_cascade|].
  all: split; [intros Hrow; repeat apply holds_row_update; exact Hrow|].
  all: rewrite <- ?app_assoc; cbn [app].
  all: do 2 eexists; split; [reflexivity|].
  all: split; [reflexivity|].
  all: solve_failure_of.
Qed.

(* ====================================================================== *)
(** ** The audit table's failure does not reach the response *)
(* ====================================================================== *)

Lemma saga_audit_irrelevant b1 b2 env user cid ik on cn ce amt ts pid tok loc
    st :
  fst (saga (with_audit_insert_fails b1 env) user cid ik on cn ce amt ts pid
         tok loc st)
  = fst (saga (with_audit_insert_fails b2 env) user cid ik on cn ce amt ts
           pid tok loc st).
Proof.
  unfold_saga. exec. all: reflexivity.
Qed.

(** The orchestration reads nothing from the tables: started on two
    databases with the same effects so far, it answers the same and issues
    the same effects. *)
Lemma saga_db_irrelevant env user cid ik on cn ce amt ts pid tok loc d1 d2
    es0 :
  let '(r1, s1) :=
    saga env user cid ik on cn ce amt ts pid tok loc
      (mkSt d1 es0 init_locals) in
  let '(r2, s2) :=
    saga env user cid ik on cn ce amt ts pid tok loc
      (mkSt d2 es0 init_locals) in
  r1 = r2 /\ effects s1 = effects s2.
Proof.
  unfold_saga. exec. all: split; reflexivity.
Qed.

Lemma process_audit_irrelevant b1 b2 env user cid on cn ce amt ts tok loc st :
  fst (process_order (with_audit_insert_fails b1 env) user cid on cn ce amt
         ts tok loc st)
  = fst (process_order (with_audit_insert_fails b2 env) user cid on cn ce
           amt ts tok loc st).
Proof.
  destruct (find_order on (processed_orders (db st))) as [r|] eqn:Hf.
  - destruct (po_status r) eqn:Hs.
    1,2,4: rewrite !(process_reuse _ _ _ _ _ _ _ _ _ _ _ r Hf) by congruence;
           apply saga_audit_irrelevant.
    rewrite !(process_completed _ _ _ _ _ _ _ _ _ _ _ r Hf Hs). reflexivity.
  - destruct (insert_error env) as [c|] eqn:Hi.
    + destruct (c =? "23505")%string eqn:Hc.
      * apply String.eqb_eq in Hc. subst c.
        rewrite !process_conflict by assumption. reflexivity.
      * rewrite !(process_insert_error _ _ _ _ _ _ _ _ _ _ _ c) by assumption.
        reflexivity.
    + rewrite !process_insert by assumption. apply saga_audit_irrelevant.
Qed.

Lemma handler_audit_irrelevant b1 b2 env req st :
  fst (handler (with_audit_insert_fails b1 env) req st)
  = fst (handler (with_audit_insert_fails b2 env) req st).
Proof.
  unfold handler, validate_and_process, rpc_user_rate_count,
    rpc_global_rate_count.
  exec.
  all: try reflexivity.
  all: apply process_audit_irrelevant.
Qed.

(* ====================================================================== *)
(** ** Facts about the primitives *)
(* ====================================================================== *)

Lemma audit_st_effects env cid data st :
  effects (audit_st env cid data st)
  = (effects st ++ [AuditInsert cid data])%list.
Proof. reflexivity. Qed.

Lemma audit_st_orders env cid data st :
  processed_orders (db (audit_st env cid data st)) = processed_orders (db st).
Proof. unfold audit_st. cbn. destruct (audit_insert_fails env); reflexivity. Qed.

Lemma prefix_spec p s :
  String.prefix p s = true <-> exists b, s = p ++ b.
Proof.
  revert p. induction s as [|c' s IH]; intros p.
  - destruct p as [|c p]; cbn.
    + split; [intros _; exists EmptyString; reflexivity | reflexivity].
    + split; [discriminate | intros [b Hb]; discriminate].
  - destruct p as [|c p]; cbn [String.prefix].
    + split; [intros _; eexists; reflexivity | reflexivity].
    + destruct (ascii_dec c c') as [->|Hne].
      * rewrite IH. split; intros [b Hb]; exists b.
        -- cbn. now rewrite Hb.
        -- cbn in Hb. now inversion Hb.
      * split; [discriminate|]. intros [b Hb]. cbn in Hb. inversion Hb.
        congruence.
Qed.

(** [includes] decides whether the pattern occurs in the string. *)
Lemma includes_spec s p :
  includes s p = true <-> exists a b, s = a ++ p ++ b.
Proof.
  induction s as [|c s IH].
  - change (includes EmptyString p) with (String.prefix p EmptyString || false).
    rewrite orb_false_r, prefix_spec. split.
    + intros [b Hb]. exists EmptyString, b. exact Hb.
    + intros (a & b & H). destruct a; [exists b; exact H | discriminate].
  - change (includes (String c s) p)
      with (String.prefix p (String c s) || includes s p).
    rewrite orb_true_iff, prefix_spec, IH. split.
    + intros [[b Hb] | (a & b & H)].
      * exists EmptyString, b. exact Hb.
      * exists (String c a), b. cbn. now rewrite H.
    + intros (a & b & H). destruct a as [|c' a]; cbn in H.
      * left. exists b. exact H.
      * right. inversion H. now exists a, b.
Qed.

Lemma isInteger_spec q :
  isInteger (JFin q) = true <-> exists z, (q == inject_Z z)%Q.
Proof.
  destruct q as [n dn]. unfold isInteger, Qeq. cbn [Qnum Qden inject_Z].
  rewrite Z.eqb_eq. split.
  - intros H. exists (Z.quot n (Zpos dn)).
    pose proof (Z.quot_rem' n (Zpos dn)) as E. rewrite H in E. lia.
  - intros [z Hz]. replace n with (z * Zpos dn) by lia.
    apply Z.rem_mul. lia.
Qed.

(** The amount check accepts exactly the integers from 1 to the ceiling. *)
Lemma invalid_amount_spec a :
  invalid_amount a = false
  <-> exists z, integer_value a z /\ 0 < z <= MAX_AMOUNT_CENTS.
Proof.
  unfold invalid_amount, integer_value, MAX_AMOUNT_CENTS.
  destruct a as [|neg|q].
  1,2: split; [discriminate | intros (z & (q & Hq & _) & _); discriminate].
  rewrite !orb_false_iff, negb_false_iff, isInteger_spec.
  unfold gt, lt, le, of_Z, Qlt_bool, Qle_bool, Qeq.
  destruct q as [n dn]. cbn [Qnum Qden inject_Z].
  rewrite negb_false_iff, Z.leb_gt, Z.leb_le.
  split.
  - intros [[[z Hz] Hpos] Hmax]. exists z. split.
    + eexists. split; [reflexivity|]. exact Hz.
    + nia.
  - intros (z & (q & Hq & Hz) & Hr). inversion Hq; subst q.
    cbn [Qnum Qden] in Hz. repeat split.
    + exists z. exact Hz.
    + nia.
    + nia.
Qed.

(** The replay check accepts exactly the ages from -30 s to 120 s. *)
Lemma replay_rejected_spec now requestTime :
  replay_rejected now requestTime = false <-> in_window now requestTime.
Proof.
  unfold replay_rejected, in_window, ageSeconds, REPLAY_WINDOW_SECONDS.
  destruct requestTime as [t|].
  2:{ split; [discriminate | intros (t & H & _); discriminate]. }
  cbn [orb]. unfold gt, lt, of_Z, Qlt_bool.
  rewrite orb_false_iff, !negb_false_iff, !Qle_bool_iff.
  split.
  - intros [H1 H2]. exists t. auto.
  - intros (t' & Ht & H1 & H2). inversion Ht; subst t'. auto.
Qed.

Lemma classify_codes steps :
  In (classify steps)
     [SQUARE_CUSTOMER_ERROR; SQUARE_ORDER_ERROR; SQUARE_INVOICE_ERROR;
      SQUARE_PUBLISH_ERROR; SQUARE_API_ERROR].
Proof.
  unfold classify.
  repeat match goal with
         | |- context [if ?b then _ else _] => destruct b
         end; cbn; tauto.
Qed.

(** The orchestration from a state with fresh locals. *)
Lemma saga_runs env user cid ik on cn ce amt ts pid tok loc d es0 :
  exists resp st' es,
    saga env user cid ik on cn ce amt ts pid tok loc (mkSt d es0 init_locals)
    = (Val resp, st')
    /\ effects st' = (es0 ++ es)%list
    /\ saga_trace env on ce (Val resp) es.
Proof.
  pose proof (saga_trace_ok env user cid ik on cn ce amt ts pid tok loc d es0)
    as H.
  destruct (saga env user cid ik on cn ce amt ts pid tok loc
              (mkSt d es0 init_locals)) as [res st'].
  destruct H as (es & He & Ht).
  assert (Hv : exists resp, res = Val resp).
  { destruct Ht as (_ & _ & _ & _ & _ & resp & Hr & _). now exists resp. }
  destruct Hv as [resp ->]. now exists resp, st', es.
Qed.

Lemma saga_trace_codes env on ce resp es :
  saga_trace env on ce (Val resp) es -> In (response_code resp) late_codes.
Proof.
  intros (_ & _ & _ & _ & _ & r & Hr & Hcase). inversion Hr; subst r.
  destruct Hcase as [(_ & Hc & _) | (_ & c & Hc & Hin)]; rewrite Hc.
  - cbn. tauto.
  - cbn in Hin |- *. intuition (subst; tauto).
Qed.

Lemma process_order_codes env user cid on cn ce amt ts tok loc st resp st' :
  process_order env user cid on cn ce amt ts tok loc st = (Val resp, st') ->
  In (response_code resp) late_codes.
Proof.
  intros Hrun.
  destruct (find_order on (processed_orders (db st))) as [r|] eqn:Hf.
  - destruct (po_status r) eqn:Hs.
    1,2,4: rewrite (process_reuse _ _ _ _ _ _ _ _ _ _ _ r Hf) in Hrun
             by congruence;
           unfold emit_st in Hrun;
           match type of Hrun with
           | saga ?e ?u ?c ?ik ?o ?n ?m ?a ?t ?p ?k ?l (mkSt ?d ?es _) = _ =>
               destruct (saga_runs e u c ik o n m a t p k l d es)
                 as (resp0 & st0 & es' & Hr & _ & Ht)
           end;
           rewrite Hr in Hrun; inversion Hrun; subst;
           eapply saga_trace_codes; eassumption.
    rewrite (process_completed _ _ _ _ _ _ _ _ _ _ _ r Hf Hs) in Hrun.
    inversion Hrun; subst. cbn. tauto.
  - destruct (insert_error env) as [c|] eqn:Hi.
    + destruct (c =? "23505")%string eqn:Hc.
      * apply String.eqb_eq in Hc. subst c.
        rewrite process_conflict in Hrun by assumption.
        inversion Hrun; subst. cbn. tauto.
      * rewrite (process_insert_error _ _ _ _ _ _ _ _ _ _ _ c) in Hrun
          by assumption.
        discriminate.
    + rewrite process_insert in Hrun by assumption.
      unfold emit_st in Hrun.
      match type of Hrun with
      | saga ?e ?u ?c ?ik ?o ?n ?m ?a ?t ?p ?k ?l (mkSt ?d ?es _) = _ =>
          destruct (saga_runs e u c ik o n m a t p k l d es)
            as (resp0 & st0 & es' & Hr & _ & Ht)
      end.
      rewrite Hr in Hrun; inversion Hrun; subst.
      eapply saga_trace_codes; eassumption.
Qed.

(* ====================================================================== *)
(** ** Authentication *)
(* ====================================================================== *)

(** C10. When the bearer credential is present but its verification fails,
    the answer is 401 with AUTH_EXPIRED if the provider's error message
    contains 'expired' and AUTH_INVALID otherwise; the only effect is one
    audit entry whose result is AUTH_MISSING and whose error_code is the
    code of the answer. *)
Theorem auth_failure_audited env req d :
  presented env req ->
  (forall user, auth_getUser env (jwt_of req) <> (Some user, None)) ->
  let authError := snd (auth_getUser env (jwt_of req)) in
  exists resp st code data,
    run env req d = (Val resp, st)
    /\ status resp = 401
    /\ response_code resp = Some code
    /\ (code = AUTH_EXPIRED
        <-> exists m a b, authError = Some (mkAuthError (Some m))
                          /\ m = a ++ "expired" ++ b)
    /\ (code = AUTH_EXPIRED \/ code = AUTH_INVALID)
    /\ effects st = [AuditInsert (randomUUID env) data]
    /\ a_result data = R_AUTH_MISSING
    /\ a_error_code data = Some code.
Proof.
  intros (Hm & Hc & Hb) Hfail authError.
  exists (errorResponse (expired_code authError)
            (match expired_code authError with
             | AUTH_EXPIRED => "Session expired. Please sign in again."
             | _ => "Invalid authentication"
             end) 401 (randomUUID env) None).
  pose (data :=
    mkAudit None None None None None None None None None None
      R_AUTH_MISSING (Some (expired_code authError))
      (Some (match authError with
             | Some (mkAuthError (Some m)) =>
                 if (m =? EmptyString)%string
                 then "Invalid authentication token" else m
             | _ => "Invalid authentication token"
             end))
      None None).
  exists (audit_st env (randomUUID env) data (init_st d)).
  exists (expired_code authError), data.
  split.
  { unfold run, handler. rewrite Hm. cbn.
    unfold config_missing in Hc. rewrite Hc.
    unfold bearer_missing in Hb. rewrite Hb.
    fold (jwt_of req). subst data authError.
    destruct (auth_getUser env (jwt_of req)) as [[user|] [err|]] eqn:Hu;
      cbn [snd].
    2:{ exfalso. eapply Hfail. reflexivity. }
    all: apply logAudit_ret. }
  split; [reflexivity|]. split; [reflexivity|].
  split.
  { unfold expired_code. destruct authError as [[[m|]]|].
    - destruct (includes m "expired") eqn:Hi.
      + split; [intros _ | reflexivity].
        apply includes_spec in Hi. destruct Hi as (a & b & Hab).
        now exists m, a, b.
      + split; [discriminate|]. intros (m' & a & b & Hm' & Hab).
        inversion Hm'; subst m'.
        assert (includes m "expired" = true)
          by (apply includes_spec; now exists a, b).
        congruence.
    - split; [discriminate | intros (m' & a & b & Hm' & _); discriminate].
    - split; [discriminate | intros (m' & a & b & Hm' & _); discriminate]. }
  split.
  { unfold expired_code. destruct authError as [[[m|]]|]; auto.
    destruct (includes m "expired"); auto. }
  split; [reflexivity|]. split; reflexivity.
Qed.

Lemma auth_failure_audited_witness :
  presented Sample.env
    (mkRequest "POST" (Some "Bearer jwt-old") (JsonObject Sample.body))
  /\ exists resp st,
       run Sample.env
         (mkRequest "POST" (Some "Bearer jwt-old") (JsonObject Sample.body))
         Sample.empty_db
       = (Val resp, st)
       /\ status resp = 401.
Proof.
  assert (Hp : presented Sample.env
                 (mkRequest "POST" (Some "Bearer jwt-old")
                    (JsonObject Sample.body)))
    by (repeat split; reflexivity).
  split; [exact Hp|].
  destruct (auth_failure_audited Sample.env
              (mkRequest "POST" (Some "Bearer jwt-old")
                 (JsonObject Sample.body))
              Sample.empty_db Hp)
    as (resp & st & code & data & Hrun & Hst & _).
  - intros user. vm_compute. discriminate.
  - exists resp, st. split; [exact Hrun | exact Hst].
Defined.

Example auth_expired_example :
  let '(res, st) :=
    run Sample.env
      (mkRequest "POST" (Some "Bearer jwt-old") (JsonObject Sample.body))
      Sample.empty_db in
  option_map response_code
    (match res with Val r => Some r | Throw _ => None end)
  = Some (Some AUTH_EXPIRED)
  /\ map (fun e => match e with
                   | AuditInsert _ data => Some (a_result data, a_error_code data)
                   | _ => None
                   end) (effects st)
     = [Some (R_AUTH_MISSING, Some AUTH_EXPIRED)].
Proof. vm_compute. split; reflexivity. Qed.

(* ====================================================================== *)
(** ** Validation, replay protection and rate limiting *)
(* ====================================================================== *)

(** An authorized request is handed to the sections that read and check
    its body. *)
Lemma run_authorized env req d user :
  authorized env req user ->
  run env req d
  = validate_and_process env user (randomUUID env) req
      (str (SQUARE_ACCESS_TOKEN env)) (str (SQUARE_LOCATION_ID env))
      (init_st d).
Proof. intros H. unfold run. now apply handler_authorized. Qed.

Lemma late_response env req d user body resp st :
  reaches_ledger env req d user body ->
  run env req d = (Val resp, st) ->
  In (response_code resp) late_codes.
Proof.
  intros Hr Hrun. rewrite (run_reaches_ledger _ _ _ _ _ Hr) in Hrun.
  eapply process_order_codes. eassumption.
Qed.

Ltac enter_validation Had Hj :=
  unfold rejection; do 2 eexists;
  rewrite (run_authorized _ _ _ _ Had);
  unfold validate_and_process; rewrite Hj.

Ltac finish_rejection :=
  split; [first [ apply logAudit_ret
                | norm; rewrite logAudit_run; reflexivity ]
         | split; reflexivity].

Lemma reject_missing env req d user body :
  authorized env req user -> req_json req = JsonObject body ->
  missing_required body = true ->
  rejection env req d VALIDATION_MISSING_FIELD 400 None VALIDATION_FAILED.
Proof.
  intros Had Hj H. enter_validation Had Hj. rewrite H. finish_rejection.
Qed.

Lemma reject_order env req d user body :
  authorized env req user -> req_json req = JsonObject body ->
  missing_required body = false ->
  isValidOrderNumber (str (order_number body)) = false ->
  rejection env req d VALIDATION_INVALID_ORDER 400 None VALIDATION_FAILED.
Proof.
  intros Had Hj H1 H2. enter_validation Had Hj. rewrite H1, H2.
  finish_rejection.
Qed.

Lemma reject_email env req d user body :
  authorized env req user -> req_json req = JsonObject body ->
  missing_required body = false ->
  isValidOrderNumber (str (order_number body)) = true ->
  isValidEmail (str (customer_email body)) = false ->
  rejection env req d VALIDATION_INVALID_EMAIL 400 None VALIDATION_FAILED.
Proof.
  intros Had Hj H1 H2 H3. enter_validation Had Hj. rewrite H1, H2, H3.
  finish_rejection.
Qed.

Lemma reject_amount env req d user body :
  authorized env req user -> req_json req = JsonObject body ->
  well_formed body ->
  invalid_amount (num (amount_cents body)) = true ->
  rejection env req d VALIDATION_INVALID_AMOUNT 400 None VALIDATION_FAILED.
Proof.
  intros Had Hj (H1 & H2 & H3) H4. enter_validation Had Hj.
  rewrite H1, H2, H3, H4. finish_rejection.
Qed.

Lemma reject_replay env req d user body :
  authorized env req user -> req_json req = JsonObject body ->
  valid body ->
  replay_rejected (date_now env)
    (date_parse env (str (request_timestamp body))) = true ->
  rejection env req d REPLAY_REJECTED 400 None R_REPLAY_REJECTED.
Proof.
  intros Had Hj ((H1 & H2 & H3) & H4) H5. enter_validation Had Hj.
  rewrite H1, H2, H3, H4. cbn [negb]. rewrite H5. finish_rejection.
Qed.

Lemma reject_user_limit env req d user body :
  authorized env req user -> req_json req = JsonObject body ->
  valid body -> fresh env body ->
  count_ge (user_count env user d) USER_RATE_LIMIT = true ->
  rejection env req d RATE_LIMITED_USER 429 (Some 3600) RATE_LIMITED.
Proof.
  intros Had Hj ((H1 & H2 & H3) & H4) H5 H6. enter_validation Had Hj.
  rewrite H1, H2, H3, H4. cbn [negb]. unfold fresh in H5. rewrite H5.
  unfold rpc_user_rate_count. norm. fold (user_count env user d).
  rewrite H6. finish_rejection.
Qed.

Lemma reject_global_limit env req d user body :
  authorized env req user -> req_json req = JsonObject body ->
  valid body -> fresh env body ->
  count_ge (user_count env user d) USER_RATE_LIMIT = false ->
  count_ge (global_count env d) GLOBAL_RATE_LIMIT = true ->
  rejection env req d RATE_LIMITED_GLOBAL 429 (Some 300) RATE_LIMITED.
Proof.
  intros Had Hj ((H1 & H2 & H3) & H4) H5 H6 H7. enter_validation Had Hj.
  rewrite H1, H2, H3, H4. cbn [negb]. unfold fresh in H5. rewrite H5.
  unfold rpc_user_rate_count, rpc_global_rate_count. norm.
  fold (user_count env user d). rewrite H6. norm.
  fold (global_count env d). rewrite H7. finish_rejection.
Qed.

(** What a rejection shows to the caller and leaves behind. *)
Lemma rejection_facts env req d code http retry result :
  rejection env req d code http retry result ->
  exists resp st data,
    run env req d = (Val resp, st)
    /\ status resp = http
    /\ response_code resp = Some code
    /\ effects st = [AuditInsert (randomUUID env) data]
    /\ a_result data = result
    /\ a_error_code data = Some code
    /\ processed_orders (db st) = processed_orders d.
Proof.
  intros (message & data & Hrun & Hres & Hcode).
  do 2 eexists. exists data.
  split; [exact Hrun|]. split; [reflexivity|]. split; [reflexivity|].
  split; [reflexivity|]. split; [exact Hres|]. split; [exact Hcode|].
  apply audit_st_orders.
Qed.

(** The answer of a request that passes validation and the replay check:
    a rate-limit code or one of the late codes. *)
Lemma after_replay env req d user body resp st :
  authorized env req user -> req_json req = JsonObject body ->
  valid body -> fresh env body ->
  run env req d = (Val resp, st) ->
  response_code resp = Some RATE_LIMITED_USER
  \/ response_code resp = Some RATE_LIMITED_GLOBAL
  \/ In (response_code resp) late_codes.
Proof.
  intros Had Hj Hv Hf Hrun.
  destruct (count_ge (user_count env user d) USER_RATE_LIMIT) eqn:Hcu.
  - left.
    destruct (reject_user_limit _ _ d _ _ Had Hj Hv Hf Hcu)
      as (m & data & Hr & _).
    rewrite Hr in Hrun. inversion Hrun. reflexivity.
  - destruct (count_ge (global_count env d) GLOBAL_RATE_LIMIT) eqn:Hcg.
    + right. left.
      destruct (reject_global_limit _ _ d _ _ Had Hj Hv Hf Hcu Hcg)
        as (m & data & Hr & _).
      rewrite Hr in Hrun. inversion Hrun. reflexivity.
    + right. right. eapply late_response; [|eassumption].
      split; [exact Had|]. split; [exact Hj|]. split; [exact Hv|].
      split; [exact Hf|]. split; assumption.
Qed.

Ltac not_in_late H :=
  cbn in H;
  repeat match type of H with
         | _ \/ _ => destruct H as [H|H]
         end;
  solve [ discriminate | contradiction ].

(** C5. For a request that is authorized and valid: the replay guard lets it
    pass exactly when its timestamp parses and its age lies between -30 s
    and 120 s; otherwise, and only then, the answer is 400 REPLAY_REJECTED.
    Ages of exactly 120 s and -30 s pass, 120.1 s and -30.1 s do not. *)
Theorem replay_guard env req d user body :
  authorized env req user -> req_json req = JsonObject body -> valid body ->
  let now := date_now env in
  let requestTime := date_parse env (str (request_timestamp body)) in
  (replay_rejected now requestTime = false <-> in_window now requestTime)
  /\ (~ in_window now requestTime ->
      exists resp st,
        run env req d = (Val resp, st)
        /\ status resp = 400
        /\ response_code resp = Some REPLAY_REJECTED)
  /\ (in_window now requestTime ->
      forall resp st,
        run env req d = (Val resp, st) ->
        response_code resp <> Some REPLAY_REJECTED)
  /\ (forall t,
        replay_rejected (t + 120000) (Some t) = false
        /\ replay_rejected (t + 120100) (Some t) = true
        /\ replay_rejected (t - 30000) (Some t) = false
        /\ replay_rejected (t - 30100) (Some t) = true).
Proof.
  intros Had Hj Hv now requestTime.
  split; [apply replay_rejected_spec|].
  split.
  { intros Hout.
    assert (Hrej : replay_rejected now requestTime = true).
    { destruct (replay_rejected now requestTime) eqn:E; [reflexivity|].
      exfalso. apply Hout. now apply replay_rejected_spec. }
    destruct (rejection_facts _ _ _ _ _ _ _
                (reject_replay _ _ d _ _ Had Hj Hv Hrej))
      as (resp & st & data & Hrun & Hs & Hc & _).
    now exists resp, st. }
  split.
  { intros Hin resp st Hrun Hcode.
    apply replay_rejected_spec in Hin.
    destruct (after_replay _ _ _ _ _ _ _ Had Hj Hv Hin Hrun) as [H|[H|H]];
      rewrite Hcode in H; try discriminate.
    not_in_late H. }
  intros t. unfold replay_rejected, ageSeconds, gt, lt, of_Z, Qlt_bool,
    Qle_bool, REPLAY_WINDOW_SECONDS.
  cbn [orb Qnum Qden inject_Z].
  repeat split; rewrite ?orb_false_iff, ?orb_true_iff, ?negb_false_iff,
    ?negb_true_iff, ?Z.leb_le, ?Z.leb_gt; lia.
Qed.

Lemma replay_guard_witness :
  authorized Sample.env Sample.req Sample.user
  /\ valid Sample.body
  /\ (replay_rejected (date_now Sample.env)
        (date_parse Sample.env (str (request_timestamp Sample.body)))
      = false
      <-> in_window (date_now Sample.env)
            (date_parse Sample.env (str (request_timestamp Sample.body)))).
Proof.
  assert (Had : authorized Sample.env Sample.req Sample.user)
    by (repeat split; reflexivity).
  assert (Hv : valid Sample.body) by (repeat split; reflexivity).
  split; [exact Had|]. split; [exact Hv|].
  exact (proj1 (replay_guard Sample.env Sample.req Sample.empty_db
                  Sample.user Sample.body Had eq_refl Hv)).
Defined.

(** A stale request: 120.1 s old. *)
Example replay_stale_example :
  let '(res, _) :=
    run (Sample.env_with 1700000120100 None false Sample.fetch_ok)
      Sample.req Sample.empty_db in
  option_map (fun r => (status r, response_code r))
    (match res with Val r => Some r | Throw _ => None end)
  = Some (400, Some REPLAY_REJECTED).
Proof. vm_compute. reflexivity. Qed.

(** The same request at exactly 120 s is served. *)
Example replay_boundary_example :
  let '(res, _) :=
    run (Sample.env_with 1700000120000 None false Sample.fetch_ok)
      Sample.req Sample.empty_db in
  option_map status (match res with Val r => Some r | Throw _ => None end)
  = Some 200.
Proof. vm_compute. reflexivity. Qed.

(** C6. For an authorized request whose earlier checks pass: the amount
    passes validation exactly when it is an integer z with
    0 < z <= 5,000,000; otherwise, and only then, the answer is 400
    VALIDATION_INVALID_AMOUNT. The ceiling passes; the ceiling plus one,
    zero, negative and non-integer amounts do not. *)
Theorem amount_validation env req d user body :
  authorized env req user -> req_json req = JsonObject body ->
  well_formed body ->
  let amount := num (amount_cents body) in
  let accepted := exists z, integer_value amount z /\ 0 < z <= 5000000 in
  (invalid_amount amount = false <-> accepted)
  /\ (~ accepted ->
      exists resp st,
        run env req d = (Val resp, st)
        /\ status resp = 400
        /\ response_code resp = Some VALIDATION_INVALID_AMOUNT)
  /\ (accepted ->
      forall resp st,
        run env req d = (Val resp, st) ->
        response_code resp <> Some VALIDATION_INVALID_AMOUNT)
  /\ invalid_amount (of_Z MAX_AMOUNT_CENTS) = false
  /\ invalid_amount (of_Z (MAX_AMOUNT_CENTS + 1)) = true
  /\ invalid_amount (of_Z 0) = true
  /\ (forall z, z < 0 -> invalid_amount (of_Z z) = true)
  /\ (forall a, isInteger a = false -> invalid_amount a = true).
Proof.
  intros Had Hj Hw amount accepted.
  assert (Hspec : invalid_amount amount = false <-> accepted)
    by apply invalid_amount_spec.
  split; [exact Hspec|].
  split.
  { intros Hno.
    assert (Hinv : invalid_amount amount = true).
    { destruct (invalid_amount amount) eqn:E; [reflexivity|].
      exfalso. apply Hno. now apply Hspec. }
    destruct (rejection_facts _ _ _ _ _ _ _
                (reject_amount _ _ d _ _ Had Hj Hw Hinv))
      as (resp & st & data & Hrun & Hs & Hc & _).
    now exists resp, st. }
  split.
  { intros Hacc resp st Hrun Hcode.
    apply Hspec in Hacc.
    assert (Hv : valid body) by (split; assumption).
    destruct (replay_rejected (date_now env)
                (date_parse env (str (request_timestamp body)))) eqn:Hr.
    - destruct (reject_replay _ _ d _ _ Had Hj Hv Hr) as (m & data & Hq & _).
      rewrite Hq in Hrun. inversion Hrun; subst. discriminate.
    - destruct (after_replay _ _ _ _ _ _ _ Had Hj Hv Hr Hrun) as [H|[H|H]];
        rewrite Hcode in H; try discriminate.
      not_in_late H. }
  split; [reflexivity|]. split; [reflexivity|]. split; [reflexivity|].
  split.
  { intros z Hz. unfold invalid_amount, le, of_Z, Qle_bool.
    cbn [Qnum Qden inject_Z].
    replace (z * 1 <=? 0 * 1) with true by (symmetry; apply Z.leb_le; lia).
    now rewrite orb_true_r. }
  intros a Ha. unfold invalid_amount. now rewrite Ha.
Qed.

Lemma amount_validation_witness :
  authorized Sample.env Sample.req Sample.user
  /\ well_formed Sample.body
  /\ invalid_amount (num (amount_cents Sample.body)) = false.
Proof.
  assert (Had : authorized Sample.env Sample.req Sample.user)
    by (repeat split; reflexivity).
  assert (Hw : well_formed Sample.body) by (repeat split; reflexivity).
  split; [exact Had|]. split; [exact Hw|].
  apply (proj1 (amount_validation Sample.env Sample.req Sample.empty_db
                  Sample.user Sample.body Had eq_refl Hw)).
  exists 3250. split; [|lia].
  eexists. split; reflexivity.
Defined.

(** One cent above the ceiling, and half a cent. *)
Example amount_above_ceiling_example :
  let '(res, _) :=
    run Sample.env (Sample.post (Sample.body_with "7600" (of_Z 5000001)))
      Sample.empty_db in
  option_map (fun r => (status r, response_code r))
    (match res with Val r => Some r | Throw _ => None end)
  = Some (400, Some VALIDATION_INVALID_AMOUNT).
Proof. vm_compute. reflexivity. Qed.

Example amount_fraction_example :
  let '(res, _) :=
    run Sample.env (Sample.post (Sample.body_with "7600" (JFin (1 # 2))))
      Sample.empty_db in
  option_map (fun r => (status r, response_code r))
    (match res with Val r => Some r | Throw _ => None end)
  = Some (400, Some VALIDATION_INVALID_AMOUNT).
Proof. vm_compute. reflexivity. Qed.

Example amount_ceiling_example :
  let '(res, _) :=
    run Sample.env (Sample.post (Sample.body_with "7600" (of_Z 5000000)))
      Sample.empty_db in
  option_map status (match res with Val r => Some r | Throw _ => None end)
  = Some 200.
Proof. vm_compute. reflexivity. Qed.

(** The two limits, for a request that passed the earlier gates. The
    handler compares what each counting rpc returned with its limit: a
    returned count of the caller of at least 10 gives 429
    RATE_LIMITED_USER with retry_after 3600, whatever the global count;
    failing that, a returned global count of at least 50 gives 429
    RATE_LIMITED_GLOBAL with retry_after 300; failing both, neither code
    is answered. An rpc that fails returns no count, and no count is
    below any limit. *)
Theorem rate_limiting_by_returned_counts env req d user body :
  authorized env req user -> req_json req = JsonObject body ->
  valid body -> fresh env body ->
  let user_limited := exists n, user_count env user d = Some n /\ 10 <= n in
  let global_limited := exists n, global_count env d = Some n /\ 50 <= n in
  (user_limited ->
   exists resp st,
     run env req d = (Val resp, st)
     /\ status resp = 429
     /\ response_code resp = Some RATE_LIMITED_USER
     /\ response_retry_after resp = Some 3600)
  /\ (~ user_limited -> global_limited ->
      exists resp st,
        run env req d = (Val resp, st)
        /\ status resp = 429
        /\ response_code resp = Some RATE_LIMITED_GLOBAL
        /\ response_retry_after resp = Some 300)
  /\ (~ user_limited -> ~ global_limited ->
      forall resp st,
        run env req d = (Val resp, st) ->
        response_code resp <> Some RATE_LIMITED_USER
        /\ response_code resp <> Some RATE_LIMITED_GLOBAL)
  /\ (user_count_fails env = true -> ~ user_limited)
  /\ (global_count_fails env = true -> ~ global_limited).
Proof.
  intros Had Hj Hv Hf user_limited global_limited.
  assert (Hge : forall c l, 0 < l ->
            (count_ge c l = true <-> exists n, c = Some n /\ l <= n)).
  { intros c l Hl. unfold count_ge. destruct c as [n|].
    - rewrite Z.leb_le. split.
      + intros H. exists n. split; [reflexivity | exact H].
      + intros (m & E & H). inversion E; subst. exact H.
    - split.
      + intros H. apply Z.leb_le in H. lia.
      + intros (m & E & _). discriminate. }
  assert (Hu : count_ge (user_count env user d) USER_RATE_LIMIT = true
               <-> user_limited)
    by (apply Hge; reflexivity).
  assert (Hg : count_ge (global_count env d) GLOBAL_RATE_LIMIT = true
               <-> global_limited)
    by (apply Hge; reflexivity).
  assert (Hlow : ~ user_limited ->
                 count_ge (user_count env user d) USER_RATE_LIMIT = false).
  { intros Hn.
    destruct (count_ge (user_count env user d) USER_RATE_LIMIT) eqn:E;
      [|reflexivity].
    exfalso. apply Hn, Hu. reflexivity. }
  split.
  { intros Hlim. apply Hu in Hlim.
    destruct (reject_user_limit _ _ d _ _ Had Hj Hv Hf Hlim)
      as (m & data & Hrun & _).
    do 2 eexists. split; [exact Hrun|]. repeat split. }
  split.
  { intros Hn Hlim. apply Hg in Hlim.
    destruct (reject_global_limit _ _ d _ _ Had Hj Hv Hf (Hlow Hn) Hlim)
      as (m & data & Hrun & _).
    do 2 eexists. split; [exact Hrun|]. repeat split. }
  split.
  { intros Hn Hn' resp st Hrun.
    assert (Hc : count_ge (global_count env d) GLOBAL_RATE_LIMIT = false).
    { destruct (count_ge (global_count env d) GLOBAL_RATE_LIMIT) eqn:E;
        [|reflexivity].
      exfalso. apply Hn', Hg. reflexivity. }
    assert (Hr : reaches_ledger env req d user body).
    { split; [exact Had|]. split; [exact Hj|]. split; [exact Hv|].
      split; [exact Hf|]. split; [apply Hlow; exact Hn | exact Hc]. }
    pose proof (late_response _ _ _ _ _ _ _ Hr Hrun) as Hin.
    split; intros Hcode; rewrite Hcode in Hin; not_in_late Hin. }
  split.
  - intros E (n & Hc & _). unfold user_count in Hc. rewrite E in Hc.
    discriminate.
  - intros E (n & Hc & _). unfold global_count in Hc. rewrite E in Hc.
    discriminate.
Qed.

Lemma rate_limiting_by_returned_counts_witness :
  authorized Sample.env Sample.req Sample.user
  /\ exists resp st,
       run Sample.env Sample.req (mkDb [] (Sample.busy_log 10))
       = (Val resp, st)
       /\ status resp = 429
       /\ response_code resp = Some RATE_LIMITED_USER
       /\ response_retry_after resp = Some 3600.
Proof.
  assert (Had : authorized Sample.env Sample.req Sample.user)
    by (repeat split; reflexivity).
  assert (Hv : valid Sample.body) by (repeat split; reflexivity).
  split; [exact Had|].
  apply (proj1 (rate_limiting_by_returned_counts Sample.env Sample.req
                  (mkDb [] (Sample.busy_log 10)) Sample.user Sample.body
                  Had eq_refl Hv eq_refl)).
  exists 10. split; [reflexivity | lia].
Defined.

(** Sixty counted entries of the caller exceed both limits: the caller's
    limit is the one reported. Nine entries of the caller pass. *)
Example rate_limit_both_example :
  let '(res, _) :=
    run Sample.env Sample.req (mkDb [] (Sample.busy_log 60)) in
  option_map (fun r => (status r, response_code r, response_retry_after r))
    (match res with Val r => Some r | Throw _ => None end)
  = Some (429, Some RATE_LIMITED_USER, Some 3600).
Proof. vm_compute. reflexivity. Qed.

Example rate_limit_below_example :
  let '(res, _) :=
    run Sample.env Sample.req (mkDb [] (Sample.busy_log 9)) in
  option_map status (match res with Val r => Some r | Throw _ => None end)
  = Some 200.
Proof. vm_compute. reflexivity. Qed.

(** C9. When a validation rule fails for an authorized request, the answer
    is 400 with the code of the first rule that fails, and the run's only
    effect is its audit entry: no request was sent to the platform and the
    ledger was neither inserted into nor updated. *)
Theorem validation_failure_no_effects env req d user body :
  authorized env req user -> req_json req = JsonObject body ->
  (missing_required body = true
   \/ isValidOrderNumber (str (order_number body)) = false
   \/ isValidEmail (str (customer_email body)) = false
   \/ invalid_amount (num (amount_cents body)) = true) ->
  exists resp st code,
    run env req d = (Val resp, st)
    /\ status resp = 400
    /\ response_code resp = Some code
    /\ validation_code body = Some code
    /\ In code [VALIDATION_MISSING_FIELD; VALIDATION_INVALID_ORDER;
                VALIDATION_INVALID_EMAIL; VALIDATION_INVALID_AMOUNT]
    /\ square_calls (effects st) = []
    /\ ledger_writes (effects st) = []
    /\ processed_orders (db st) = processed_orders d.
Proof.
  intros Had Hj Hbad.
  assert (Hrej : exists code,
             rejection env req d code 400 None VALIDATION_FAILED
             /\ validation_code body = Some code
             /\ In code [VALIDATION_MISSING_FIELD; VALIDATION_INVALID_ORDER;
                         VALIDATION_INVALID_EMAIL;
                         VALIDATION_INVALID_AMOUNT]).
  { unfold validation_code.
    destruct (missing_required body) eqn:H1.
    { eexists. split; [eapply reject_missing; eassumption|].
      split; [reflexivity | cbn; tauto]. }
    destruct (isValidOrderNumber (str (order_number body))) eqn:H2.
    2:{ eexists. split; [eapply reject_order; eassumption|].
        split; [reflexivity | cbn; tauto]. }
    destruct (isValidEmail (str (customer_email body))) eqn:H3.
    2:{ eexists. split; [eapply reject_email; eassumption|].
        split; [reflexivity | cbn; tauto]. }
    destruct (invalid_amount (num (amount_cents body))) eqn:H4.
    { eexists. split; [eapply reject_amount; try eassumption;
                       repeat split; assumption|].
      split; [reflexivity | cbn; tauto]. }
    exfalso. destruct Hbad as [H|[H|[H|H]]]; discriminate. }
  destruct Hrej as (code & Hrej & Hvc & Hin).
  destruct (rejection_facts _ _ _ _ _ _ _ Hrej)
    as (resp & st & data & Hrun & Hs & Hc & He & _ & _ & Hdb).
  exists resp, st, code.
  repeat (split; [assumption|]).
  rewrite He. repeat split; try reflexivity. exact Hdb.
Qed.

Lemma validation_failure_no_effects_witness :
  authorized Sample.env
    (Sample.post (Sample.body_with "76 00" (of_Z 3250))) Sample.user
  /\ exists resp st,
       run Sample.env (Sample.post (Sample.body_with "76 00" (of_Z 3250)))
         Sample.empty_db
       = (Val resp, st)
       /\ status resp = 400
       /\ square_calls (effects st) = []
       /\ ledger_writes (effects st) = [].
Proof.
  assert (Had : authorized Sample.env
                  (Sample.post (Sample.body_with "76 00" (of_Z 3250)))
                  Sample.user)
    by (repeat split; reflexivity).
  split; [exact Had|].
  destruct (validation_failure_no_effects Sample.env
              (Sample.post (Sample.body_with "76 00" (of_Z 3250)))
              Sample.empty_db Sample.user
              (Sample.body_with "76 00" (of_Z 3250)) Had eq_refl)
    as (resp & st & code & Hrun & Hs & _ & _ & _ & Hq & Hl & _).
  - right. left. reflexivity.
  - exists resp, st. split; [exact Hrun|]. split; [exact Hs|].
    split; [exact Hq | exact Hl].
Defined.

(* ====================================================================== *)
(** ** The ledger and the orchestration *)
(* ====================================================================== *)

Lemma square_requests_app a b :
  square_requests (a ++ b) = (square_requests a ++ square_requests b)%list.
Proof.
  induction a as [|e a IH]; [reflexivity|].
  destruct e; cbn; rewrite IH; reflexivity.
Qed.

Lemma square_calls_requests es :
  square_requests es = [] -> square_calls es = [].
Proof.
  induction es as [|e es IH]; [reflexivity|].
  destruct e; cbn; try discriminate; exact IH.
Qed.

Lemma steps_writes_app a b :
  steps_writes (a ++ b) = (steps_writes a ++ steps_writes b)%list.
Proof.
  induction a as [|e a IH]; [reflexivity|].
  destruct e as [| |id u|]; cbn; try exact IH.
  destruct (u_steps_completed u); cbn; now rewrite IH.
Qed.

Lemma audit_count_app a b :
  audit_count (a ++ b) = (audit_count a + audit_count b)%nat.
Proof. unfold audit_count. now rewrite filter_app, length_app. Qed.

Lemma last_cons_nonempty {A} (x y : A) l d :
  last (x :: y :: l) d = last (y :: l) d.
Proof. reflexivity. Qed.

Lemma last_Some_app {A} (a b : list A) x :
  last (map Some b) None = Some x ->
  last (map Some (a ++ b)) None = Some x.
Proof.
  intros H. destruct b as [|y b]; [discriminate|].
  induction a as [|z a IH]; [exact H|].
  cbn [app map]. destruct (a ++ y :: b)%list eqn:E.
  - destruct a; discriminate.
  - cbn [map]. rewrite last_cons_nonempty. exact IH.
Qed.

Lemma last_effect_app a b x :
  last_effect b = Some x -> last_effect (a ++ b) = Some x.
Proof. apply last_Some_app. Qed.

Lemma last_request_app a b rq :
  last_request b = Some rq -> last_request (a ++ b) = Some rq.
Proof.
  unfold last_request. rewrite square_requests_app. apply last_Some_app.
Qed.

Lemma last_request_quiet a b :
  square_requests b = [] -> last_request (a ++ b) = last_request a.
Proof.
  intros H. unfold last_request. rewrite square_requests_app, H.
  now rewrite app_nil_r.
Qed.

Lemma find_order_app_new on rows r :
  find_order on rows = None -> po_order_number r = on ->
  find_order on (rows ++ [r]) = Some r.
Proof.
  unfold find_order. intros Hn Hr.
  induction rows as [|x rows IH]; cbn in *.
  - rewrite Hr, String.eqb_refl. reflexivity.
  - destruct (po_order_number x =? on)%string; [discriminate | auto].
Qed.

(** The state in which the orchestration starts, and the row it works on. *)
Lemma run_reaches_saga env req d user body pid :
  reaches_saga env req d user body pid ->
  exists e d',
    run env req d
    = saga env user (randomUUID env)
        ("cultivera-" ++ str (order_number body)) (str (order_number body))
        (str (customer_name body)) (str (customer_email body))
        (num (amount_cents body)) (str (request_timestamp body)) pid
        (str (SQUARE_ACCESS_TOKEN env)) (str (SQUARE_LOCATION_ID env))
        (mkSt d' [e] init_locals)
    /\ is_ledger_write e = true
    /\ steps_writes [e] = []
    /\ holds_row (str (order_number body)) pid (processed_orders d')
    /\ (forall r, find_order (str (order_number body)) (processed_orders d)
                  = Some r ->
                  e = OrdersUpdate (po_id r) (reset_update env)).
Proof.
  intros [Hr Hrow]. rewrite (run_reaches_ledger _ _ _ _ _ Hr).
  destruct (find_order (str (order_number body)) (processed_orders d))
    as [r|] eqn:Hf.
  - destruct Hrow as [Hs ->].
    rewrite (process_reuse _ _ _ _ _ _ _ _ _ _ (init_st d) r Hf Hs).
    do 2 eexists. split; [reflexivity|]. split; [reflexivity|].
    split; [reflexivity|]. split.
    + apply holds_row_update. now exists r.
    + intros r' Hr'. inversion Hr'; subst. reflexivity.
  - destruct Hrow as [Hi ->].
    rewrite (process_insert _ _ _ _ _ _ _ _ _ _ (init_st d) Hf Hi).
    do 2 eexists. split; [reflexivity|]. split; [reflexivity|].
    split; [reflexivity|]. split.
    + eexists. split; [apply find_order_app_new; [exact Hf|]|]; reflexivity.
    + intros r' Hr'. discriminate.
Qed.

(** A request for a completed order, or one whose insert loses the race,
    sends nothing to the platform, whatever gate it stops at. *)
Lemma duplicate_never_invoiced env req d body :
  req_json req = JsonObject body ->
  (exists r, find_order (str (order_number body)) (processed_orders d)
             = Some r /\ po_status r = completed)
  \/ (find_order (str (order_number body)) (processed_orders d) = None
      /\ insert_error env = Some "23505") ->
  square_requests (effects (snd (run env req d))) = [].
Proof.
  intros Hj Hdup.
  destruct (run_front env req d)
    as [(resp & Hrun & _) | [(resp & data & Hrun & _)
       | [(e & Hrun & _) | (user & body' & Hr)]]].
  1-3: rewrite Hrun; reflexivity.
  assert (body' = body).
  { pose proof Hr as (_ & Hj' & _). rewrite Hj in Hj'. now inversion Hj'. }
  subst body'. rewrite (run_reaches_ledger _ _ _ _ _ Hr).
  destruct Hdup as [(r & Hf & Hs) | (Hf & Hi)].
  - rewrite (process_completed _ _ _ _ _ _ _ _ _ _ (init_st d) r Hf Hs). reflexivity.
  - rewrite (process_conflict _ _ _ _ _ _ _ _ _ _ (init_st d) Hf Hi). reflexivity.
Qed.

(** C1. A request whose order number already has a completed ledger row,
    and a request whose insert of a new row fails with the uniqueness
    conflict 23505, send nothing to the platform; when they get as far as
    the ledger they are answered 409 DUPLICATE_ORDER. *)
Theorem duplicate_order_blocked env req d body :
  req_json req = JsonObject body ->
  (exists r, find_order (str (order_number body)) (processed_orders d)
             = Some r /\ po_status r = completed)
  \/ (find_order (str (order_number body)) (processed_orders d) = None
      /\ insert_error env = Some "23505") ->
  square_calls (effects (snd (run env req d))) = []
  /\ forall user,
       reaches_ledger env req d user body ->
       exists resp st data,
         run env req d = (Val resp, st)
         /\ status resp = 409
         /\ response_code resp = Some DUPLICATE_ORDER
         /\ last_effect (effects st)
            = Some (AuditInsert (randomUUID env) data)
         /\ a_result data = DUPLICATE_BLOCKED.
Proof.
  intros Hj Hdup. split.
  { apply square_calls_requests.
    exact (duplicate_never_invoiced env req d body Hj Hdup). }
  intros user Hr. rewrite (run_reaches_ledger _ _ _ _ _ Hr).
  destruct Hdup as [(r & Hf & Hs) | (Hf & Hi)].
  - rewrite (process_completed _ _ _ _ _ _ _ _ _ _ (init_st d) r Hf Hs).
    do 3 eexists. repeat split.
  - rewrite (process_conflict _ _ _ _ _ _ _ _ _ _ (init_st d) Hf Hi).
    do 3 eexists. repeat split.
Qed.

Lemma duplicate_order_blocked_witness :
  reaches_ledger Sample.env Sample.req
    (Sample.db_with completed ["customer_search"]) Sample.user Sample.body
  /\ exists resp st,
       run Sample.env Sample.req
         (Sample.db_with completed ["customer_search"])
       = (Val resp, st)
       /\ status resp = 409
       /\ response_code resp = Some DUPLICATE_ORDER.
Proof.
  assert (Hr : reaches_ledger Sample.env Sample.req
                 (Sample.db_with completed ["customer_search"])
                 Sample.user Sample.body)
    by (repeat split; reflexivity).
  split; [exact Hr|].
  destruct (duplicate_order_blocked Sample.env Sample.req
              (Sample.db_with completed ["customer_search"]) Sample.body
              eq_refl) as [_ H].
  - left. eexists. split; reflexivity.
  - destruct (H Sample.user Hr) as (resp & st & data & Hrun & Hs & Hc & _).
    exists resp, st. split; [exact Hrun|]. split; [exact Hs | exact Hc].
Defined.

(** The loser of a race between two first requests. *)
Example duplicate_race_example :
  let '(res, st) :=
    run (Sample.env_with 1700000000000 (Some "23505") false Sample.fetch_ok)
      Sample.req Sample.empty_db in
  option_map (fun r => (status r, response_code r))
    (match res with Val r => Some r | Throw _ => None end)
  = Some (409, Some DUPLICATE_ORDER)
  /\ square_calls (effects st) = [].
Proof. vm_compute. split; reflexivity. Qed.

(** A retry of an order that failed after its order was created repeats
    every call, from the search on, with the same keys. *)
Example retry_example :
  let '(_, st) :=
    run Sample.env Sample.req
      (Sample.db_with failed
         ["customer_search"; "customer_found"; "order_created"]) in
  map (fun rq => (sq_endpoint rq, sq_idempotency_header rq))
    (square_requests (effects st))
  = [("/customers/search", None); ("/customers", Some "cust-7600");
     ("/orders", Some "ord-7600"); ("/invoices", Some "inv-7600");
     ("/invoices/INV-1", None);
     ("/invoices/INV-1/publish", Some "pub-7600")].
Proof. vm_compute. reflexivity. Qed.

(** The effects of the ledger stage: what precedes the orchestration, or
    the whole of a run that ends there. *)
Lemma process_order_trace env user cid on cn ce amt ts tok loc d :
  let '(res, st) :=
    process_order env user cid on cn ce amt ts tok loc (init_st d) in
  (exists e es,
     effects st = e :: es
     /\ is_ledger_write e = true /\ steps_writes [e] = []
     /\ saga_trace env on ce res es)
  \/ (steps_writes (effects st) = []
      /\ match res with
         | Val _ =>
             audit_count (effects st) = 1%nat
             /\ exists c data,
                  last_effect (effects st) = Some (AuditInsert c data)
         | Throw _ => True
         end).
Proof.
  destruct (find_order on (processed_orders d)) as [r|] eqn:Hf.
  - destruct (po_status r) eqn:Hs.
    1,2,4: rewrite (process_reuse _ _ _ _ _ _ _ _ _ _ (init_st d) r Hf)
             by congruence;
           unfold emit_st;
           match goal with
           | |- context [saga ?e ?u ?c ?ik ?o ?n ?m ?a ?t ?p ?k ?l
                           (mkSt ?d ?es _)] =>
               destruct (saga_runs e u c ik o n m a t p k l d es)
                 as (resp & st & es' & Hrun & He & Ht)
           end;
           rewrite Hrun; left; do 2 eexists;
           (split; [exact He|]); (split; [reflexivity|]);
           (split; [reflexivity|]); exact Ht.
    rewrite (process_completed _ _ _ _ _ _ _ _ _ _ (init_st d) r Hf Hs).
    right. split; [reflexivity|]. split; [reflexivity|].
    do 2 eexists. reflexivity.
  - destruct (insert_error env) as [c|] eqn:Hi.
    + destruct (c =? "23505")%string eqn:Hc.
      * apply String.eqb_eq in Hc. subst c.
        rewrite (process_conflict _ _ _ _ _ _ _ _ _ _ (init_st d) Hf Hi).
        right. split; [reflexivity|]. split; [reflexivity|].
        do 2 eexists. reflexivity.
      * rewrite (process_insert_error _ _ _ _ _ _ _ _ _ _ (init_st d) c
                   Hf Hi Hc).
        right. split; [reflexivity | exact I].
    + rewrite (process_insert _ _ _ _ _ _ _ _ _ _ (init_st d) Hf Hi).
      unfold emit_st.
      match goal with
      | |- context [saga ?e ?u ?c ?ik ?o ?n ?m ?a ?t ?p ?k ?l
                      (mkSt ?d ?es _)] =>
          destruct (saga_runs e u c ik o n m a t p k l d es)
            as (resp & st & es' & Hrun & He & Ht)
      end.
      rewrite Hrun. left. do 2 eexists.
      split; [exact He|]. split; [reflexivity|].
      split; [reflexivity|]. exact Ht.
Qed.

(** C8, as stated, fails across attempts: the ledger row of a failed order
    records four steps; the retry, on which the platform refuses the
    order, writes two steps over them. *)
Lemma steps_completed_shrinks_on_retry :
  let stored :=
    ["customer_search"; "customer_created"; "order_created";
     "invoice_created"] in
  let d := Sample.db_with failed stored in
  let '(_, st) :=
    run (Sample.env_with 1700000000000 None false Sample.fetch_order_refused)
      Sample.req d in
  map po_steps_completed (processed_orders d) = [stored]
  /\ steps_writes (effects st)
     = [["customer_search"; "customer_created"];
        ["customer_search"; "customer_created"]]
  /\ map po_steps_completed (processed_orders (db st))
     = [["customer_search"; "customer_created"]]
  /\ ~ incl stored ["customer_search"; "customer_created"].
Proof.
  vm_compute. repeat split.
  intros H. specialize (H "order_created" (or_intror (or_intror (or_introl eq_refl)))).
  destruct H as [H|[H|[]]]; discriminate.
Qed.

Lemma with_audit_insert_fails_same env :
  with_audit_insert_fails (audit_insert_fails env) env = env.
Proof. destruct env; reflexivity. Qed.

(** C3, as amended. A run that returns a response for a POST on a
    configured server has issued exactly one insert into the audit table,
    as its last effect; a run that returns before that (preflight, another
    method, missing configuration) has issued none; and the response is
    the same whether the audit table accepts the entry or fails. *)
Theorem audit_exactly_once env req d resp st :
  run env req d = (Val resp, st) ->
  (req_method req = "POST" /\ config_missing env = false ->
   audit_count (effects st) = 1%nat
   /\ exists cid data, last_effect (effects st) = Some (AuditInsert cid data))
  /\ (req_method req <> "POST" \/ config_missing env = true ->
      effects st = [])
  /\ forall fails,
       fst (run (with_audit_insert_fails fails env) req d) = Val resp.
Proof.
  intros Hrun.
  assert (Hind : forall fails,
             fst (run (with_audit_insert_fails fails env) req d) = Val resp).
  { intros fails. unfold run.
    rewrite (handler_audit_irrelevant fails (audit_insert_fails env)).
    rewrite with_audit_insert_fails_same. fold (run env req d).
    now rewrite Hrun. }
  assert (Hgate : forall b, (req_method req =? "POST")%string = b ->
            config_missing env = false ->
            b = true ->
            ~ (req_method req <> "POST" \/ config_missing env = true)).
  { intros b Hb Hc -> [H|H]; [|congruence].
    apply H. now apply String.eqb_eq. }
  destruct (run_front env req d)
    as [(resp' & Hrun' & Hno) | [(resp' & data & Hrun' & Hp & Hc & _)
       | [(e & Hrun' & _) | (user & body & Hr)]]].
  - rewrite Hrun' in Hrun. inversion Hrun; subst.
    split; [|split; [reflexivity | exact Hind]].
    intros [Hm Hc]. exfalso. destruct Hno as [Hno|Hno]; [|congruence].
    rewrite Hm in Hno. discriminate.
  - rewrite Hrun' in Hrun. inversion Hrun; subst.
    split; [|split; [|exact Hind]].
    + intros _. split; [reflexivity|]. do 2 eexists. reflexivity.
    + intros Hbad. exfalso. exact (Hgate _ Hp Hc eq_refl Hbad).
  - rewrite Hrun' in Hrun. discriminate.
  - pose proof Hr as (((Hm & Hc & _) & _) & _).
    assert (Hp : (req_method req =? "POST")%string = true)
      by (rewrite Hm; reflexivity).
    rewrite (run_reaches_ledger _ _ _ _ _ Hr) in Hrun.
    match type of Hrun with
    | process_order ?e ?u ?c ?o ?n ?m ?a ?t ?k ?l (init_st ?d) = _ =>
        pose proof (process_order_trace e u c o n m a t k l d) as H
    end.
    rewrite Hrun in H.
    split; [|split; [|exact Hind]].
    2:{ intros Hbad. exfalso. exact (Hgate _ Hp Hc eq_refl Hbad). }
    intros _.
    destruct H as [(e & es & He & Hl & _ & Ht) | (_ & Hc1 & Hlast)].
    + destruct Ht as (Hcount & (c & data & Hlast) & _).
      rewrite He. change (e :: es) with ([e] ++ es)%list.
      split.
      * rewrite audit_count_app, Hcount.
        destruct e; try discriminate; reflexivity.
      * exists c, data. now apply last_effect_app.
    + split; [exact Hc1 | exact Hlast].
Qed.

Lemma audit_exactly_once_witness :
  audit_count
    (effects (snd (run Sample.env Sample.req Sample.empty_db))) = 1%nat.
Proof.
  destruct (run Sample.env Sample.req Sample.empty_db) as [res st] eqn:Hrun.
  assert (Hv : res = Val (mkResponse 200 (Some "corr-1")
                            (SuccessBody "corr-1" (Some "CUST-1")
                               (Some "ORD-1") (Some "INV-1")
                               (Some "000042")))).
  { pose proof (f_equal fst Hrun) as H. cbn [fst] in H. rewrite <- H.
    vm_compute. reflexivity. }
  subst res.
  exact (proj1 (proj1 (audit_exactly_once Sample.env Sample.req
                         Sample.empty_db _ st Hrun)
                  (conj eq_refl eq_refl))).
Defined.

(** C3, as stated, fails: a GET is answered 405 and a POST on a server
    without its configuration is answered 500, both without any audit
    entry. *)
Lemma no_audit_on_method_not_allowed :
  (let '(res, st) :=
     run Sample.env
       (mkRequest "GET" (Some "Bearer jwt-1") (JsonObject Sample.body))
       Sample.empty_db in
   option_map status (match res with Val r => Some r | Throw _ => None end)
   = Some 405
   /\ audit_count (effects st) = 0%nat)
  /\ (let '(res, st) :=
        run (mkEnv None None None None "corr-1" 1700000000000 Sample.parse
               (fun _ => "0.0") (fun _ => EmptyString) "2023-12-14" Sample.getUser
               (fun _ => Some true) false false 1700000000000 None "row-1"
               false Sample.fetch_ok)
          Sample.req Sample.empty_db in
      option_map status
        (match res with Val r => Some r | Throw _ => None end)
      = Some 500
      /\ audit_count (effects st) = 0%nat).
Proof. vm_compute. repeat split. Qed.

(** The audit table fails: the caller sees the same success. *)
Example audit_failure_example :
  fst (run (Sample.env_with 1700000000000 None true Sample.fetch_ok)
         Sample.req Sample.empty_db)
  = fst (run Sample.env Sample.req Sample.empty_db)
  /\ invoice_audit_log
       (db (snd (run (Sample.env_with 1700000000000 None true
                        Sample.fetch_ok)
                   Sample.req Sample.empty_db)))
     = [].
Proof. vm_compute. split; reflexivity. Qed.

(** C2, as amended. A request that reaches the orchestration is answered,
    and either with 200, every call having been answered without error,
    or with 500. In the second case the code is the one selected by the
    furthest step missing from the steps completed; the last effects are
    the ledger update to failed and then the audit entry; the ledger row
    ends with status failed and with error_message equal to the message
    of the thrown error. That message goes with the last request sent:
    when the platform reported errors for it, the message is the label
    of the call that sent it followed by the platform's first detail;
    when fetch threw, it is the message fetch threw with; when the answer
    lacks the object that the call reads from, it is the message of that
    failed read. *)
Theorem saga_failure_reported env req d user body pid :
  reaches_saga env req d user body pid ->
  exists resp st,
    run env req d = (Val resp, st)
    /\ ((status resp = 200
         /\ Forall (answered env) (square_requests (effects st)))
        \/ (status resp = 500
            /\ exists l msg rq,
                 response_code resp = Some (classify (stepsCompleted l))
                 /\ furthest_missing (stepsCompleted l)
                      (classify (stepsCompleted l))
                 /\ last_request (effects st) = Some rq
                 /\ failure_of env rq (ErrorObject msg)
                 /\ (exists es data,
                       effects st
                       = (es ++ [OrdersUpdate pid (failure_update l msg);
                                 AuditInsert (randomUUID env) data])%list
                       /\ a_result data = FAILURE
                       /\ a_error_message data = Some msg)
                 /\ exists r,
                      find_order (str (order_number body))
                        (processed_orders (db st)) = Some r
                      /\ po_status r = failed
                      /\ po_error_message r = Some msg
                      /\ po_steps_completed r = stepsCompleted l)).
Proof.
  intros Hreach.
  destruct (run_reaches_saga _ _ _ _ _ _ Hreach)
    as (e0 & d' & Hrun & Hlw & _ & Hrow & _).
  rewrite Hrun.
  match goal with
  | |- context [saga ?e ?u ?c ?ik ?o ?n ?m ?a ?t ?p ?k ?l (mkSt ?d ?es _)] =>
      pose proof (saga_try_failure e u c ik o n m a t p k l d es) as Htry;
      pose proof (saga_trace_ok e u c ik o n m a t p k l d es) as Htrace;
      destruct (saga_try e u c ik o n m a t p k l (mkSt d es init_locals))
        as [[r|err] st1] eqn:Etry
  end.
  - (* the try block returned *)
    rewrite (saga_of_val _ _ _ _ _ _ _ _ _ _ _ _ _ _ _ Etry) in Htrace |- *.
    destruct Htrace as (es & He & _ & _ & _ & _ & _ & r' & Hr' & Hcase).
    inversion Hr'; subst r'.
    exists r, st1. split; [reflexivity|]. left. split; [exact Htry|].
    destruct Hcase as [(_ & _ & Hans & _) | (H500 & _)].
    + rewrite He. destruct e0; try discriminate; exact Hans.
    + rewrite Htry in H500. discriminate.
  - (* the try block threw *)
    rewrite (saga_of_throw _ _ _ _ _ _ _ _ _ _ _ _ _ _ _ Etry).
    destruct Htry as (Hcasc & Hkeep & es & rq & He & Hlast & Hfail).
    pose proof Hfail as (msg & Hmsg & _). subst err.
    do 2 eexists. split; [reflexivity|]. right.
    split; [reflexivity|].
    exists (locals st1), msg, rq.
    split; [reflexivity|]. split; [exact Hcasc|].
    split.
    { rewrite audit_st_effects. cbn [effects].
      rewrite last_request_quiet by reflexivity.
      rewrite last_request_quiet by reflexivity.
      rewrite He. now apply last_request_app. }
    split; [exact Hfail|].
    split.
    { rewrite audit_st_effects. cbn [effects errorMessage_of].
      exists (effects st1). eexists.
      split; [now rewrite <- app_assoc|]. split; reflexivity. }
    rewrite audit_st_orders. cbn [db processed_orders errorMessage_of].
    destruct (Hkeep Hrow) as (r1 & Hf1 & Hid1).
    rewrite find_order_update, Hf1. cbn [option_map].
    rewrite Hid1, String.eqb_refl.
    eexists. split; [reflexivity|]. repeat split.
Qed.

Lemma saga_failure_reported_witness :
  reaches_saga
    (Sample.env_with 1700000000000 None false Sample.fetch_order_refused)
    Sample.req Sample.empty_db Sample.user Sample.body "row-1"
  /\ exists resp st,
       run (Sample.env_with 1700000000000 None false
              Sample.fetch_order_refused)
         Sample.req Sample.empty_db
       = (Val resp, st)
       /\ (status resp = 200 \/ status resp = 500).
Proof.
  assert (Hr : reaches_saga
                 (Sample.env_with 1700000000000 None false
                    Sample.fetch_order_refused)
                 Sample.req Sample.empty_db Sample.user Sample.body "row-1")
    by (repeat split; reflexivity).
  split; [exact Hr|].
  destruct (saga_failure_reported _ _ _ _ _ _ Hr)
    as (resp & st & Hrun & [[H _] | [H _]]);
    exists resp, st; (split; [exact Hrun|]); [left | right]; exact H.
Defined.

(** C2, as stated, fails on the error message: the platform's detail is
    "Location is not active", the row's error_message is that detail
    behind the label of the failing call. *)
Lemma error_message_is_labelled :
  let env :=
    Sample.env_with 1700000000000 None false Sample.fetch_order_refused in
  let '(res, st) := run env Sample.req Sample.empty_db in
  option_map (fun r => (status r, response_code r))
    (match res with Val r => Some r | Throw _ => None end)
  = Some (500, Some SQUARE_ORDER_ERROR)
  /\ option_map (fun rq =>
       match square_fetch env rq with
       | FetchJson j => option_map first_detail (j_errors j)
       | FetchThrows _ => None
       end) (last_request (effects st))
     = Some (Some "Location is not active")
  /\ map po_error_message (processed_orders (db st))
     = [Some "Order creation failed: Location is not active"]
  /\ Some "Order creation failed: Location is not active"
     <> Some "Location is not active".
Proof. vm_compute. repeat split. discriminate. Qed.

(** A customer creation that fails after a successful search is reported
    under the order's code: the cascade of the [catch] block looks at the
    steps completed, not at the call that failed. *)
Example customer_creation_failure_code :
  let fetch rq :=
    match sq_body rq with
    | CustomerBody _ _ _ _ =>
        Sample.reply (Some [mkSquareError "INVALID_REQUEST_ERROR"
                              "INVALID_EMAIL_ADDRESS" "Invalid email"])
          None None None None
    | _ => Sample.fetch_ok rq
    end in
  let '(res, st) :=
    run (Sample.env_with 1700000000000 None false fetch) Sample.req
      Sample.empty_db in
  option_map response_code
    (match res with Val r => Some r | Throw _ => None end)
  = Some (Some SQUARE_ORDER_ERROR)
  /\ map po_steps_completed (processed_orders (db st))
     = [["customer_search"]].
Proof. vm_compute. split; reflexivity. Qed.

(* ====================================================================== *)
(** ** The validators and the name split *)
(* ====================================================================== *)



Lemma append_eq_nil (a b : string) : a ++ b = EmptyString -> a = EmptyString /\ b = EmptyString.
Proof. destruct a; cbn; [auto | discriminate]. Qed.

Lemma seq_inv r1 r2 s :
  matches (Seq r1 r2) s ->
  exists s1 s2, s = s1 ++ s2 /\ matches r1 s1 /\ matches r2 s2.
Proof. intros H. inversion H; subst. eauto. Qed.

Lemma class_inv p s :
  matches (Class p) s -> exists c, s = String c EmptyString /\ p c = true.
Proof. intros H. inversion H; subst. eauto. Qed.

Lemma nullable_spec r : nullable r = true <-> matches r EmptyString.
Proof.
  induction r as [| |p|r1 IH1 r2 IH2|r1 IH1 r2 IH2|r IH]; cbn.
  - split; [discriminate | intros H; inversion H].
  - split; [constructor | reflexivity].
  - split; [discriminate | intros H; inversion H].
  - rewrite andb_true_iff, IH1, IH2. split.
    + intros [H1 H2]. exact (m_seq _ _ EmptyString EmptyString H1 H2).
    + intros H. apply seq_inv in H. destruct H as (s1 & s2 & E & H1 & H2).
      symmetry in E. apply append_eq_nil in E. destruct E; subst. auto.
  - rewrite orb_true_iff, IH1, IH2. split.
    + intros [H|H]; [now apply m_alt_l | now apply m_alt_r].
    + intros H. inversion H; subst; auto.
  - split; [constructor | reflexivity].
Qed.

Lemma star_cons_inv r c s :
  matches (Star r) (String c s) ->
  exists s1 s2, s = s1 ++ s2 /\ matches r (String c s1)
                /\ matches (Star r) s2.
Proof.
  intros H. remember (Star r) as r' eqn:Er.
  remember (String c s) as s' eqn:Es.
  revert c s Es.
  induction H as [| | | | | |r0 s1 s2 H1 _ H2 IH2]; intros x y Es;
    try discriminate.
  inversion Er; subst r0.
  destruct s1 as [|c1 s1]; cbn in Es.
  - apply IH2; [reflexivity | exact Es].
  - inversion Es; subst. now exists s1, s2.
Qed.

Lemma deriv_spec c r s : matches (deriv c r) s <-> matches r (String c s).
Proof.
  revert s.
  induction r as [| |p|r1 IH1 r2 IH2|r1 IH1 r2 IH2|r IH]; intros s; cbn.
  - split; intros H; inversion H.
  - split; intros H; inversion H.
  - destruct (p c) eqn:Hp; split; intros H.
    + inversion H; subst. now apply (m_class p c).
    + apply class_inv in H. destruct H as (c' & E & _). inversion E; subst.
      constructor.
    + inversion H.
    + apply class_inv in H. destruct H as (c' & E & Hc). inversion E; subst.
      congruence.
  - assert (Hseq : matches (Seq (deriv c r1) r2) s
                   -> matches (Seq r1 r2) (String c s)).
    { intros H. apply seq_inv in H. destruct H as (s1 & s2 & -> & H1 & H2).
      apply IH1 in H1. exact (m_seq _ _ (String c s1) s2 H1 H2). }
    assert (Hinv : matches (Seq r1 r2) (String c s)
                   -> matches (Seq (deriv c r1) r2) s
                      \/ (matches r1 EmptyString /\ matches r2 (String c s))).
    { intros H. apply seq_inv in H. destruct H as (s1 & s2 & E & H1 & H2).
      destruct s1 as [|c1 s1]; cbn in E.
      - right. subst. auto.
      - inversion E; subst. left. apply m_seq; [now apply IH1 | exact H2]. }
    destruct (nullable r1) eqn:Hn.
    + split.
      * intros H. inversion H; subst; [now apply Hseq|].
        apply (m_seq r1 r2 EmptyString (String c s)).
        -- now apply nullable_spec.
        -- now apply IH2.
      * intros H. destruct (Hinv H) as [H'|[_ H']].
        -- now apply m_alt_l.
        -- apply m_alt_r. now apply IH2.
    + split; [exact Hseq|].
      intros H. destruct (Hinv H) as [H'|[H' _]]; [exact H'|].
      apply nullable_spec in H'. congruence.
  - split; intros H; inversion H; subst.
    + apply m_alt_l. now apply IH1.
    + apply m_alt_r. now apply IH2.
    + apply m_alt_l. now apply IH1.
    + apply m_alt_r. now apply IH2.
  - split.
    + intros H. apply seq_inv in H. destruct H as (s1 & s2 & -> & H1 & H2).
      apply IH in H1. exact (m_star_cons r (String c s1) s2 H1 H2).
    + intros H. apply star_cons_inv in H.
      destruct H as (s1 & s2 & -> & H1 & H2).
      apply m_seq; [now apply IH | exact H2].
Qed.

(** The derivative matcher decides matching. *)
Lemma test_spec r s : test r s = true <-> matches r s.
Proof.
  revert r. induction s as [|c s IH]; intros r; cbn.
  - apply nullable_spec.
  - rewrite IH. apply deriv_spec.
Qed.

Lemma star_class_spec p s :
  matches (Star (Class p)) s <-> all_chars p s = true.
Proof.
  split.
  - intros H. remember (Star (Class p)) as r eqn:Er.
    induction H as [| | | | | |r0 s1 s2 H1 _ H2 IH2]; try discriminate.
    + reflexivity.
    + inversion Er; subst r0. apply class_inv in H1.
      destruct H1 as (c & -> & Hc). cbn.
      rewrite andb_true_iff. split; [assumption | now apply IH2].
  - induction s as [|c s IH]; cbn.
    + intros _. constructor.
    + rewrite andb_true_iff. intros [Hc Hs].
      apply (m_star_cons (Class p) (String c EmptyString) s).
      * now constructor.
      * now apply IH.
Qed.

Lemma plus_class_spec p s :
  matches (Plus (Class p)) s <-> s <> EmptyString /\ all_chars p s = true.
Proof.
  unfold Plus. split.
  - intros H. apply seq_inv in H. destruct H as (s1 & s2 & -> & H1 & H2).
    apply class_inv in H1. destruct H1 as (c & -> & Hc).
    cbn. split; [discriminate|].
    rewrite andb_true_iff. split; [assumption | now apply star_class_spec].
  - intros [Hne Hall]. destruct s as [|c s]; [congruence|].
    cbn in Hall. rewrite andb_true_iff in Hall. destruct Hall as [Hc Hs].
    apply (m_seq (Class p) (Star (Class p)) (String c EmptyString) s).
    + now constructor.
    + now apply star_class_spec.
Qed.

Lemma class_eqb_spec a s :
  matches (Class (Ascii.eqb a)) s <-> s = String a EmptyString.
Proof.
  split.
  - intros H. apply class_inv in H. destruct H as (c & -> & Hc).
    apply Ascii.eqb_eq in Hc. now subst.
  - intros ->. constructor. apply Ascii.eqb_refl.
Qed.

(** [isValidOrderNumber] accepts exactly the strings of 1 to 50 characters
    that are all letters, digits or dashes. *)
Theorem isValidOrderNumber_spec s :
  isValidOrderNumber s = true
  <-> all_chars order_char s = true
      /\ (1 <= String.length s <= 50)%nat.
Proof.
  unfold isValidOrderNumber, orderRegex.
  rewrite !andb_true_iff, test_spec, plus_class_spec, Z.ltb_lt, Z.leb_le.
  split.
  - intros [[[_ Hall] Hpos] Hmax]. split; [exact Hall | lia].
  - intros [Hall [Hpos Hmax]]. repeat split; try lia; try assumption.
    destruct s; [cbn in Hpos; lia | discriminate].
Qed.

(** [isValidEmail] accepts exactly the strings [local@domain.tail] whose
    three parts are non-empty and free of white space and of [@]; the
    domain and the tail may contain dots. *)
Theorem isValidEmail_spec s :
  isValidEmail s = true
  <-> exists l d t,
        s = l ++ "@" ++ d ++ "." ++ t
        /\ l <> EmptyString /\ d <> EmptyString /\ t <> EmptyString
        /\ all_chars not_space_or_at l = true
        /\ all_chars not_space_or_at d = true
        /\ all_chars not_space_or_at t = true.
Proof.
  unfold isValidEmail, emailRegex. rewrite test_spec. split.
  - intros H.
    apply seq_inv in H. destruct H as (l & s1 & -> & Hl & H1).
    apply seq_inv in H1. destruct H1 as (a & s2 & -> & Ha & H2).
    apply seq_inv in H2. destruct H2 as (d & s3 & -> & Hd & H3).
    apply seq_inv in H3. destruct H3 as (b & t & -> & Hb & Ht).
    apply plus_class_spec in Hl, Hd, Ht.
    apply class_eqb_spec in Ha, Hb. subst a b.
    exists l, d, t. cbn. tauto.
  - intros (l & d & t & -> & Hl & Hd & Ht & Al & Ad & At).
    apply m_seq; [apply plus_class_spec; auto|].
    apply (m_seq _ _ "@"); [now apply class_eqb_spec|].
    apply m_seq; [apply plus_class_spec; auto|].
    apply (m_seq _ _ "."); [now apply class_eqb_spec|].
    apply plus_class_spec; auto.
Qed.







Example name_split_example :
  let parts := trim_split "  Mary   Jane van  Doe " in
  (hd EmptyString parts, join " " (tl parts)) = ("Mary", "Jane van Doe").
Proof. reflexivity. Qed.

(* ====================================================================== *)
(** ** What the orchestration sends and stores *)
(* ====================================================================== *)

Lemma audit_st_log env cid data st :
  invoice_audit_log (db (audit_st env cid data st))
  = (invoice_audit_log (db st)
     ++ (if audit_insert_fails env then []
         else [mkAuditRow cid (db_now env) data]))%list.
Proof.
  unfold audit_st. cbn. destruct (audit_insert_fails env); cbn;
    [now rewrite app_nil_r | reflexivity].
Qed.

Lemma audit_st_locals env cid data st :
  locals (audit_st env cid data st) = locals st.
Proof. reflexivity. Qed.

Arguments stored : simpl never.

Ltac solve_none_found :=
  eexists; split; [eassumption|]; split; [eassumption|];
  first [left; eassumption | right; eassumption].

Ltac solve_fetched :=
  eexists; split; [eassumption|]; split; eassumption.

Ltac solve_resolved :=
  first
    [ left; do 2 eexists; split; [eassumption|]; split; eassumption
    | right; split; [solve_none_found | solve_fetched] ].

Ltac solve_placed := split; [solve_resolved | solve_fetched].
Ltac solve_drawn := split; [solve_placed | solve_fetched].
Ltac solve_read := split; [solve_drawn | solve_fetched].

Ltac solve_chained_one :=
  unfold chained;
  first
    [ left; reflexivity
    | right; left; split; [reflexivity | solve_none_found]
    | do 2 right; left; eexists; split; [reflexivity | solve_resolved]
    | do 3 right; left; do 2 eexists; split; [reflexivity | solve_placed]
    | do 4 right; left; do 3 eexists; split; [reflexivity | solve_drawn]
    | do 5 right; do 4 eexists; split; [reflexivity | solve_read] ].

Ltac solve_chained :=
  cbn [square_requests];
  repeat (apply Forall_cons; [solve_chained_one|]); apply Forall_nil.

Ltac solve_answered_one := eexists; split; eassumption.

Ltac solve_row Hf Hp :=
  rewrite !find_order_update, Hf; cbn [option_map];
  subst;
  repeat first [rewrite String.eqb_refl | progress cbn [po_id apply_update]];
  eexists; split; [reflexivity|];
  unfold completed_row; cbn; repeat split; reflexivity.

Ltac solve_progress :=
  repeat (apply progress_more; [| reflexivity | reflexivity | reflexivity]);
  apply progress_none.

Lemma saga_try_contents env user cid ik on cn ce amt ts pid tok loc d es0 :
  let '(res, st1) :=
    saga_try env user cid ik on cn ce amt ts pid tok loc
      (mkSt d es0 init_locals) in
  exists es,
    effects st1 = (es0 ++ es)%list
    /\ (exists rq rest, es = SquareCall rq :: rest)
    /\ Forall (chained env cn ce on amt loc tok) (square_requests es)
    /\ Forall (updates_row pid) es
    /\ match res with
       | Throw e =>
           row_progress (db_now env) pid (processed_orders d)
             (processed_orders (db st1))
           /\ invoice_audit_log (db st1) = invoice_audit_log d
           /\ audit_rows (db_now env) es = []
       | Val resp =>
           exists c o iv customer_step rows1,
             resp = success_response cid (sc_id c) o (inv_id iv)
                      (inv_invoice_number iv)
             /\ invoice_published env cn ce on amt loc tok c o iv
             /\ processed_orders (db st1)
                = update_by_id (db_now env) pid
                    (success_update env (complete_steps customer_step)) rows1
             /\ (customer_step = "customer_found"
                 \/ customer_step = "customer_created")
             /\ row_progress (db_now env) pid (processed_orders d) rows1
             /\ (forall r,
                   find_order on (processed_orders d) = Some r ->
                   po_id r = pid ->
                   exists r',
                     find_order on (processed_orders (db st1)) = Some r'
                     /\ completed_row env r r' c o iv
                          (complete_steps customer_step))
             /\ invoice_audit_log (db st1)
                = (invoice_audit_log d ++ stored env es)%list
             /\ audit_rows (db_now env) es
                = [mkAuditRow cid (db_now env)
                     (success_audit user ik on cn ce amt ts (sc_id c) o
                        (inv_id iv) (complete_steps customer_step))]
       end.
Proof.
  unfold_saga. exec.
  all: rewrite ?audit_st_effects; cbn [effects].
  all: rewrite <- ?app_assoc; cbn [app].
  all: eexists; split; [reflexivity|].
  all: split; [do 2 eexists; reflexivity|].
  all: split; [solve_chained|].
  all: split; [repeat (apply Forall_cons; [exact I || reflexivity|]);
               apply Forall_nil|].
  all: try (split; [solve_progress|]; split; reflexivity).
  all: do 5 eexists.
  all: split; [reflexivity|].
  all: split; [eexists; split; [solve_read | solve_answered_one]|].
  all: rewrite audit_st_orders, audit_st_log; cbn [db processed_orders
         invoice_audit_log].
  all: split; [reflexivity|].
  all: split; [first [left; reflexivity | right; reflexivity]|].
  all: split; [solve_progress|].
  all: split; [intros r Hf Hp; solve_row Hf Hp|].
  all: split; [unfold stored; destruct (audit_insert_fails env); cbn;
               rewrite ?app_nil_r; reflexivity
             | reflexivity].
Qed.

Lemma audit_rows_app now a b :
  audit_rows now (a ++ b) = (audit_rows now a ++ audit_rows now b)%list.
Proof.
  induction a as [|[] a IH]; cbn; rewrite ?IH; reflexivity.
Qed.

(** Every run of the orchestration answers; what it sends is chained,
    and what it stores ends with the update and the audit entry of its
    outcome. *)
Lemma saga_contents env user cid ik on cn ce amt ts pid tok loc d es0 :
  exists resp st es,
    saga env user cid ik on cn ce amt ts pid tok loc (mkSt d es0 init_locals)
    = (Val resp, st)
    /\ effects st = (es0 ++ es)%list
    /\ saga_outcome env user cid ik on cn ce amt ts pid tok loc
         (processed_orders d) (invoice_audit_log d) resp st es.
Proof.
  pose proof (saga_try_contents env user cid ik on cn ce amt ts pid tok loc
                d es0) as H.
  destruct (saga_try env user cid ik on cn ce amt ts pid tok loc
              (mkSt d es0 init_locals)) as [[resp|e] st1] eqn:Htry;
    destruct H as (es & Hes & Hfirst & Hch & Hup & H).
  - exists resp, st1, es.
    split; [apply saga_of_val; exact Htry|]. split; [exact Hes|].
    destruct H as (c & o & iv & step & rows1 & Hresp & Hpub & Hrows & Hstep
                   & Hprog & Hrow & Hlog & Haud).
    split; [exact Hfirst|]. split; [exact Hch|]. split; [exact Hup|].
    split; [exact Hlog|].
    exists rows1, (success_update env (complete_steps step)),
      (success_audit user ik on cn ce amt ts (sc_id c) o (inv_id iv)
         (complete_steps step)).
    split; [exact Hrows|]. split; [exact Hprog|]. split; [exact Haud|].
    left. exists c, o, iv, step. repeat split; assumption.
  - destruct H as (Hprog & Hlog & Haud).
    eexists. eexists.
    exists (es ++ [OrdersUpdate pid
                     (failure_update (locals st1) (errorMessage_of e));
                   AuditInsert cid
                     (failure_audit user ik on cn ce amt ts (locals st1)
                        (errorMessage_of e))])%list.
    split; [eapply saga_of_throw; exact Htry|].
    split.
    { rewrite audit_st_effects. cbn [effects]. rewrite Hes.
      rewrite <- !app_assoc. reflexivity. }
    split.
    { destruct Hfirst as (rq & rest & ->). do 2 eexists. reflexivity. }
    split.
    { rewrite square_requests_app. cbn. rewrite app_nil_r. exact Hch. }
    split.
    { apply Forall_app. split; [exact Hup|].
      repeat constructor. }
    split.
    { rewrite audit_st_log. cbn [db invoice_audit_log]. rewrite Hlog.
      unfold stored. rewrite audit_rows_app, Haud.
      destruct (audit_insert_fails env); reflexivity. }
    exists (processed_orders (db st1)),
      (failure_update (locals st1) (errorMessage_of e)),
      (failure_audit user ik on cn ce amt ts (locals st1)
         (errorMessage_of e)).
    split; [now rewrite audit_st_orders|].
    split; [exact Hprog|].
    split; [rewrite audit_rows_app, Haud; reflexivity|].
    right. exists e, (locals st1). repeat split; reflexivity.
Qed.

(* ====================================================================== *)
(** ** How an invocation ends *)
(* ====================================================================== *)

Lemma expired_code_cases authError :
  expired_code authError = AUTH_EXPIRED
  \/ expired_code authError = AUTH_INVALID.
Proof.
  unfold expired_code. destruct authError as [[[m|]]|]; auto.
  destruct (includes m "expired"); auto.
Qed.

Lemma process_outcome env req d user body :
  reaches_ledger env req d user body ->
  let r :=
    process_order env user (randomUUID env) (str (order_number body))
      (str (customer_name body)) (str (customer_email body))
      (num (amount_cents body)) (str (request_timestamp body))
      (str (SQUARE_ACCESS_TOKEN env)) (str (SQUARE_LOCATION_ID env))
      (init_st d) in
  outcome env req d (fst r) (snd r).
Proof.
  intros Hr r. subst r.
  destruct (find_order (str (order_number body)) (processed_orders d))
    as [r|] eqn:Hf.
  - destruct (po_status r) eqn:Hs.
    1,2,4:
      rewrite (process_reuse _ _ _ _ _ _ _ _ _ _ (init_st d) r Hf)
        by congruence;
      unfold emit_st; cbn [effects init_st app db processed_orders
                             invoice_audit_log];
      match goal with
      | |- context [saga ?e ?u ?c ?ik ?o ?n ?m ?a ?t ?p ?k ?l
                      (mkSt ?d1 ?es0 _)] =>
          destruct (saga_contents e u c ik o n m a t p k l d1 es0)
            as (resp & st & es & Hrun & Heff & Hout)
      end;
      rewrite Hrun; cbn [fst snd];
      apply (out_saga env req d user body (po_id r)
               (OrdersUpdate (po_id r) (reset_update env))
               (update_by_id (db_now env) (po_id r) (reset_update env)
                  (processed_orders d))
               resp st es);
      [ split; [exact Hr|]; rewrite Hf; split; [congruence | reflexivity]
      | left; exists r; repeat split; try assumption; congruence
      | exact Heff
      | exact Hout ].
    rewrite (process_completed _ _ _ _ _ _ _ _ _ _ (init_st d) r Hf Hs).
    cbn [fst snd]. eapply out_duplicate; try eassumption. reflexivity.
  - destruct (insert_error env) as [c|] eqn:Hi.
    + destruct (c =? "23505")%string eqn:Hc.
      * apply String.eqb_eq in Hc. subst c.
        rewrite (process_conflict _ _ _ _ _ _ _ _ _ _ (init_st d) Hf Hi).
        cbn [fst snd]. eapply out_conflict; try eassumption. reflexivity.
      * rewrite (process_insert_error _ _ _ _ _ _ _ _ _ _ (init_st d) c
                   Hf Hi Hc).
        cbn [fst snd]. eapply out_insert_error; try eassumption.
        apply String.eqb_neq. exact Hc.
    + rewrite (process_insert _ _ _ _ _ _ _ _ _ _ (init_st d) Hf Hi).
      unfold emit_st; cbn [effects init_st app db processed_orders
                             invoice_audit_log].
      match goal with
      | |- context [saga ?e ?u ?c ?ik ?o ?n ?m ?a ?t ?p ?k ?l
                      (mkSt ?d1 ?es0 _)] =>
          destruct (saga_contents e u c ik o n m a t p k l d1 es0)
            as (resp & st & es & Hrun & Heff & Hout)
      end.
      rewrite Hrun; cbn [fst snd].
      eapply (out_saga env req d user body (insert_id env)
                (OrdersInsert
                   (fresh_insert user (str (order_number body))
                      (str (customer_name body)) (str (customer_email body))
                      (num (amount_cents body)))));
      [ split; [exact Hr|]; rewrite Hf; split; [exact Hi | reflexivity]
      | right; repeat split; try assumption; reflexivity
      | exact Heff
      | exact Hout ].
Qed.

Ltac solve_bearer :=
  first [ split; [intros _; assumption | reflexivity]
        | split; [discriminate | congruence] ].

Ltac rejected :=
  first [ rewrite logAudit_ret | norm; rewrite logAudit_run ];
  cbn [fst snd];
  eapply out_rejected;
  [ assumption | assumption | cbn; tauto | reflexivity | solve_bearer ].

(** Every invocation ends in one of the ways of [outcome]. *)
Lemma run_outcome env req d :
  outcome env req d (fst (run env req d)) (snd (run env req d)).
Proof.
  unfold run, handler.
  destruct (req_method req =? "OPTIONS")%string eqn:Hopt.
  { apply String.eqb_eq in Hopt. cbn. now apply out_preflight. }
  apply String.eqb_neq in Hopt.
  destruct (req_method req =? "POST")%string eqn:Hpost; cbn [negb].
  2:{ cbn. apply out_unserved; [exact Hopt|]. left.
      split; [now apply String.eqb_neq | reflexivity]. }
  apply String.eqb_eq in Hpost.
  fold (config_missing env). destruct (config_missing env) eqn:Hcfg.
  { cbn. apply out_unserved; [exact Hopt|]. right. auto. }
  fold (bearer_missing req). destruct (bearer_missing req) eqn:Hb.
  { rejected. }
  fold (jwt_of req).
  destruct (auth_getUser env (jwt_of req)) as [[user|] [err|]] eqn:Hu.
  1,3,4:
    first [ rewrite logAudit_ret | norm; rewrite logAudit_run ];
    cbn [fst snd];
    eapply out_rejected; [assumption | assumption | | reflexivity |];
    cbn [a_result];
    match goal with
    | |- context [expired_code ?e] =>
        destruct (expired_code_cases e) as [E|E]; rewrite E;
        first [cbn; tauto | solve_bearer]
    end.
  destruct (is_authorized_invoicer env (user_id user)) as [[|]|] eqn:Ha.
  2,3: rejected.
  assert (Had : authorized env req user) by (repeat split; assumption).
  unfold validate_and_process.
  destruct (req_json req) as [| |body] eqn:Hj.
  { rejected. }
  { cbn. eapply out_null; eassumption. }
  destruct (missing_required body) eqn:Hmiss.
  { rejected. }
  destruct (isValidOrderNumber (str (order_number body))) eqn:Ho; cbn [negb].
  2:{ rejected. }
  destruct (isValidEmail (str (customer_email body))) eqn:He; cbn [negb].
  2:{ rejected. }
  destruct (invalid_amount (num (amount_cents body))) eqn:Hamt.
  { rejected. }
  destruct (replay_rejected (date_now env)
              (date_parse env (str (request_timestamp body)))) eqn:Hr.
  { rejected. }
  unfold rpc_user_rate_count, rpc_global_rate_count. norm.
  fold (user_count env user d).
  destruct (count_ge (user_count env user d) USER_RATE_LIMIT) eqn:Hcu.
  { rejected. }
  change (db (init_st d)) with d. fold (global_count env d).
  destruct (count_ge (global_count env d) GLOBAL_RATE_LIMIT) eqn:Hcg.
  { rejected. }
  apply process_outcome.
  split; [exact Had|]. split; [exact Hj|]. repeat split; assumption.
Qed.

(* ====================================================================== *)
(** ** Properties of every invocation *)
(* ====================================================================== *)

Lemma run_has_outcome env req d res st :
  run env req d = (res, st) -> outcome env req d res st.
Proof.
  intros H. pose proof (run_outcome env req d) as Ho.
  rewrite H in Ho. exact Ho.
Qed.

Lemma errorResponse_status code msg s cid retry :
  status (errorResponse code msg s cid retry) = s.
Proof. reflexivity. Qed.

Lemma errorResponse_payload code msg s cid retry :
  payload (errorResponse code msg s cid retry)
  = ErrorBody cid code msg
      (match retry with
       | Some r => if r =? 0 then None else Some r
       | None => None
       end).
Proof. reflexivity. Qed.

Lemma errorResponse_header code msg s cid retry :
  x_correlation_id (errorResponse code msg s cid retry)
  = if (cid =? EmptyString)%string then None else Some cid.
Proof. reflexivity. Qed.

Lemma gate_table_facts code s retry result :
  In (code, s, retry, result) gate_table ->
  counted result = false.
Proof.
  intros H. cbn in H.
  repeat match goal with
         | H : _ \/ _ |- _ => destruct H as [H|H]
         | H : (_, _, _, _) = (_, _, _, _) |- _ => inversion H; clear H
         | H : False |- _ => contradiction
         end; reflexivity.
Qed.

Lemma gate_table_contract code s retry result :
  In (code, s, retry, result) gate_table ->
  s = status_of_code code
  /\ retry = retry_of_code code
  /\ match retry with
     | Some r => if r =? 0 then None else Some r
     | None => None
     end = retry
  /\ code <> INTERNAL_ERROR
  /\ s <> 200
  /\ s <> 405.
Proof.
  intros H. cbn in H.
  repeat match goal with
         | H : _ \/ _ |- _ => destruct H as [H|H]
         | H : (_, _, _, _) = (_, _, _, _) |- _ => inversion H; clear H
         | H : False |- _ => contradiction
         end; repeat split; discriminate.
Qed.

Lemma started_write env user body pid rows w rows0 :
  started env user body pid rows w rows0 ->
  audit_rows (db_now env) [w] = [] /\ square_requests [w] = []
  /\ is_ledger_write w = true.
Proof.
  intros [(r & _ & _ & _ & -> & _) | (_ & _ & _ & -> & _)];
    repeat split; reflexivity.
Qed.

(** The audit rows of a run: none, or one under the run's correlation id,
    which counts against the rate limits exactly when the platform was
    called, and is then the caller's. The audit log grows by the rows that
    are stored. *)
Lemma outcome_audit env req d res st :
  outcome env req d res st ->
  invoice_audit_log (db st)
  = (invoice_audit_log d ++ stored env (effects st))%list
  /\ ((audit_rows (db_now env) (effects st) = []
       /\ square_requests (effects st) = [])
      \/ exists data,
           audit_rows (db_now env) (effects st)
           = [mkAuditRow (randomUUID env) (db_now env) data]
           /\ ((counted (a_result data) = false
                /\ square_requests (effects st) = [])
               \/ (counted (a_result data) = true
                   /\ square_requests (effects st) <> []
                   /\ a_user_id data = caller env req))).
Proof.
  intros Ho. inversion Ho; subst; clear Ho.
  - split; [unfold stored; cbn; destruct (audit_insert_fails env);
            now rewrite app_nil_r|].
    left. split; reflexivity.
  - split; [unfold stored; cbn; destruct (audit_insert_fails env);
            now rewrite app_nil_r|].
    left. split; reflexivity.
  - split; [rewrite audit_st_log; unfold stored; cbn;
            destruct (audit_insert_fails env); reflexivity|].
    right. exists data. split; [reflexivity|]. left.
    split; [|reflexivity].
    eapply gate_table_facts. eassumption.
  - split; [unfold stored; cbn; destruct (audit_insert_fails env);
            now rewrite app_nil_r|].
    left. split; reflexivity.
  - split; [rewrite audit_st_log; unfold stored; cbn;
            destruct (audit_insert_fails env); reflexivity|].
    right. exists data. split; [reflexivity|]. left.
    split; [|reflexivity].
    match goal with H : a_result data = _ |- _ => rewrite H end. reflexivity.
  - split; [rewrite audit_st_log; unfold stored; cbn;
            destruct (audit_insert_fails env); reflexivity|].
    right. exists data. split; [reflexivity|]. left.
    split; [|reflexivity].
    match goal with H : a_result data = _ |- _ => rewrite H end. reflexivity.
  - split; [unfold stored; cbn; destruct (audit_insert_fails env);
            now rewrite app_nil_r|].
    left. split; reflexivity.
  - match goal with
    | Hs : started _ _ _ _ _ _ _, He : effects st = _,
      Hout : saga_outcome _ _ _ _ _ _ _ _ _ _ _ _ _ _ _ _ _ |- _ =>
        destruct (started_write _ _ _ _ _ _ _ Hs) as (Hwa & Hws & _);
        destruct Hout as ((rq & rest & Hes) & _ & _ & Hlog & rows1 & u
                          & data & _ & _ & Haud & Hcase);
        rewrite He
    end.
    change (w :: es) with ([w] ++ es)%list.
    unfold stored in *. rewrite audit_rows_app, square_requests_app.
    rewrite Hwa, Hws. cbn [app].
    split; [exact Hlog|].
    right. exists data. split; [exact Haud|]. right.
    assert (Hc : caller env req = Some (user_id user)).
    { match goal with
      | Hr : reaches_saga _ _ _ _ _ _ |- _ =>
          destruct Hr as (((_ & Hu & _) & _) & _)
      end.
      unfold caller. rewrite Hu. reflexivity. }
    rewrite Hc.
    split; [|split; [rewrite Hes; discriminate|]];
      destruct Hcase as [(c & o & iv & step & _ & _ & _ & _ & -> & _)
                        | (e & l & _ & _ & ->)]; reflexivity.
Qed.

Ltac outcome_cases H :=
  apply run_has_outcome in H; inversion H; subst; clear H.

Lemma square_requests_In rq es :
  In rq (square_requests es) <-> In (SquareCall rq) es.
Proof.
  induction es as [|[] es IH]; cbn; [tauto| | | |].
  1-3: rewrite IH; split; [auto | intros [H|H]; [discriminate | exact H]].
  rewrite IH. split; intros [H|H]; auto; left; congruence.
Qed.

(** The correlation id drawn at the start of an invocation is the one in
    the body and in the header of its response, and the one under which
    its audit entry is written. *)
Theorem correlation_id_echoed env req d resp st :
  run env req d = (Val resp, st) ->
  req_method req <> "OPTIONS" ->
  body_correlation_id resp = Some (randomUUID env)
  /\ x_correlation_id resp
     = (if (randomUUID env =? EmptyString)%string then None
        else Some (randomUUID env))
  /\ Forall (fun row => al_correlation_id row = randomUUID env)
       (audit_rows (db_now env) (effects st)).
Proof.
  intros Hrun Hm.
  assert (Haud : Forall (fun row => al_correlation_id row = randomUUID env)
                   (audit_rows (db_now env) (effects st))).
  { pose proof (run_has_outcome _ _ _ _ _ Hrun) as Ho.
    destruct (outcome_audit _ _ _ _ _ Ho) as [_ [[-> _] | (data & -> & _)]];
      repeat constructor. }
  outcome_cases Hrun; try contradiction;
    try (split; [reflexivity|]; split; [reflexivity | exact Haud]).
  match goal with
  | Hout : saga_outcome _ _ _ _ _ _ _ _ _ _ _ _ _ _ _ _ _ |- _ =>
      destruct Hout as (_ & _ & _ & _ & rows1 & u & data & _ & _ & _
                        & [(c & o & iv & step & -> & _)
                          | (e & l & -> & _)])
  end;
    (split; [reflexivity|]; split; [reflexivity | exact Haud]).
Qed.

Lemma correlation_id_echoed_witness :
  Sample.req.(req_method) <> "OPTIONS"
  /\ exists resp,
       fst (run Sample.env Sample.req Sample.empty_db) = Val resp
       /\ body_correlation_id resp = Some "corr-1".
Proof.
  assert (Hm : Sample.req.(req_method) <> "OPTIONS") by discriminate.
  split; [exact Hm|].
  eexists. split; [vm_compute; reflexivity|].
  apply (correlation_id_echoed Sample.env Sample.req Sample.empty_db _
           (snd (run Sample.env Sample.req Sample.empty_db)));
    [vm_compute; reflexivity | exact Hm].
Defined.

(** The status of a response is the one that goes with its error code,
    405 apart, which a request that is no POST gets under INTERNAL_ERROR;
    a retry hint is given with the two rate-limit codes and with no
    other. *)
Theorem status_follows_code env req d resp st :
  run env req d = (Val resp, st) ->
  match payload resp with
  | NoBody => req_method req = "OPTIONS" /\ status resp = 200
  | SuccessBody _ _ _ _ _ => status resp = 200
  | ErrorBody _ code _ retry =>
      retry = retry_of_code code
      /\ (status resp = status_of_code code
          \/ (code = INTERNAL_ERROR /\ status resp = 405
              /\ req_method req <> "POST"))
  end.
Proof.
  intros Hrun. outcome_cases Hrun.
  - split; [assumption | reflexivity].
  - rewrite errorResponse_payload, errorResponse_status.
    split; [reflexivity|].
    match goal with
    | H : _ \/ _ |- _ => destruct H as [(Hp & ->) | (_ & _ & ->)]
    end; [right; auto | left; reflexivity].
  - rewrite errorResponse_payload, errorResponse_status.
    match goal with
    | H : In _ gate_table |- _ =>
        destruct (gate_table_contract _ _ _ _ H) as (Hs & Hr & Hn & _)
    end.
    rewrite Hn. split; [exact Hr | left; exact Hs].
  - rewrite errorResponse_payload, errorResponse_status.
    split; [reflexivity | left; reflexivity].
  - rewrite errorResponse_payload, errorResponse_status.
    split; [reflexivity | left; reflexivity].
  - match goal with
    | Hout : saga_outcome _ _ _ _ _ _ _ _ _ _ _ _ _ _ _ _ _ |- _ =>
        destruct Hout as (_ & _ & _ & _ & rows1 & u & data & _ & _ & _
                          & [(c & o & iv & step & -> & _)
                            | (e & l & -> & _)])
    end; [reflexivity|].
    rewrite errorResponse_payload, errorResponse_status.
    pose proof (classify_codes (stepsCompleted l)) as Hc. cbn in Hc.
    repeat match goal with
           | H : _ \/ _ |- _ => destruct H as [H|H]
           | H : False |- _ => contradiction
           end;
      rewrite <- Hc; (split; [reflexivity | left; reflexivity]).
Qed.

Lemma status_follows_code_witness :
  exists resp st,
    run Sample.env
      (mkRequest "POST" (Some "Bearer jwt-1")
         (JsonObject (Sample.body_with "7600" (Js.of_Z 0))))
      Sample.empty_db
    = (Val resp, st)
    /\ payload resp
       = ErrorBody "corr-1" VALIDATION_INVALID_AMOUNT
           "Amount appears invalid (must be positive and not exceed $50,000)"
           None
    /\ status resp = 400.
Proof.
  do 2 eexists. split; [vm_compute; reflexivity|].
  split; [reflexivity|].
  pose proof (status_follows_code Sample.env
                (mkRequest "POST" (Some "Bearer jwt-1")
                   (JsonObject (Sample.body_with "7600" (Js.of_Z 0))))
                Sample.empty_db _ _ ltac:(vm_compute; reflexivity)) as H.
  cbn in H. destruct H as [_ [H | (H & _)]]; [exact H | discriminate H].
Defined.

(* ====================================================================== *)
(** ** Rate-limit accounting *)
(* ====================================================================== *)

Lemma global_count_app now a b :
  get_global_rate_limit_count now (a ++ b)
  = get_global_rate_limit_count now a + get_global_rate_limit_count now b.
Proof.
  unfold get_global_rate_limit_count.
  rewrite filter_app, length_app. lia.
Qed.

Lemma user_count_app now uid a b :
  get_user_rate_limit_count now uid (a ++ b)
  = get_user_rate_limit_count now uid a + get_user_rate_limit_count now uid b.
Proof.
  unfold get_user_rate_limit_count.
  rewrite filter_app, length_app. lia.
Qed.

Lemma global_count_one now cid data :
  get_global_rate_limit_count now [mkAuditRow cid now data]
  = if counted (a_result data) then 1 else 0.
Proof.
  unfold get_global_rate_limit_count, one_hour_ms. cbn.
  assert (E : (now - 3600000 <? now) = true) by (apply Z.ltb_lt; lia).
  rewrite E. destruct (counted (a_result data)); reflexivity.
Qed.

Lemma user_count_one now uid cid data :
  get_user_rate_limit_count now uid [mkAuditRow cid now data]
  = if counted (a_result data)
    then match a_user_id data with
         | Some u => if (u =? uid)%string then 1 else 0
         | None => 0
         end
    else 0.
Proof.
  unfold get_user_rate_limit_count, one_hour_ms. cbn.
  assert (E : (now - 3600000 <? now) = true) by (apply Z.ltb_lt; lia).
  rewrite E.
  destruct (a_user_id data) as [u|]; [destruct (u =? uid)%string|];
    destruct (counted (a_result data)); reflexivity.
Qed.

(** The per-user count never exceeds the global count. *)
Theorem user_count_le_global now uid log :
  get_user_rate_limit_count now uid log
  <= get_global_rate_limit_count now log.
Proof.
  unfold get_user_rate_limit_count, get_global_rate_limit_count.
  apply inj_le.
  induction log as [|row log IH]; cbn [filter]; [apply Nat.le_refl|].
  destruct (a_user_id (al_data row)) as [u|]; [destruct (u =? uid)%string|];
    cbn [andb];
    destruct ((now - one_hour_ms <? al_timestamp row)
              && counted (a_result (al_data row)));
    cbn [length]; lia.
Qed.

(** A run raises the global count, and the count of its caller, by one
    exactly when it called the platform and its audit entry was stored;
    it raises no other user's count, and a run that was rejected, that
    found a duplicate or that ended in an exception raises none. *)
Theorem run_counts_once env req d :
  let st := snd (run env req d) in
  get_global_rate_limit_count (db_now env) (invoice_audit_log (db st))
  = get_global_rate_limit_count (db_now env) (invoice_audit_log d)
    + counted_run env st
  /\ forall uid,
       get_user_rate_limit_count (db_now env) uid (invoice_audit_log (db st))
       = get_user_rate_limit_count (db_now env) uid (invoice_audit_log d)
         + (if match caller env req with
               | Some u => (u =? uid)%string
               | None => false
               end
            then counted_run env st else 0).
Proof.
  intros st. subst st.
  destruct (outcome_audit _ _ _ _ _ (run_outcome env req d)) as [Hlog Hrows].
  rewrite Hlog. unfold stored, counted_run.
  destruct (audit_insert_fails env).
  { rewrite app_nil_r. split; [lia|]. intros uid.
    destruct (match caller env req with Some u => _ | None => _ end); lia. }
  split; [rewrite global_count_app | intros uid; rewrite user_count_app].
  - destruct Hrows as [[-> ->] | (data & -> & [(Hc & ->) | (Hc & Hs & _)])];
      rewrite ?global_count_one, ?Hc; try reflexivity.
    destruct (square_requests _); [contradiction | reflexivity].
  - destruct Hrows as [[-> ->] | (data & -> & [(Hc & ->) | (Hc & Hs & Hu)])];
      rewrite ?user_count_one, ?Hc.
    + destruct (match caller env req with Some u => _ | None => _ end);
        reflexivity.
    + destruct (match caller env req with Some u => _ | None => _ end);
        reflexivity.
    + rewrite Hu.
      destruct (square_requests _); [contradiction|].
      destruct (caller env req) as [u|]; [destruct (u =? uid)%string|];
        reflexivity.
Qed.

Example run_counts_example :
  let st := snd (run Sample.env Sample.req Sample.empty_db) in
  get_user_rate_limit_count 1700000000000 "user-1"
    (invoice_audit_log (db st)) = 1
  /\ get_user_rate_limit_count 1700000000000 "user-2"
       (invoice_audit_log (db st)) = 0.
Proof. vm_compute. split; reflexivity. Qed.

(* ====================================================================== *)
(** ** What reaches the platform and the ledger *)
(* ====================================================================== *)

(** Every request sent to the platform belongs to a run that passed every
    gate, and is one of the six requests of the orchestration, built from
    the fields of the request body and from the platform's answers to the
    requests before it. *)
Theorem platform_requests_chained env req d res st rq :
  run env req d = (res, st) ->
  In rq (square_requests (effects st)) ->
  exists user body pid,
    reaches_saga env req d user body pid
    /\ chained env (str (customer_name body)) (str (customer_email body))
         (str (order_number body)) (num (amount_cents body))
         (str (SQUARE_LOCATION_ID env)) (str (SQUARE_ACCESS_TOKEN env)) rq.
Proof.
  intros Hrun Hin. outcome_cases Hrun;
    try (rewrite ?audit_st_effects in Hin; cbn in Hin; contradiction).
  match goal with
  | Hs : started _ _ _ _ _ _ _, He : effects st = _,
    Hout : saga_outcome _ _ _ _ _ _ _ _ _ _ _ _ _ _ _ _ _ |- _ =>
      destruct (started_write _ _ _ _ _ _ _ Hs) as (_ & Hws & _);
      destruct Hout as (_ & Hch & _);
      rewrite He in Hin
  end.
  change (w :: es) with ([w] ++ es)%list in Hin.
  rewrite square_requests_app, Hws in Hin. cbn [app] in Hin.
  exists user, body, pid. split; [assumption|].
  rewrite Forall_forall in Hch. now apply Hch.
Qed.

Lemma platform_requests_chained_witness :
  exists user body pid,
    reaches_saga Sample.env Sample.req Sample.empty_db user body pid
    /\ chained Sample.env (str (customer_name body))
         (str (customer_email body)) (str (order_number body))
         (num (amount_cents body)) "LOC-1" "square-token"
         (order_request "CUST-1" (Js.of_Z 3250) "7600" "LOC-1"
            "square-token").
Proof.
  apply (platform_requests_chained Sample.env Sample.req Sample.empty_db
           (fst (run Sample.env Sample.req Sample.empty_db))
           (snd (run Sample.env Sample.req Sample.empty_db))).
  - vm_compute. reflexivity.
  - vm_compute. tauto.
Defined.

(** Every write to the ledger belongs to a run that passed every gate
    before the ledger: an insert is the row of the request, made when the
    ledger holds no row for the order number, and an update concerns the
    one row of the request's order. *)
Theorem ledger_writes_gated env req d res st e :
  run env req d = (res, st) ->
  In e (effects st) ->
  match e with
  | OrdersInsert i =>
      exists user body,
        reaches_ledger env req d user body
        /\ find_order (str (order_number body)) (processed_orders d) = None
        /\ i = fresh_insert user (str (order_number body))
                 (str (customer_name body)) (str (customer_email body))
                 (num (amount_cents body))
  | OrdersUpdate id u =>
      exists user body, reaches_saga env req d user body id
  | _ => True
  end.
Proof.
  intros Hrun Hin. outcome_cases Hrun;
    rewrite ?audit_st_effects in Hin; cbn in Hin.
  1-5: repeat match goal with
              | H : _ \/ _ |- _ => destruct H as [H|H]
              | H : False |- _ => contradiction
              end; subst e; exact I.
  - destruct Hin as [<- | [<- | []]]; [|exact I].
    do 2 eexists. split; [eassumption|]. split; [assumption | reflexivity].
  - destruct Hin as [<- | []].
    do 2 eexists. split; [eassumption|]. split; [assumption | reflexivity].
  - match goal with
    | Hs : started _ _ _ _ _ _ _, He : effects st = _,
      Hout : saga_outcome _ _ _ _ _ _ _ _ _ _ _ _ _ _ _ _ _,
      Hr : reaches_saga _ _ _ _ _ _ |- _ =>
        destruct Hout as (_ & _ & Hup & _);
        rewrite He in Hin; destruct Hin as [<- | Hin]
    end.
    + match goal with
      | Hs : started _ _ _ _ _ _ _ |- _ =>
          destruct Hs as [(r & _ & _ & _ & -> & _) | (Hf & _ & _ & -> & _)]
      end.
      * do 2 eexists. eassumption.
      * do 2 eexists. split; [|split; [exact Hf | reflexivity]].
        match goal with Hr : reaches_saga _ _ _ _ _ _ |- _ => apply Hr end.
    + rewrite Forall_forall in Hup. specialize (Hup e Hin).
      destruct e; cbn in Hup; try exact I; [contradiction|].
      subst. do 2 eexists. eassumption.
Qed.

Lemma ledger_writes_gated_witness :
  exists user body,
    reaches_ledger Sample.env Sample.req Sample.empty_db user body
    /\ find_order (str (order_number body))
         (processed_orders Sample.empty_db) = None
    /\ fresh_insert Sample.user "7600" "Jane Doe" "jane@example.org"
         (Js.of_Z 3250)
       = fresh_insert user (str (order_number body))
           (str (customer_name body)) (str (customer_email body))
           (num (amount_cents body)).
Proof.
  apply (ledger_writes_gated Sample.env Sample.req Sample.empty_db
           (fst (run Sample.env Sample.req Sample.empty_db))
           (snd (run Sample.env Sample.req Sample.empty_db))
           (OrdersInsert
              (fresh_insert Sample.user "7600" "Jane Doe" "jane@example.org"
                 (Js.of_Z 3250)))).
  - vm_compute. reflexivity.
  - vm_compute. tauto.
Defined.

(* ====================================================================== *)
(** ** The ledger across an invocation *)
(* ====================================================================== *)

Lemma identity_update now id u rows :
  map row_identity (update_by_id now id u rows) = map row_identity rows.
Proof.
  unfold update_by_id. rewrite map_map. apply map_ext.
  intros r. destruct (po_id r =? id)%string; reflexivity.
Qed.

Lemma progress_identity now pid rows rows' :
  row_progress now pid rows rows' -> map row_identity rows' = map row_identity rows.
Proof.
  induction 1 as [|u rows rows' _ IH _ _ _]; [reflexivity|].
  now rewrite identity_update.
Qed.

Lemma update_other now id u rows r :
  In r (update_by_id now id u rows) -> po_id r <> id -> In r rows.
Proof.
  unfold update_by_id. rewrite in_map_iff.
  intros (r0 & Hr & Hin) Hne.
  destruct (po_id r0 =? id)%string eqn:E.
  - apply String.eqb_eq in E. subst r. cbn in Hne. contradiction.
  - now subst r.
Qed.

Lemma update_status now id u rows r s :
  In r (update_by_id now id u rows) -> po_id r = id ->
  u_status u = Some s -> po_status r = s.
Proof.
  unfold update_by_id. rewrite in_map_iff.
  intros (r0 & Hr & Hin) He Hs.
  destruct (po_id r0 =? id)%string eqn:E.
  - subst r. cbn. now rewrite Hs.
  - apply String.eqb_neq in E. subst r. contradiction.
Qed.

Lemma progress_other now pid rows rows' r :
  row_progress now pid rows rows' -> In r rows' -> po_id r <> pid -> In r rows.
Proof.
  induction 1 as [|u rows rows' _ IH _ _ _]; intros Hin Hne; [exact Hin|].
  apply IH; [|exact Hne]. eapply update_other; eassumption.
Qed.

Lemma find_order_none on rows :
  find_order on rows = None -> ~ In on (map po_order_number rows).
Proof.
  unfold find_order. intros Hf Hin. apply in_map_iff in Hin.
  destruct Hin as (r & Hr & Hin).
  apply (find_none _ _ Hf) in Hin. rewrite Hr, String.eqb_refl in Hin.
  discriminate.
Qed.

Lemma identity_order_numbers rows rows' :
  map row_identity rows' = map row_identity rows ->
  map po_order_number rows' = map po_order_number rows.
Proof.
  intros H.
  assert (E : forall l, map po_order_number l
                        = map (fun i => snd (fst (fst (fst (fst (fst i))))))
                            (map row_identity l))
    by (intros l; rewrite map_map; reflexivity).
  now rewrite !E, H.
Qed.

(** The ledger of the orchestration's end, next to that of the run's
    start. *)
Lemma saga_ledger env user body pid rows w rows0 u rows1 :
  started env user body pid rows w rows0 ->
  row_progress (db_now env) pid rows0 rows1 ->
  map row_identity (update_by_id (db_now env) pid u rows1)
  = (map row_identity rows
     ++ match find_order (str (order_number body)) rows with
        | Some _ => []
        | None =>
            [row_identity
               (new_row (insert_id env) (db_now env)
                  (fresh_insert user (str (order_number body))
                     (str (customer_name body)) (str (customer_email body))
                     (num (amount_cents body))))]
        end)%list.
Proof.
  intros Hs Hp. rewrite identity_update, (progress_identity _ _ _ _ Hp).
  destruct Hs as [(r & Hf & _ & _ & _ & ->) | (Hf & _ & <- & _ & ->)];
    rewrite Hf.
  - now rewrite identity_update, app_nil_r.
  - now rewrite map_app.
Qed.

Lemma run_ledger_identity env req d :
  let rows := processed_orders d in
  let rows' := processed_orders (db (snd (run env req d))) in
  map row_identity rows' = map row_identity rows
  \/ exists user body,
       reaches_ledger env req d user body
       /\ find_order (str (order_number body)) rows = None
       /\ map row_identity rows'
          = (map row_identity rows
             ++ [row_identity
                   (new_row (insert_id env) (db_now env)
                      (fresh_insert user (str (order_number body))
                         (str (customer_name body))
                         (str (customer_email body))
                         (num (amount_cents body))))])%list.
Proof.
  intros rows rows'. subst rows rows'.
  destruct (run env req d) as [res st] eqn:Hrun. cbn [snd].
  outcome_cases Hrun; rewrite ?audit_st_orders; try (left; reflexivity).
  match goal with
  | Hs : started _ _ _ _ _ _ _,
    Hout : saga_outcome _ _ _ _ _ _ _ _ _ _ _ _ _ _ _ _ _ |- _ =>
      destruct Hout as (_ & _ & _ & _ & rows1 & u & data & -> & Hp & _);
      rewrite (saga_ledger _ _ _ _ _ _ _ u _ Hs Hp)
  end.
  destruct (find_order (str (order_number body)) (processed_orders d))
    eqn:Hf.
  - left. now rewrite app_nil_r.
  - right. exists user, body.
    split; [match goal with Hr : reaches_saga _ _ _ _ _ _ |- _ =>
              apply Hr end|].
    split; [exact Hf | reflexivity].
Qed.

(** The rows the ledger held before a run are all there after it, in
    their order and with the columns that identify the order unchanged;
    a run adds at most one row, and only the row of its own request when
    the ledger held none for the order number. *)
Theorem ledger_rows_keep_identity env req d :
  let rows := processed_orders d in
  let rows' := processed_orders (db (snd (run env req d))) in
  map row_identity rows' = map row_identity rows
  \/ exists user body,
       reaches_ledger env req d user body
       /\ find_order (str (order_number body)) rows = None
       /\ map row_identity rows'
          = (map row_identity rows
             ++ [row_identity
                   (new_row (insert_id env) (db_now env)
                      (fresh_insert user (str (order_number body))
                         (str (customer_name body))
                         (str (customer_email body))
                         (num (amount_cents body))))])%list.
Proof. exact (run_ledger_identity env req d). Qed.

Lemma NoDup_snoc {A} (l : list A) x :
  NoDup l -> ~ In x l -> NoDup (l ++ [x]).
Proof.
  intros Hn Hx. induction Hn as [|y l Hy Hn IH]; cbn.
  - constructor; [intros []|constructor].
  - constructor.
    + rewrite in_app_iff. cbn. intros [H | [H | []]]; [contradiction|].
      subst. apply Hx. now left.
    + apply IH. intros H. apply Hx. now right.
Qed.

(** No run makes two rows of the ledger share an order number. *)
Theorem unique_order_numbers_kept env req d :
  NoDup (map po_order_number (processed_orders d)) ->
  NoDup (map po_order_number
           (processed_orders (db (snd (run env req d))))).
Proof.
  intros Hn.
  destruct (run_ledger_identity env req d) as [H | (user & body & _ & Hf & H)].
  - now rewrite (identity_order_numbers _ _ H).
  - assert (E : map po_order_number
                  (processed_orders (db (snd (run env req d))))
                = (map po_order_number (processed_orders d)
                   ++ [str (order_number body)])%list).
    { assert (P : forall l, map po_order_number l
                            = map (fun i => snd (fst (fst (fst (fst (fst i))))))
                                (map row_identity l))
        by (intros l; rewrite map_map; reflexivity).
      rewrite !P, H, map_app. reflexivity. }
    rewrite E. apply NoDup_snoc; [exact Hn | now apply find_order_none].
Qed.

Lemma unique_order_numbers_kept_witness :
  NoDup (map po_order_number
           (processed_orders (Sample.db_with failed ["customer_search"])))
  /\ NoDup (map po_order_number
              (processed_orders
                 (db (snd (run Sample.env Sample.req (Sample.db_with failed ["customer_search"])))))).
Proof.
  assert (H : NoDup (map po_order_number (processed_orders (Sample.db_with failed ["customer_search"]))))
    by (repeat constructor; cbn; intuition discriminate).
  split; [exact H|].
  exact (unique_order_numbers_kept Sample.env Sample.req (Sample.db_with failed ["customer_search"]) H).
Defined.

(** A row that a run changed or created is left completed or failed:
    no run ends with its row still in processing, the database applying
    each update. *)
Theorem touched_rows_settled env req d r' :
  In r' (processed_orders (db (snd (run env req d)))) ->
  In r' (processed_orders d)
  \/ po_status r' = completed \/ po_status r' = failed.
Proof.
  destruct (run env req d) as [res st] eqn:Hrun. cbn [snd].
  outcome_cases Hrun; rewrite ?audit_st_orders; auto.
  match goal with
  | Hs : started _ _ _ _ _ _ _,
    Hout : saga_outcome _ _ _ _ _ _ _ _ _ _ _ _ _ _ _ _ _ |- _ =>
      destruct Hout as (_ & _ & _ & _ & rows1 & u & data & -> & Hp & _
                        & Hcase);
      rename Hs into Hstart
  end.
  intros Hin.
  destruct (po_id r' =? pid)%string eqn:E.
  - apply String.eqb_eq in E. right.
    destruct Hcase as [(c & o & iv & step & _ & _ & _ & -> & _)
                      | (e & l & _ & -> & _)].
    + left. eapply update_status; [exact Hin | exact E | reflexivity].
    + right. eapply update_status; [exact Hin | exact E | reflexivity].
  - apply String.eqb_neq in E. left.
    apply update_other in Hin; [|exact E].
    apply (progress_other _ _ _ _ _ Hp) in Hin; [|exact E].
    destruct Hstart as [(r & _ & _ & _ & _ & ->) | (_ & _ & _ & _ & ->)].
    + eapply update_other; eassumption.
    + apply in_app_iff in Hin. destruct Hin as [Hin | [<- | []]];
        [exact Hin | contradiction].
Qed.

Lemma touched_rows_settled_witness :
  let r' :=
    mkOrder "row-1" "7600" "user-1" completed (Some "CUST-1") (Some "ORD-1")
      (Some "INV-1") (complete_steps "customer_created") (Js.of_Z 3250)
      "Jane Doe" "jane@example.org" "cultivera-7600" None 1700000000000
      (Some 1700000000000) in
  In r'
    (processed_orders (db (snd (run Sample.env Sample.req Sample.empty_db))))
  /\ (In r' (processed_orders Sample.empty_db)
      \/ po_status r' = completed \/ po_status r' = failed).
Proof.
  intros r'.
  assert (H : In r'
                (processed_orders
                   (db (snd (run Sample.env Sample.req Sample.empty_db)))))
    by (vm_compute; tauto).
  split; [exact H|].
  exact (touched_rows_settled Sample.env Sample.req Sample.empty_db r' H).
Defined.

(* ====================================================================== *)
(** ** What a successful run records *)
(* ====================================================================== *)

(** The row from which the orchestration starts. *)
Lemma started_row env user body pid rows w rows0 :
  started env user body pid rows w rows0 ->
  exists r0,
    find_order (str (order_number body)) rows0 = Some r0
    /\ po_id r0 = pid
    /\ forall r, find_order (str (order_number body)) rows = Some r ->
                 row_identity r0 = row_identity r
                 /\ po_error_message r0 = po_error_message r.
Proof.
  intros [(r & Hf & _ & Hp & _ & ->) | (Hf & _ & Hp & _ & ->)].
  - rewrite find_order_update, Hf. cbn [option_map].
    rewrite Hp, String.eqb_refl.
    eexists. split; [reflexivity|]. split; [exact Hp|].
    intros r1 H1. inversion H1; subst r1. split; reflexivity.
  - eexists. split; [apply find_order_app_new; [exact Hf | reflexivity]|].
    split; [reflexivity|]. intros r. rewrite Hf. discriminate.
Qed.

Lemma success_row env req d resp st :
  run env req d = (Val resp, st) ->
  status resp = 200 ->
  req_method req <> "OPTIONS" ->
  exists user body c o iv customer_step r0 r',
    reaches_ledger env req d user body
    /\ payload resp
       = SuccessBody (randomUUID env) (Some (sc_id c)) (Some o)
           (Some (inv_id iv)) (Some (inv_invoice_number iv))
    /\ invoice_published env (str (customer_name body))
         (str (customer_email body)) (str (order_number body))
         (num (amount_cents body)) (str (SQUARE_LOCATION_ID env))
         (str (SQUARE_ACCESS_TOKEN env)) c o iv
    /\ (customer_step = "customer_found"
        \/ customer_step = "customer_created")
    /\ find_order (str (order_number body)) (processed_orders (db st))
       = Some r'
    /\ completed_row env r0 r' c o iv (complete_steps customer_step)
    /\ forall r,
         find_order (str (order_number body)) (processed_orders d) = Some r ->
         row_identity r0 = row_identity r
         /\ po_error_message r0 = po_error_message r.
Proof.
  intros Hrun Hs Hm. outcome_cases Hrun;
    rewrite ?errorResponse_status in Hs; try discriminate;
    try contradiction.
  - match goal with
    | H : _ \/ _ |- _ => destruct H as [(_ & ->) | (_ & _ & ->)]
    end; discriminate.
  - match goal with
    | H : In _ gate_table |- _ =>
        destruct (gate_table_contract _ _ _ _ H) as (_ & _ & _ & _ & Hn & _)
    end. contradiction.
  - match goal with
    | Hst : started _ _ _ _ _ _ _,
      Hout : saga_outcome _ _ _ _ _ _ _ _ _ _ _ _ _ _ _ _ _,
      Hr : reaches_saga _ _ _ _ _ _ |- _ =>
        destruct (started_row _ _ _ _ _ _ _ Hst) as (r0 & Hf0 & Hp0 & Hr0);
        destruct Hout as (_ & _ & _ & _ & rows1 & u & data & _ & _ & _
                          & [(c & o & iv & step & -> & Hpub & Hstep & _ & _
                              & Hrow)
                            | (e & l & -> & _)]);
        [destruct (Hrow r0 Hf0 Hp0) as (r' & Hf' & Hc');
         destruct Hr as [Hl _]
        | rewrite errorResponse_status in Hs; discriminate]
    end.
    exists user, body, c, o, iv, step, r0, r'.
    split; [exact Hl|]. split; [reflexivity|]. split; [exact Hpub|].
    split; [exact Hstep|]. split; [exact Hf'|]. split; [exact Hc'|].
    exact Hr0.
Qed.

(** A run that answers 200 leaves, under the order number of the request,
    a completed row with the five steps and the time of completion; the
    customer, order and invoice ids in the row are those in the response,
    and they are what the platform answered along the chain of
    requests. *)
Theorem success_recorded env req d resp st :
  run env req d = (Val resp, st) ->
  status resp = 200 ->
  req_method req <> "OPTIONS" ->
  exists user body c o iv customer_step r',
    reaches_ledger env req d user body
    /\ payload resp
       = SuccessBody (randomUUID env) (Some (sc_id c)) (Some o)
           (Some (inv_id iv)) (Some (inv_invoice_number iv))
    /\ invoice_published env (str (customer_name body))
         (str (customer_email body)) (str (order_number body))
         (num (amount_cents body)) (str (SQUARE_LOCATION_ID env))
         (str (SQUARE_ACCESS_TOKEN env)) c o iv
    /\ find_order (str (order_number body)) (processed_orders (db st))
       = Some r'
    /\ po_status r' = completed
    /\ po_square_customer_id r' = Some (sc_id c)
    /\ po_square_order_id r' = Some o
    /\ po_square_invoice_id r' = Some (inv_id iv)
    /\ po_steps_completed r' = complete_steps customer_step
    /\ (customer_step = "customer_found"
        \/ customer_step = "customer_created")
    /\ po_completed_at r' = Some (date_now env).
Proof.
  intros Hrun Hs Hm.
  destruct (success_row _ _ _ _ _ Hrun Hs Hm)
    as (user & body & c & o & iv & step & r0 & r' & Hl & Hp & Hpub & Hstep
        & Hf & (_ & H1 & H2 & H3 & H4 & H5 & H6 & _) & _).
  exists user, body, c, o, iv, step, r'.
  split; [exact Hl|]. split; [exact Hp|]. split; [exact Hpub|].
  split; [exact Hf|]. split; [exact H1|]. split; [exact H2|].
  split; [exact H3|]. split; [exact H4|]. split; [exact H5|].
  split; [exact Hstep | exact H6].
Qed.

Lemma success_recorded_witness :
  exists r',
    find_order "7600"
      (processed_orders (db (snd (run Sample.env Sample.req Sample.empty_db))))
    = Some r'
    /\ po_status r' = completed
    /\ po_square_invoice_id r' = Some "INV-1".
Proof.
  destruct (success_recorded Sample.env Sample.req Sample.empty_db
              (success_response "corr-1" "CUST-1" "ORD-1" "INV-1" "000042")
              (snd (run Sample.env Sample.req Sample.empty_db)))
    as (user & body & c & o & iv & step & r' & Hl & Hp & _ & Hf & Hs & _ & _
        & Hi & _).
  - vm_compute. reflexivity.
  - reflexivity.
  - discriminate.
  - destruct Hl as (_ & Hj & _). inversion Hj; subst body.
    inversion Hp; subst.
    exists r'. split; [exact Hf|]. split; [exact Hs|].
    rewrite Hi. f_equal. symmetry. assumption.
Defined.

(** A retry that succeeds completes the row of the earlier attempt and
    leaves in it the amount, the customer and the user of that attempt,
    and its error message. *)
Theorem retry_success_keeps_row env req d resp st body r :
  run env req d = (Val resp, st) ->
  status resp = 200 ->
  req_method req <> "OPTIONS" ->
  req_json req = JsonObject body ->
  find_order (str (order_number body)) (processed_orders d) = Some r ->
  exists r',
    find_order (str (order_number body)) (processed_orders (db st)) = Some r'
    /\ po_status r' = completed
    /\ row_identity r' = row_identity r
    /\ po_error_message r' = po_error_message r.
Proof.
  intros Hrun Hs Hm Hj Hf.
  destruct (success_row _ _ _ _ _ Hrun Hs Hm)
    as (user & body0 & c & o & iv & step & r0 & r' & Hl & _ & _ & _
        & Hf' & (Hi & Hst & _ & _ & _ & _ & _ & He) & Hr0).
  assert (body0 = body).
  { destruct Hl as (_ & Hj0 & _). congruence. }
  subst body0. destruct (Hr0 r Hf) as [Hi0 He0].
  exists r'. split; [exact Hf'|]. split; [exact Hst|].
  split; congruence.
Qed.

Lemma retry_success_keeps_row_witness :
  exists r',
    find_order "7600"
      (processed_orders
         (db (snd (run Sample.env Sample.req failed_db))))
    = Some r'
    /\ po_status r' = completed
    /\ po_error_message r' = Some "Order creation failed: Location is not active".
Proof.
  destruct (retry_success_keeps_row Sample.env Sample.req failed_db
              (success_response "corr-1" "CUST-1" "ORD-1" "INV-1" "000042")
              (snd (run Sample.env Sample.req failed_db))
              Sample.body (hd (Sample.row failed []) (processed_orders failed_db)))
    as (r' & Hf & Hs & _ & He).
  - vm_compute. reflexivity.
  - reflexivity.
  - discriminate.
  - reflexivity.
  - reflexivity.
  - exists r'. split; [exact Hf|]. split; [exact Hs | exact He].
Defined.

(* ====================================================================== *)
(** ** The gates before the body is read *)
(* ====================================================================== *)

Lemma drop_app p t : drop (String.length p) (p ++ t) = t.
Proof. induction p as [|c p IH]; [reflexivity | exact IH]. Qed.

Lemma prefix_app p t : String.prefix p (p ++ t) = true.
Proof. apply prefix_spec. now exists t. Qed.

Lemma remove_first_eq s p :
  remove_first s p
  = if String.prefix p s then drop (String.length p) s
    else match s with
         | EmptyString => EmptyString
         | String c s' => String c (remove_first s' p)
         end.
Proof. destruct s; reflexivity. Qed.

Lemma remove_first_prefix p t : remove_first (p ++ t) p = t.
Proof. rewrite remove_first_eq, prefix_app. apply drop_app. Qed.

Lemma bearer_check req :
  (bearer_missing req = false
   <-> exists t, req_authorization req = Some ("Bearer " ++ t))
  /\ forall t, req_authorization req = Some ("Bearer " ++ t) ->
               jwt_of req = t.
Proof.
  unfold bearer_missing, jwt_of, startsWith. split.
  - rewrite orb_false_iff, !negb_false_iff. split.
    + intros [_ Hp]. apply prefix_spec in Hp. destruct Hp as [t Ht].
      exists t. destruct (req_authorization req) as [h|]; cbn in Ht.
      * now rewrite Ht.
      * discriminate.
    + intros [t ->]. split; [reflexivity|]. cbn [str]. apply prefix_app.
  - intros t ->. cbn [str]. apply remove_first_prefix.
Qed.

(** The bearer check passes exactly for a header that starts with
    'Bearer ', and the credential that is then verified is what follows
    that prefix. *)
Theorem bearer_credential req :
  (bearer_missing req = false
   <-> exists t, req_authorization req = Some ("Bearer " ++ t))
  /\ forall t, req_authorization req = Some ("Bearer " ++ t) ->
               jwt_of req = t.
Proof. exact (bearer_check req). Qed.

(** A POST to a configured server whose Authorization header is absent
    or does not start with 'Bearer ' is answered 401 AUTH_MISSING; the
    identity provider is not consulted, and the one effect is an audit
    entry with the result AUTH_MISSING and no user. *)
Theorem bearer_required env req d :
  req_method req = "POST" ->
  config_missing env = false ->
  (forall t, req_authorization req <> Some ("Bearer " ++ t)) ->
  exists message data,
    run env req d
    = (Val (errorResponse AUTH_MISSING message 401 (randomUUID env) None),
       audit_st env (randomUUID env) data (init_st d))
    /\ a_result data = R_AUTH_MISSING
    /\ a_error_code data = Some AUTH_MISSING
    /\ a_user_id data = None.
Proof.
  intros Hm Hc Hb.
  assert (Hmiss : bearer_missing req = true).
  { destruct (bearer_missing req) eqn:E; [reflexivity|].
    apply (proj1 (bearer_check req)) in E. destruct E as [t Ht].
    exfalso. exact (Hb t Ht). }
  unfold run, handler. rewrite Hm. cbn.
  unfold config_missing in Hc. rewrite Hc.
  unfold bearer_missing in Hmiss. rewrite Hmiss.
  do 2 eexists. split; [apply logAudit_ret|]. repeat split.
Qed.

Lemma bearer_required_witness :
  exists message data,
    run Sample.env (mkRequest "POST" (Some "Basic abc") (JsonObject Sample.body))
      Sample.empty_db
    = (Val (errorResponse AUTH_MISSING message 401 "corr-1" None),
       audit_st Sample.env "corr-1" data (init_st Sample.empty_db))
    /\ a_result data = R_AUTH_MISSING.
Proof.
  destruct (bearer_required Sample.env
              (mkRequest "POST" (Some "Basic abc") (JsonObject Sample.body))
              Sample.empty_db)
    as (message & data & Hrun & Hres & _).
  - reflexivity.
  - reflexivity.
  - intros t. cbn. discriminate.
  - exists message, data. split; [exact Hrun | exact Hres].
Defined.

(** An identified caller for whom the role lookup does not answer true,
    be it that it answers false or that it fails, is answered 403
    UNAUTHORIZED; the body is not read, and the one effect is an audit
    entry with the result UNAUTHORIZED and the caller's id. *)
Theorem unauthorized_fails_closed env req d user :
  presented env req ->
  auth_getUser env (jwt_of req) = (Some user, None) ->
  is_authorized_invoicer env (user_id user) <> Some true ->
  exists message data,
    run env req d
    = (Val (errorResponse UNAUTHORIZED message 403 (randomUUID env) None),
       audit_st env (randomUUID env) data (init_st d))
    /\ a_result data = R_UNAUTHORIZED
    /\ a_error_code data = Some UNAUTHORIZED
    /\ a_user_id data = Some (user_id user).
Proof.
  intros (Hm & Hc & Hb) Hu Ha.
  unfold run, handler. rewrite Hm. cbn.
  unfold config_missing in Hc. rewrite Hc.
  unfold bearer_missing in Hb. rewrite Hb.
  unfold jwt_of in Hu. rewrite Hu.
  destruct (is_authorized_invoicer env (user_id user)) as [[|]|];
    [contradiction | |];
    (do 2 eexists; split; [apply logAudit_ret|]; repeat split).
Qed.

Lemma unauthorized_fails_closed_witness :
  let env :=
    mkEnv (Some "https://project.supabase.co") (Some "service-role-key")
      (Some "square-token") (Some "LOC-1") "corr-1" 1700000000000
      Sample.parse (fun _ => "0.0") (fun _ => "2023-11-14T22:13:21+00:00")
      "2023-12-14" Sample.getUser (fun _ => None) false false 1700000000000
      None "row-1" false Sample.fetch_ok in
  exists message data,
    run env Sample.req Sample.empty_db
    = (Val (errorResponse UNAUTHORIZED message 403 "corr-1" None),
       audit_st env "corr-1" data (init_st Sample.empty_db))
    /\ a_user_id data = Some "user-1".
Proof.
  intros env.
  destruct (unauthorized_fails_closed env Sample.req Sample.empty_db
              Sample.user)
    as (message & data & Hrun & _ & _ & Hu).
  - repeat split; reflexivity.
  - reflexivity.
  - discriminate.
  - exists message, data. split; [exact Hrun | exact Hu].
Defined.

(* ====================================================================== *)
(** ** The body *)
(* ====================================================================== *)

(** A body that is no JSON is rejected as VALIDATION_MISSING_FIELD with
    one audit entry; the JSON value null makes the handler throw before
    it writes anything. *)
Theorem unreadable_body env req d user :
  authorized env req user ->
  (req_json req = InvalidJson ->
   rejection env req d VALIDATION_MISSING_FIELD 400 None VALIDATION_FAILED)
  /\ (req_json req = JsonNull ->
      exists e, run env req d = (Throw e, init_st d)).
Proof.
  intros Had. rewrite (run_authorized _ _ _ _ Had).
  unfold rejection. rewrite (run_authorized _ _ _ _ Had).
  unfold validate_and_process. split; intros ->.
  - do 2 eexists. split; [apply logAudit_ret|]. split; reflexivity.
  - eexists. reflexivity.
Qed.

Lemma unreadable_body_witness :
  exists e,
    run Sample.env (mkRequest "POST" (Some "Bearer jwt-1") JsonNull)
      Sample.empty_db
    = (Throw e, init_st Sample.empty_db).
Proof.
  apply (unreadable_body Sample.env
           (mkRequest "POST" (Some "Bearer jwt-1") JsonNull)
           Sample.empty_db Sample.user).
  - repeat split; reflexivity.
  - reflexivity.
Defined.

(** The list of missing fields names a field exactly when the
    required-fields check finds it absent or empty, so the check fails
    exactly when the list is not empty. *)
Theorem missingFields_complete body :
  (missing_required body = true <-> missingFields body <> [])
  /\ (In "order_number" (missingFields body)
      <-> truthy (order_number body) = false)
  /\ (In "customer_name" (missingFields body)
      <-> truthy (customer_name body) = false)
  /\ (In "customer_email" (missingFields body)
      <-> truthy (customer_email body) = false)
  /\ (In "amount_cents" (missingFields body) <-> amount_cents body = None)
  /\ (In "request_timestamp" (missingFields body)
      <-> truthy (request_timestamp body) = false).
Proof.
  unfold missing_required, missingFields.
  destruct (truthy (order_number body)), (truthy (customer_name body)),
    (truthy (customer_email body)), (amount_cents body),
    (truthy (request_timestamp body)); cbn;
    repeat split; intros; try discriminate; try tauto;
    repeat match goal with
           | H : _ \/ _ |- _ => destruct H as [H|H]
           end;
    try discriminate; try contradiction; auto.
Qed.

(* ====================================================================== *)
(** ** The ledger record *)
(* ====================================================================== *)

(** An insert that the database refuses for a reason other than the
    unique order number makes the handler throw: no response is built,
    no audit entry is written, the platform is not called and the tables
    are as before. *)
Theorem insert_failure_escapes env req d user body c :
  reaches_ledger env req d user body ->
  find_order (str (order_number body)) (processed_orders d) = None ->
  insert_error env = Some c ->
  c <> "23505" ->
  exists st,
    run env req d = (Throw (PostgrestError c), st)
    /\ effects st
       = [OrdersInsert
            (fresh_insert user (str (order_number body))
               (str (customer_name body)) (str (customer_email body))
               (num (amount_cents body)))]
    /\ db st = d.
Proof.
  intros Hr Hf Hi Hc.
  rewrite (run_reaches_ledger _ _ _ _ _ Hr).
  rewrite (process_insert_error _ _ _ _ _ _ _ _ _ _ (init_st d) c Hf Hi)
    by (now apply String.eqb_neq).
  eexists. split; [reflexivity|]. split; reflexivity.
Qed.

Lemma insert_failure_escapes_witness :
  exists st,
    run (Sample.env_with 1700000000000 (Some "08006") false Sample.fetch_ok)
      Sample.req Sample.empty_db
    = (Throw (PostgrestError "08006"), st)
    /\ db st = Sample.empty_db.
Proof.
  destruct (insert_failure_escapes
              (Sample.env_with 1700000000000 (Some "08006") false
                 Sample.fetch_ok)
              Sample.req Sample.empty_db Sample.user Sample.body "08006")
    as (st & Hrun & _ & Hdb).
  - repeat split; reflexivity.
  - reflexivity.
  - reflexivity.
  - discriminate.
  - exists st. split; [exact Hrun | exact Hdb].
Defined.

(** Once a run has answered 200 for an order, a later request for the
    same order number that gets as far as the ledger is answered 409
    DUPLICATE_ORDER, without a call to the platform and without a write
    to the ledger. *)
Theorem completed_order_not_repeated env req d resp st body env' req' user'
    body' :
  run env req d = (Val resp, st) ->
  status resp = 200 ->
  req_method req <> "OPTIONS" ->
  req_json req = JsonObject body ->
  reaches_ledger env' req' (db st) user' body' ->
  order_number body' = order_number body ->
  exists resp' st',
    run env' req' (db st) = (Val resp', st')
    /\ status resp' = 409
    /\ response_code resp' = Some DUPLICATE_ORDER
    /\ square_requests (effects st') = []
    /\ ledger_writes (effects st') = []
    /\ processed_orders (db st') = processed_orders (db st).
Proof.
  intros Hrun Hs Hm Hj Hr' Ho.
  destruct (success_row _ _ _ _ _ Hrun Hs Hm)
    as (user & body0 & c & o & iv & step & r0 & r' & Hl & _ & _ & _
        & Hf' & (_ & Hst & _) & _).
  assert (body0 = body).
  { destruct Hl as (_ & Hj0 & _). congruence. }
  subst body0. rewrite <- Ho in Hf'.
  rewrite (run_reaches_ledger _ _ _ _ _ Hr').
  rewrite (process_completed env' user' (randomUUID env')
             (str (order_number body')) (str (customer_name body'))
             (str (customer_email body')) (num (amount_cents body'))
             (str (request_timestamp body')) (str (SQUARE_ACCESS_TOKEN env'))
             (str (SQUARE_LOCATION_ID env')) (init_st (db st)) r' Hf' Hst).
  do 2 eexists. split; [reflexivity|].
  split; [reflexivity|]. split; [reflexivity|].
  split; [reflexivity|]. split; [reflexivity|].
  rewrite audit_st_orders. reflexivity.
Qed.

Lemma completed_order_not_repeated_witness :
  exists resp' st',
    run Sample.env Sample.req
      (db (snd (run Sample.env Sample.req Sample.empty_db)))
    = (Val resp', st')
    /\ status resp' = 409
    /\ square_requests (effects st') = [].
Proof.
  destruct (completed_order_not_repeated Sample.env Sample.req
              Sample.empty_db
              (success_response "corr-1" "CUST-1" "ORD-1" "INV-1" "000042")
              (snd (run Sample.env Sample.req Sample.empty_db))
              Sample.body Sample.env Sample.req Sample.user Sample.body)
    as (resp' & st' & Hrun & Hs & _ & Hq & _).
  - vm_compute. reflexivity.
  - reflexivity.
  - discriminate.
  - reflexivity.
  - repeat split; vm_compute; reflexivity.
  - reflexivity.
  - exists resp', st'. split; [exact Hrun|]. split; [exact Hs | exact Hq].
Defined.

(** The audit log after a run is the log before it followed by the
    entries the run wrote, in their order, each under the database's
    time; when the audit table fails it is the log before the run. *)
Theorem audit_log_appended env req d :
  invoice_audit_log (db (snd (run env req d)))
  = (invoice_audit_log d ++ stored env (effects (snd (run env req d))))%list.
Proof.
  exact (proj1 (outcome_audit _ _ _ _ _ (run_outcome env req d))).
Qed.

(* ====================================================================== *)
(** ** The status functions and the client *)
(* ====================================================================== *)

Lemma status_eqb_completed s : status_eqb s completed = true <-> s = completed.
Proof. destruct s; cbn; split; congruence. Qed.

Lemma find_order_some on rows r :
  find_order on rows = Some r -> In r rows /\ po_order_number r = on.
Proof.
  unfold find_order. intros H. apply find_some in H.
  destruct H as [Hin He]. split; [exact Hin | now apply String.eqb_eq].
Qed.

Lemma find_order_unique on rows r :
  NoDup (map po_order_number rows) ->
  In r rows -> po_order_number r = on -> find_order on rows = Some r.
Proof.
  unfold find_order.
  induction rows as [|x rows IH]; intros Hn Hin Hr; [contradiction|].
  cbn [map] in Hn. inversion Hn as [|? ? Hx Hn']; subst.
  cbn [find]. destruct Hin as [-> | Hin].
  - now rewrite String.eqb_refl.
  - destruct (po_order_number x =? po_order_number r)%string eqn:E.
    + apply String.eqb_eq in E. exfalso. apply Hx. rewrite E.
      now apply in_map.
    + now apply IH.
Qed.

(** On a ledger without two rows for an order number,
    [was_order_processed] holds exactly when the row that the handler's
    duplicate check finds is completed. *)
Theorem was_order_processed_agrees check_order_number rows :
  NoDup (map po_order_number rows) ->
  was_order_processed check_order_number rows = true
  <-> exists r, find_order check_order_number rows = Some r
                /\ po_status r = completed.
Proof.
  intros Hn. unfold was_order_processed. rewrite existsb_exists. split.
  - intros (r & Hin & H). apply andb_true_iff in H. destruct H as [Ho Hs].
    apply String.eqb_eq in Ho. apply status_eqb_completed in Hs.
    exists r. split; [now apply find_order_unique | exact Hs].
  - intros (r & Hf & Hs). apply find_order_some in Hf.
    destruct Hf as [Hin Ho]. exists r. split; [exact Hin|].
    rewrite Ho, String.eqb_refl, Hs. reflexivity.
Qed.

Lemma was_order_processed_agrees_witness :
  NoDup (map po_order_number
           (processed_orders (Sample.db_with completed [])))
  /\ (was_order_processed "7600"
        (processed_orders (Sample.db_with completed [])) = true
      <-> exists r,
            find_order "7600" (processed_orders (Sample.db_with completed []))
            = Some r
            /\ po_status r = completed).
Proof.
  assert (H : NoDup (map po_order_number
                       (processed_orders (Sample.db_with completed []))))
    by (repeat constructor; cbn; tauto).
  split; [exact H|].
  exact (was_order_processed_agrees "7600"
           (processed_orders (Sample.db_with completed [])) H).
Defined.

Lemma get_processed_order_first n rows :
  hd_error (get_processed_order n rows)
  = option_map
      (fun po =>
         mkProcessedOrder (po_order_number po) (po_status po)
           (po_square_invoice_id po) (po_completed_at po)
           (po_customer_name po) (po_amount_cents po))
      (find_order n rows).
Proof.
  unfold get_processed_order, find_order.
  induction rows as [|r rows IH]; [reflexivity|].
  cbn [filter find]. destruct (po_order_number r =? n)%string;
    [reflexivity | exact IH].
Qed.

Lemma checkOrderStatus_found accessToken rows orderNumber :
  truthy accessToken = true ->
  let orderStatus :=
    Client.checkOrderStatus accessToken
      (fun n => Some (get_processed_order n rows)) orderNumber in
  (Client.already_sent orderStatus = true
   <-> exists r, find_order orderNumber rows = Some r
                 /\ po_status r = completed)
  /\ forall r, find_order orderNumber rows = Some r ->
               Client.os_exists orderStatus = true
               /\ Client.os_status orderStatus = Some (po_status r)
               /\ Client.os_square_invoice_id orderStatus
                  = po_square_invoice_id r.
Proof.
  intros Ht orderStatus. subst orderStatus.
  unfold Client.checkOrderStatus, Client.already_sent. rewrite Ht. cbn [negb].
  pose proof (get_processed_order_first orderNumber rows) as Hh.
  destruct (find_order orderNumber rows) as [r|] eqn:Hf;
    destruct (get_processed_order orderNumber rows) as [|o l];
    cbn in Hh; try discriminate; cbn.
  - inversion Hh; subst o. cbn. split.
    + rewrite status_eqb_completed. split.
      * intros Hs. now exists r.
      * intros (r' & Hr' & Hs). now inversion Hr'; subst.
    + intros r' Hr'. inversion Hr'; subst. repeat split.
  - split; [|intros r' Hr'; discriminate].
    split; [discriminate | intros (r' & Hr' & _); discriminate].
Qed.

(** With an access token and an answering database, the extension's
    check takes the invoice as already sent exactly when the row that the
    handler's duplicate check finds is completed, and it reports the
    status and the invoice id of that row. *)
Theorem checkOrderStatus_agrees accessToken rows orderNumber :
  truthy accessToken = true ->
  let orderStatus :=
    Client.checkOrderStatus accessToken
      (fun n => Some (get_processed_order n rows)) orderNumber in
  (Client.already_sent orderStatus = true
   <-> exists r, find_order orderNumber rows = Some r
                 /\ po_status r = completed)
  /\ forall r, find_order orderNumber rows = Some r ->
               Client.os_exists orderStatus = true
               /\ Client.os_status orderStatus = Some (po_status r)
               /\ Client.os_square_invoice_id orderStatus
                  = po_square_invoice_id r.
Proof. exact (checkOrderStatus_found accessToken rows orderNumber). Qed.

Lemma checkOrderStatus_agrees_witness :
  Client.already_sent
    (Client.checkOrderStatus (Some "jwt-1")
       (fun n =>
          Some (get_processed_order n
                  (processed_orders (Sample.db_with completed []))))
       "7600")
  = true
  <-> exists r,
        find_order "7600" (processed_orders (Sample.db_with completed []))
        = Some r
        /\ po_status r = completed.
Proof.
  apply (checkOrderStatus_agrees (Some "jwt-1")
           (processed_orders (Sample.db_with completed [])) "7600").
  reflexivity.
Defined.



(** Without an access token the extension answers AUTH_MISSING itself
    and sends nothing. With one, it sends a POST whose credential is the
    token; a configured server answers it neither with 'Method not
    allowed' nor with AUTH_MISSING nor with INTERNAL_ERROR, and an
    exception of the handler can only be a refused insert. *)
Theorem client_request_served accessToken now_iso orderData :
  (truthy accessToken = false ->
   exists message,
     Client.createInvoice accessToken now_iso orderData
     = inl (ErrorBody EmptyString AUTH_MISSING message None))
  /\ (truthy accessToken = true ->
      exists req,
        Client.createInvoice accessToken now_iso orderData = inr req
        /\ jwt_of req = str accessToken
        /\ forall env d,
             config_missing env = false ->
             match fst (run env req d) with
             | Val resp =>
                 status resp <> 405
                 /\ payload resp <> NoBody
                 /\ response_code resp <> Some AUTH_MISSING
                 /\ response_code resp <> Some INTERNAL_ERROR
             | Throw e => exists c, e = PostgrestError c
             end).
Proof.
  unfold Client.createInvoice. split; intros Ht; rewrite Ht; cbn [negb].
  { eexists. reflexivity. }
  eexists. split; [reflexivity|].
  match goal with
  | |- jwt_of ?r = _ /\ _ => set (req := r)
  end.
  assert (Hh : req_authorization req = Some ("Bearer " ++ str accessToken))
    by reflexivity.
  split; [now apply (proj2 (bearer_check req))|].
  assert (Hb : bearer_missing req = false)
    by (apply (proj1 (bearer_check req)); eexists; exact Hh).
  intros env d Hc.
  destruct (run env req d) as [res st] eqn:Hrun. cbn [fst].
  outcome_cases Hrun.
  - discriminate.
  - match goal with
    | H : _ \/ _ |- _ => destruct H as [(Hp & _) | (_ & Hp & _)]
    end; [now contradiction Hp | congruence].
  - match goal with
    | H : In _ gate_table, Hi : _ <-> _ |- _ =>
        destruct (gate_table_contract _ _ _ _ H)
          as (_ & _ & _ & Hn & _ & H405);
        rename Hi into Hiff
    end.
    rewrite errorResponse_status.
    split; [exact H405|]. split; [discriminate|].
    split; intros E; inversion E; subst.
    + pose proof (proj1 Hiff eq_refl). congruence.
    + now contradiction Hn.
  - discriminate.
  - repeat split; discriminate.
  - repeat split; discriminate.
  - eexists. reflexivity.
  - match goal with
    | Hout : saga_outcome _ _ _ _ _ _ _ _ _ _ _ _ _ _ _ _ _ |- _ =>
        destruct Hout as (_ & _ & _ & _ & rows1 & u & data & _ & _ & _
                          & [(c & o & iv & step & -> & _)
                            | (e & l & -> & _)])
    end; [repeat split; discriminate|].
    rewrite errorResponse_status.
    split; [discriminate|]. split; [discriminate|].
    pose proof (classify_codes (stepsCompleted l)) as Hcl. cbn in Hcl.
    unfold response_code. rewrite errorResponse_payload.
    repeat match goal with
           | H : _ \/ _ |- _ => destruct H as [H|H]
           | H : False |- _ => contradiction
           end;
      rewrite <- Hcl; (split; discriminate).
Qed.

Lemma client_request_served_witness :
  exists req,
    Client.createInvoice (Some "jwt-1") Sample.stamp
      (Client.mkParsedOrderData "7600" "Jane Doe" "jane@example.org"
         (Js.of_Z 3250))
    = inr req
    /\ jwt_of req = "jwt-1".
Proof.
  destruct (proj2 (client_request_served (Some "jwt-1") Sample.stamp
                     (Client.mkParsedOrderData "7600" "Jane Doe"
                        "jane@example.org" (Js.of_Z 3250))))
    as (req & Hreq & Hjwt & _).
  - reflexivity.
  - exists req. split; [exact Hreq | exact Hjwt].
Defined.

Example client_request_is_sample :
  Client.createInvoice (Some "jwt-1") Sample.stamp
    (Client.mkParsedOrderData "7600" "Jane Doe" "jane@example.org"
       (Js.of_Z 3250))
  = inr Sample.req.
Proof. reflexivity. Qed.

(* ====================================================================== *)
(** ** Exceptions and runs without a trace *)
(* ====================================================================== *)

(** For a request whose body, when it is an object, has members of the
    types that [CreateInvoiceRequest] declares, the handler lets an
    exception escape in two cases only: the body of an authorized request
    is the JSON value null, or the insert of the ledger row is refused
    for a reason other than the unique order number. A failure of the
    platform never escapes. *)
Theorem throws_only_two_ways env req d e st :
  run env req d = (Throw e, st) ->
  (exists user, authorized env req user /\ req_json req = JsonNull)
  \/ (exists user body c,
        reaches_ledger env req d user body
        /\ find_order (str (order_number body)) (processed_orders d) = None
        /\ insert_error env = Some c
        /\ c <> "23505"
        /\ e = PostgrestError c).
Proof.
  intros Hrun. outcome_cases Hrun.
  - left. eexists. split; eassumption.
  - right. do 3 eexists.
    split; [eassumption|]. split; [eassumption|]. split; [eassumption|].
    split; [assumption | reflexivity].
Qed.

Lemma throws_only_two_ways_witness :
  (exists user,
     authorized Sample.env (mkRequest "POST" (Some "Bearer jwt-1") JsonNull)
       user
     /\ JsonNull = JsonNull)
  \/ (exists user body c,
        reaches_ledger Sample.env
          (mkRequest "POST" (Some "Bearer jwt-1") JsonNull) Sample.empty_db
          user body
        /\ find_order (str (order_number body))
             (processed_orders Sample.empty_db) = None
        /\ insert_error Sample.env = Some c
        /\ c <> "23505"
        /\ ErrorObject
             "Cannot destructure property 'order_number' of 'body' as it is null."
           = PostgrestError c).
Proof.
  apply (throws_only_two_ways Sample.env
           (mkRequest "POST" (Some "Bearer jwt-1") JsonNull) Sample.empty_db
           _ (init_st Sample.empty_db)).
  vm_compute. reflexivity.
Defined.

(** For a request whose body, when it is an object, has members of the
    types that [CreateInvoiceRequest] declares, a run leaves no effect at
    all, neither an audit entry nor a write nor a call, exactly when the
    request is no POST, or the server's configuration is incomplete, or
    the body of an authorized request is the JSON value null. *)
Theorem silent_runs env req d :
  effects (snd (run env req d)) = []
  <-> req_method req <> "POST"
      \/ config_missing env = true
      \/ exists user, authorized env req user /\ req_json req = JsonNull.
Proof.
  split.
  - destruct (run env req d) as [res st] eqn:Hrun. cbn [snd].
    outcome_cases Hrun; rewrite ?audit_st_effects; cbn [effects init_st];
      intros He.
    + left. congruence.
    + match goal with
      | H : _ \/ _ |- _ => destruct H as [(Hp & _) | (_ & Hc & _)]
      end; auto.
    + discriminate.
    + right. right. eexists. split; eassumption.
    + discriminate.
    + discriminate.
    + discriminate.
    + congruence.
  - intros [Hm | [Hc | (user & Had & Hj)]].
    + unfold run, handler.
      destruct (req_method req =? "OPTIONS")%string; [reflexivity|].
      apply String.eqb_neq in Hm. rewrite Hm. reflexivity.
    + unfold run, handler.
      destruct (req_method req =? "OPTIONS")%string; [reflexivity|].
      destruct (req_method req =? "POST")%string; [|reflexivity].
      cbn [negb]. unfold config_missing in Hc. rewrite Hc. reflexivity.
    + rewrite (run_authorized _ _ _ _ Had).
      unfold validate_and_process. rewrite Hj. reflexivity.
Qed.

(* ====================================================================== *)
(** ** A complete orchestration, and the steps it writes *)
(* ====================================================================== *)

Ltac follow_answers :=
  repeat (match goal with
          | H : square_fetch _ _ = _ |- _ => rewrite H
          | H : j_errors _ = _ |- _ => rewrite H
          | H : j_data_customers _ = _ |- _ => rewrite H
          | H : j_customer _ = _ |- _ => rewrite H
          | H : j_order_id _ = _ |- _ => rewrite H
          | H : j_invoice _ = _ |- _ => rewrite H
          end; norm).

(** When the platform answers every request of the chain, the [try] block
    sends all of them in order and returns the success response. *)
Lemma saga_try_complete env user cid ik on cn ce amt ts pid tok loc d es0
    c o iv :
  invoice_published env cn ce on amt loc tok c o iv ->
  exists st1 created iv',
    saga_try env user cid ik on cn ce amt ts pid tok loc
      (mkSt d es0 init_locals)
    = (Val (success_response cid (sc_id c) o (inv_id iv)
              (inv_invoice_number iv)), st1)
    /\ square_requests (effects st1)
       = (square_requests es0
          ++ saga_requests env cn ce on amt loc tok created c o iv iv')%list
    /\ (created = true <-> none_found env ce tok).
Proof.
  intros (iv' & (((Hres & jo & Ho & Hoe & Hoid) & ji & Hi & Hie & Hii)
                 & jg & Hg & Hge & Hgi) & jp & Hp & Hpe).
  destruct Hres as [(js & rest & Hs & Hse & Hsc)
                   | ((js & Hs & Hse & Hsc) & jc & Hc & Hce & Hcc)];
    unfold search_request, customer_request, order_request, invoice_request,
      get_invoice_request, publish_request in *;
    cbn in Ho, Hi, Hg, Hp, Hs.
  - eexists. exists false, iv'. split.
    + unfold_saga. norm. follow_answers. rewrite logAudit_run. reflexivity.
    + split.
      * rewrite audit_st_effects. cbn [effects].
        rewrite <- !app_assoc, !square_requests_app. reflexivity.
      * split; [discriminate|].
        intros (j & Hj & _ & Hn). unfold search_request in Hj. cbn in Hj.
        rewrite Hs in Hj. inversion Hj; subst j.
        rewrite Hsc in Hn. destruct Hn; discriminate.
  - cbn in Hc.
    eexists. exists true, iv'. split.
    + unfold_saga. norm.
      destruct Hsc as [Hsc|Hsc]; follow_answers; rewrite logAudit_run;
        reflexivity.
    + split.
      * rewrite audit_st_effects. cbn [effects].
        rewrite <- !app_assoc, !square_requests_app. reflexivity.
      * split; [intros _ | reflexivity].
        exists js. unfold search_request. cbn. auto.
Qed.

Ltac solve_segments :=
  repeat (apply Forall_cons; [eexists; cbn; reflexivity|]); apply Forall_nil.

Ltac solve_stored :=
  intros (r & Hf & Hp);
  rewrite !find_order_update, Hf; cbn [option_map];
  subst;
  repeat first [rewrite String.eqb_refl | progress cbn [po_id apply_update]];
  eexists; split; [reflexivity|]; split; reflexivity.

Ltac solve_steps step :=
  exists step;
  split; [reflexivity|];
  split; [first [left; reflexivity | right; reflexivity]|];
  cbn [steps_writes u_steps_completed];
  split; [discriminate|];
  split; [cbn; lia|];
  split; [solve_segments|];
  split; [solve_append_only|];
  solve_stored.

(** The values that a run of the orchestration writes to steps_completed:
    there is at least one; the first holds at most the customer steps;
    each is an initial segment of the five steps and extends the one
    before; and the row ends holding the last of them. *)
Lemma saga_steps env user cid ik on cn ce amt ts pid tok loc d es0 :
  let '(res, st') :=
    saga env user cid ik on cn ce amt ts pid tok loc
      (mkSt d es0 init_locals) in
  exists es customer_step,
    effects st' = (es0 ++ es)%list
    /\ (customer_step = "customer_found"
        \/ customer_step = "customer_created")
    /\ steps_writes es <> []
    /\ (List.length (hd [] (steps_writes es)) <= 2)%nat
    /\ Forall (fun w => initial_segment w (complete_steps customer_step))
         (steps_writes es)
    /\ append_only [] (steps_writes es)
    /\ (holds_row on pid (processed_orders d) ->
        exists r',
          find_order on (processed_orders (db st')) = Some r'
          /\ po_id r' = pid
          /\ po_steps_completed r' = last (steps_writes es) []).
Proof.
  unfold_saga. exec.
  all: rewrite ?audit_st_effects, ?audit_st_orders.
  all: cbn [effects db processed_orders].
  all: rewrite <- ?app_assoc; cbn [app].
  all: eexists.
  all: first [ solve [solve_steps "customer_found"]
             | solve [solve_steps "customer_created"] ].
Qed.

Lemma run_saga_steps env req d user body pid :
  reaches_saga env req d user body pid ->
  let st := snd (run env req d) in
  let ws := steps_writes (effects st) in
  exists customer_step,
    (customer_step = "customer_found" \/ customer_step = "customer_created")
    /\ ws <> []
    /\ (List.length (hd [] ws) <= 2)%nat
    /\ Forall (fun w => initial_segment w (complete_steps customer_step)) ws
    /\ append_only [] ws
    /\ exists r',
         find_order (str (order_number body)) (processed_orders (db st))
         = Some r'
         /\ po_id r' = pid
         /\ po_steps_completed r' = last ws [].
Proof.
  intros Hreach.
  destruct (run_reaches_saga _ _ _ _ _ _ Hreach)
    as (e0 & d' & Hrun & _ & Hsw & Hrow & _).
  rewrite Hrun.
  match goal with
  | |- context [saga ?e ?u ?c ?ik ?o ?n ?m ?a ?t ?p ?k ?l (mkSt ?d1 ?es _)] =>
      pose proof (saga_steps e u c ik o n m a t p k l d1 es) as H;
      destruct (saga e u c ik o n m a t p k l (mkSt d1 es init_locals))
        as [res st']
  end.
  cbn [snd].
  destruct H as (es & step & He & Hstep & Hne & Hfirst & Hseg & Hchain & Hr).
  rewrite He, steps_writes_app, Hsw. cbn [app].
  exists step. split; [exact Hstep|]. split; [exact Hne|].
  split; [exact Hfirst|]. split; [exact Hseg|]. split; [exact Hchain|].
  exact (Hr Hrow).
Qed.

(** C8, as amended. Within one invocation every value the handler writes
    to steps_completed extends the value it wrote before; the values are
    initial segments of the attempt's own five steps, the first holding
    at most the customer steps, so the attempt starts from the empty
    list. A request that reaches the orchestration, be it a first one or a
    retry, writes at least once, and the row ends holding the last value
    written, whatever progress it stored before. *)
Theorem steps_append_only_within_attempt env req d :
  let st := snd (run env req d) in
  let ws := steps_writes (effects st) in
  append_only [] ws
  /\ (exists customer_step,
        (customer_step = "customer_found"
         \/ customer_step = "customer_created")
        /\ Forall (fun w => initial_segment w (complete_steps customer_step))
             ws)
  /\ (List.length (hd [] ws) <= 2)%nat
  /\ forall user body pid,
       reaches_saga env req d user body pid ->
       ws <> []
       /\ exists r',
            find_order (str (order_number body)) (processed_orders (db st))
            = Some r'
            /\ po_id r' = pid
            /\ po_steps_completed r' = last ws [].
Proof.
  intros st ws. subst st ws.
  assert (Hsaga : forall user body pid,
             reaches_saga env req d user body pid ->
             steps_writes (effects (snd (run env req d))) <> []
             /\ exists r',
                  find_order (str (order_number body))
                    (processed_orders (db (snd (run env req d)))) = Some r'
                  /\ po_id r' = pid
                  /\ po_steps_completed r'
                     = last (steps_writes (effects (snd (run env req d)))) []).
  { intros user body pid Hreach.
    destruct (run_saga_steps _ _ _ _ _ _ Hreach)
      as (step & _ & Hne & _ & _ & _ & Hr).
    split; [exact Hne | exact Hr]. }
  assert (Hquiet : steps_writes (effects (snd (run env req d))) = [] ->
            append_only [] (steps_writes (effects (snd (run env req d))))
            /\ (exists customer_step,
                  (customer_step = "customer_found"
                   \/ customer_step = "customer_created")
                  /\ Forall
                       (fun w =>
                          initial_segment w (complete_steps customer_step))
                       (steps_writes (effects (snd (run env req d)))))
            /\ (List.length
                  (hd [] (steps_writes (effects (snd (run env req d)))))
                <= 2)%nat).
  { intros ->. split; [exact I|]. split; [|cbn; lia].
    exists "customer_found". split; [now left | constructor]. }
  assert (Hall : (exists user body pid, reaches_saga env req d user body pid)
                 \/ steps_writes (effects (snd (run env req d))) = []).
  { destruct (run env req d) as [res st] eqn:Hrun. cbn [snd].
    outcome_cases Hrun; rewrite ?audit_st_effects;
      try (right; reflexivity).
    left. do 3 eexists. eassumption. }
  destruct Hall as [(user & body & pid & Hreach) | Hq].
  - destruct (run_saga_steps _ _ _ _ _ _ Hreach)
      as (step & Hstep & _ & Hfirst & Hseg & Hchain & _).
    split; [exact Hchain|]. split; [now exists step|].
    split; [exact Hfirst | exact Hsaga].
  - destruct (Hquiet Hq) as (H1 & H2 & H3).
    split; [exact H1|]. split; [exact H2|]. split; [exact H3 | exact Hsaga].
Qed.


Lemma steps_append_only_within_attempt_witness :
  let env :=
    Sample.env_with 1700000000000 None false Sample.fetch_order_refused in
  let d :=
    Sample.db_with failed
      ["customer_search"; "customer_created"; "order_created";
       "invoice_created"] in
  reaches_saga env Sample.req d Sample.user Sample.body "row-0"
  /\ exists r',
       find_order "7600" (processed_orders (db (snd (run env Sample.req d))))
       = Some r'
       /\ po_steps_completed r'
          = last (steps_writes (effects (snd (run env Sample.req d)))) [].
Proof.
  intros env d.
  assert (Hr : reaches_saga env Sample.req d Sample.user Sample.body "row-0").
  { split; [repeat split; reflexivity|].
    cbn. split; [discriminate | reflexivity]. }
  split; [exact Hr|].
  destruct (steps_append_only_within_attempt env Sample.req d)
    as (_ & _ & _ & H).
  destruct (H Sample.user Sample.body "row-0" Hr) as (_ & r' & Hf & _ & Hs).
  exists r'. split; [exact Hf | exact Hs].
Defined.

(** C4. A request whose order number has a ledger row that is pending,
    processing or failed: the row's status is reset to processing and the
    orchestration starts over with the customer search; every create or
    publish call carries the key made of its prefix and the order number.
    When the platform answers each request of the chain, the run sends
    all of them in order (the search, the creation of the customer when
    the search named none, the order, the invoice, its read and its
    publication) and answers 200 with the ids the platform gave. The
    progress the row records plays no part: on any other ledger in which
    the order's row has the same id and is not completed, the response
    and the effects are the same. *)
Theorem retry_restarts_saga env req d user body r :
  reaches_ledger env req d user body ->
  find_order (str (order_number body)) (processed_orders d) = Some r ->
  In (po_status r) [pending; processing; failed] ->
  (exists resp st rq rest,
     run env req d = (Val resp, st)
     /\ effects st
        = OrdersUpdate (po_id r) (reset_update env) :: SquareCall rq :: rest
     /\ u_status (reset_update env) = Some processing
     /\ u_steps_completed (reset_update env) = None
     /\ sq_endpoint rq = "/customers/search"
     /\ sq_body rq = SearchBody (str (customer_email body))
     /\ Forall (keyed (str (order_number body)))
          (square_requests (effects st))
     /\ (status resp = 200 ->
         exists existed invoiceId,
           map sq_endpoint (square_requests (effects st))
           = saga_endpoints existed invoiceId)
     /\ (status resp = 200 \/ status resp = 500))
  /\ (forall c o iv,
        invoice_published env (str (customer_name body))
          (str (customer_email body)) (str (order_number body))
          (num (amount_cents body)) (str (SQUARE_LOCATION_ID env))
          (str (SQUARE_ACCESS_TOKEN env)) c o iv ->
        exists st created iv',
          run env req d
          = (Val (success_response (randomUUID env) (sc_id c) o (inv_id iv)
                    (inv_invoice_number iv)), st)
          /\ square_requests (effects st)
             = saga_requests env (str (customer_name body))
                 (str (customer_email body)) (str (order_number body))
                 (num (amount_cents body)) (str (SQUARE_LOCATION_ID env))
                 (str (SQUARE_ACCESS_TOKEN env)) created c o iv iv'
          /\ (created = true
              <-> none_found env (str (customer_email body))
                    (str (SQUARE_ACCESS_TOKEN env))))
  /\ forall d' r',
       reaches_ledger env req d' user body ->
       find_order (str (order_number body)) (processed_orders d') = Some r' ->
       In (po_status r') [pending; processing; failed] ->
       po_id r' = po_id r ->
       fst (run env req d') = fst (run env req d)
       /\ effects (snd (run env req d')) = effects (snd (run env req d)).
Proof.
  intros Hr Hf Hs.
  assert (Hopen : forall x : OrderRecord,
             In (po_status x) [pending; processing; failed] ->
             po_status x <> completed).
  { intros x Hx E. rewrite E in Hx. cbn in Hx.
    repeat destruct Hx as [Hx|Hx]; try discriminate; contradiction. }
  pose proof (Hopen r Hs) as Hnc.
  split; [|split].
  - rewrite (run_reaches_ledger _ _ _ _ _ Hr).
    rewrite (process_reuse _ _ _ _ _ _ _ _ _ _ (init_st d) r Hf Hnc).
    unfold emit_st.
    match goal with
    | |- context [saga ?e ?u ?c ?ik ?o ?n ?m ?a ?t ?p ?k ?l
                    (mkSt ?d ?es _)] =>
        destruct (saga_runs e u c ik o n m a t p k l d es)
          as (resp & st & es' & Hrun & He & Ht)
    end.
    destruct Ht as (_ & _ & (rq & rest & Hes & Hep & Hbody) & Hkeys & _
                    & resp' & Hresp & Hcase).
    inversion Hresp; subst resp'.
    exists resp, st, rq, rest.
    split; [exact Hrun|].
    assert (Heff : effects st
                   = OrdersUpdate (po_id r) (reset_update env)
                     :: SquareCall rq :: rest).
    { rewrite He, Hes. reflexivity. }
    split; [exact Heff|].
    split; [reflexivity|]. split; [reflexivity|].
    split; [exact Hep|]. split; [exact Hbody|].
    assert (Hreq : square_requests (effects st) = square_requests es').
    { rewrite He. reflexivity. }
    rewrite Hreq. split; [exact Hkeys|].
    destruct Hcase as [(H200 & _ & _ & Hends) | (H500 & _)].
    + split; [intros _; exact Hends | now left].
    + split; [intros E; rewrite E in H500; discriminate | now right].
  - intros c o iv Hpub.
    rewrite (run_reaches_ledger _ _ _ _ _ Hr).
    rewrite (process_reuse _ _ _ _ _ _ _ _ _ _ (init_st d) r Hf Hnc).
    unfold emit_st. cbn [effects init_st app].
    match goal with
    | |- context [saga ?e ?u ?ci ?ik ?on ?n ?m ?a ?t ?p ?k ?l
                    (mkSt ?d1 ?es _)] =>
        destruct (saga_try_complete e u ci ik on n m a t p k l d1 es c o iv
                    Hpub)
          as (st1 & created & iv' & Htry & Hreqs & Hcreated)
    end.
    exists st1, created, iv'.
    split; [apply saga_of_val; exact Htry|].
    split; [exact Hreqs | exact Hcreated].
  - intros d' r' Hr' Hf' Hs' Hid.
    rewrite (run_reaches_ledger _ _ _ _ _ Hr).
    rewrite (run_reaches_ledger _ _ _ _ _ Hr').
    rewrite (process_reuse _ _ _ _ _ _ _ _ _ _ (init_st d) r Hf Hnc).
    rewrite (process_reuse _ _ _ _ _ _ _ _ _ _ (init_st d') r' Hf'
               (Hopen r' Hs')).
    rewrite Hid. unfold emit_st, init_st. cbn [effects db app].
    pose proof (saga_db_irrelevant env user (randomUUID env)
                  ("cultivera-" ++ str (order_number body))
                  (str (order_number body)) (str (customer_name body))
                  (str (customer_email body)) (num (amount_cents body))
                  (str (request_timestamp body)) (po_id r)
                  (str (SQUARE_ACCESS_TOKEN env))
                  (str (SQUARE_LOCATION_ID env))
                  (mkDb (update_by_id (db_now env) (po_id r)
                           (reset_update env) (processed_orders d'))
                        (invoice_audit_log d'))
                  (mkDb (update_by_id (db_now env) (po_id r)
                           (reset_update env) (processed_orders d))
                        (invoice_audit_log d))
                  [OrdersUpdate (po_id r) (reset_update env)]) as Hsame.
    destruct (saga _ _ _ _ _ _ _ _ _ _ _ _
                (mkSt (mkDb (update_by_id _ _ _ (processed_orders d')) _)
                   _ _)) as [r1 s1].
    destruct (saga _ _ _ _ _ _ _ _ _ _ _ _
                (mkSt (mkDb (update_by_id _ _ _ (processed_orders d)) _)
                   _ _)) as [r2 s2].
    exact Hsame.
Qed.

Lemma retry_restarts_saga_witness :
  let d :=
    Sample.db_with failed
      ["customer_search"; "customer_found"; "order_created"] in
  reaches_ledger Sample.env Sample.req d Sample.user Sample.body
  /\ exists st,
       run Sample.env Sample.req d
       = (Val (success_response "corr-1" "CUST-1" "ORD-1" "INV-1" "000042"),
          st)
       /\ map (fun rq => (sq_endpoint rq, sq_idempotency_header rq))
            (square_requests (effects st))
          = [("/customers/search", None); ("/customers", Some "cust-7600");
             ("/orders", Some "ord-7600"); ("/invoices", Some "inv-7600");
             ("/invoices/INV-1", None);
             ("/invoices/INV-1/publish", Some "pub-7600")].
Proof.
  intros d.
  assert (Hr : reaches_ledger Sample.env Sample.req d Sample.user
                 Sample.body)
    by (repeat split; reflexivity).
  split; [exact Hr|].
  destruct (retry_restarts_saga Sample.env Sample.req d Sample.user
              Sample.body
              (Sample.row failed
                 ["customer_search"; "customer_found"; "order_created"])
              Hr eq_refl)
    as (_ & Hall & _).
  - right. right. left. reflexivity.
  - destruct (Hall (mkSquareCustomer "CUST-1" (Some "jane@example.org")
                      (Some "Jane") (Some "Doe"))
                "ORD-1" (mkSquareInvoice "INV-1" "000042" 0))
      as (st & created & iv' & Hrun & Hreqs & Hcreated).
    + exists (mkSquareInvoice "INV-1" "000042" 0).
      split; [|eexists; split; reflexivity].
      split; [|eexists; split; [reflexivity | split; reflexivity]].
      split; [|eexists; split; [reflexivity | split; reflexivity]].
      split; [|eexists; split; [reflexivity | split; reflexivity]].
      right. split.
      * eexists. split; [reflexivity|]. split; [reflexivity|].
        right. reflexivity.
      * eexists. split; [reflexivity|]. split; reflexivity.
    + exists st. split; [exact Hrun|].
      assert (Hc : created = true).
      { apply Hcreated. eexists. split; [reflexivity|].
        split; [reflexivity|]. right. reflexivity. }
      rewrite Hreqs, Hc. reflexivity.
Defined.

(** C7 fails on the code when the counting rpcs fail. The audit log holds
    sixty SUCCESS entries of the caller inside the trailing hour, so the
    caller's count and the global count are both 60; both rpcs return an
    error and no data. The handler reads only the data, compares the
    missing count with the limit, finds it not reached, and serves the
    request: the answer is 200 and the six requests of the chain were
    sent to the platform. *)
Lemma rate_limit_skipped_without_count :
  let d := mkDb [] (Sample.busy_log 60) in
  let env := env_without_counts in
  user_count_fails env = true
  /\ global_count_fails env = true
  /\ get_user_rate_limit_count (db_now env) "user-1" (invoice_audit_log d)
     = 60
  /\ get_global_rate_limit_count (db_now env) (invoice_audit_log d) = 60
  /\ option_map (fun r => (status r, response_code r))
       (match fst (run env Sample.req d) with
        | Val r => Some r
        | Throw _ => None
        end)
     = Some (200, None)
  /\ map sq_endpoint (square_requests (effects (snd (run env Sample.req d))))
     = ["/customers/search"; "/customers"; "/orders"; "/invoices";
        "/invoices/INV-1"; "/invoices/INV-1/publish"].
Proof. vm_compute. repeat split. Qed.
